(** * mongofluxd: a shallow embedding of [mongofluxd.go]

    The program tails the MongoDB oplog (through the [gtm] library) and
    writes selected document fields as points to InfluxDB.  This file
    embeds the data model and the functions of [mongofluxd.go] that the
    specification talks about, and proves the properties of the
    specification against them.

    Conventions of the embedding.
    - Go's [int], [int64] and [bson.MongoTimestamp] are [Z]; no operation of
      the modelled code can leave the 64-bit range except the point counter
      of [writeBatch], which counts points held in memory.
    - A Go [error] is [option error]; [None] is [nil].
    - A Go map that is only indexed and assigned is a [gmap]; [range] over a
      map visits its entries in an order chosen by the runtime, which is the
      section variable [range] below.  A document that the code only ranges
      over (the data of an oplog entry and its sub-documents) is given as the
      list of its entries in the order in which this run visits them.
    - The collaborators (InfluxDB client, mgo session, regexp compiler) are
      section variables; every call made to them is recorded in a trace. *)

From Stdlib Require Import ZArith String Ascii List Lia.
From stdpp Require Import gmap strings list fin_maps.

Local Open Scope string_scope.
Local Open Scope list_scope.
Local Open Scope Z_scope.

(** ** Go packages the program uses: [time], [bson], [client], [gtm] *)

Module time.

Inductive Location := UTC | Local.

(** A wall-clock instant: seconds and nanoseconds since the UNIX epoch,
    shown in a location. *)
Record Time := mkTime { sec : Z; nsec : Z; loc : Location }.

(** [time.Unix(sec, nsec)]: the local time of that instant. *)
Definition Unix (s ns : Z) : Time := mkTime s ns Local.

(** [t.UTC()]: the same instant, shown in UTC. *)
Definition toUTC (t : Time) : Time := mkTime (sec t) (nsec t) UTC.

(** [time.Time{}], the zero value of a [var t time.Time]:
    January 1 of year 1, 00:00:00 UTC. *)
Definition zero : Time := mkTime (-62135596800) 0 UTC.

End time.

Module bson.

(** [type MongoTimestamp int64] *)
Definition MongoTimestamp := Z.

End bson.

(** A Go [error] value, by its message. *)
Definition error := string.

#[local] Set Warnings "-register-all".

(** A dynamically typed value ([interface{}]) found in a document.  The
    constructors are the dynamic types the program distinguishes in its type
    switches and assertions; every other dynamic type (arrays, [int],
    ObjectId, ...) is [VOther] with the name that [%T] prints. *)
Inductive Value :=
| VNil
| VString (s : string)
| VInt64 (n : Z)
| VFloat64 (bits : Z)
| VBool (b : bool)
| VTime (t : time.Time)
| VMongoTimestamp (ts : bson.MongoTimestamp)
| VOpLogEntry (child : list (string * Value))
| VOther (type_name : string).

(** What [%T] prints for a value. *)
Definition type_name_of (v : Value) : string :=
  match v with
  | VNil => "<nil>"
  | VString _ => "string"
  | VInt64 _ => "int64"
  | VFloat64 _ => "float64"
  | VBool _ => "bool"
  | VTime _ => "time.Time"
  | VMongoTimestamp _ => "bson.MongoTimestamp"
  | VOpLogEntry _ => "gtm.OpLogEntry"
  | VOther tn => tn
  end.

(** The type assertion [v.(string)], used only under [istagtype]. *)
Definition assert_string (v : Value) : string :=
  match v with
  | VString s => s
  | _ => ""
  end.

Module gtm.

(** [type OpLogEntry map[string]interface{}], as the list of its entries in
    the order in which one [range] visits them. *)
Abbreviation OpLogEntry := (list (string * Value)).

(** The keys of a Go map are distinct. *)
Definition distinct_keys (d : OpLogEntry) : Prop := NoDup (d.*1).

(** Modelled from the spec: the change event of the upstream reader (the
    [gtm] library is not part of the repository).  Section 3 of the
    specification gives its attributes: namespace, database, collection,
    operation kind, timestamp and data. *)
Inductive OperationKind := Insert | Update | Delete | Command | Unknown.

Record Op := mkOp {
  Operation : OperationKind;
  Namespace : string;
  Database : string;
  Collection : string;
  Timestamp : bson.MongoTimestamp;
  Data : OpLogEntry
}.

Definition IsInsert (op : Op) : bool :=
  match Operation op with Insert => true | _ => false end.

Definition IsUpdate (op : Op) : bool :=
  match Operation op with Update => true | _ => false end.

Definition GetDatabase (op : Op) : string := Database op.

Definition GetCollection (op : Op) : string := Collection op.

Definition OpFilter := Op → bool.

(** Modelled from the spec: [gtm.ChainOpFilters]; section 4.4 says that the
    composition is a short-circuit AND in the listed order. *)
Definition ChainOpFilters (filters : list OpFilter) : OpFilter :=
  λ op, forallb (λ f, f op) filters.

End gtm.

Module client.

Record Point := mkPoint {
  Name : string;
  Tags : gmap string string;
  Fields : gmap string Value;
  Time : time.Time
}.

Record BatchPointsConfig := mkBatchPointsConfig {
  Precision : string;
  Database : string;
  RetentionPolicy : string
}.

(** Modelled from the spec: a batch of the sink client (section 3): database,
    retention policy and precision, and the points in the order in which they
    were added. *)
Record BatchPoints := mkBatchPoints {
  conf : BatchPointsConfig;
  Points : list Point
}.

(** [bp.AddPoint(pt)] *)
Definition AddPoint (pt : Point) (bp : BatchPoints) : BatchPoints :=
  mkBatchPoints (conf bp) (Points bp ++ [pt]).

End client.

(** ** The outside world *)

(** What the program logs. *)
Inductive LogMsg :=
| PointsFlushed (points : Z)
| UnsupportedTagType (type_name k ns : string)
| UnsupportedFieldType (type_name k ns : string)
| LogError (err : error).

(** The calls the program makes to its collaborators, with their results. *)
Inductive Call :=
| CallWrite (bp : client.BatchPoints) (err : option error)
| CallQuery (command : string) (err response_err : option error)
| CallUpsertId (db collection id : string) (ts : bson.MongoTimestamp) (err : option error)
| CallLog (msg : LogMsg).

(** The documents of the MongoDB deployment, by database, collection and
    [_id], and the calls made so far, oldest first. *)
Record World := mkWorld {
  store : gmap (string * string * string) (gmap string Value);
  trace : list Call
}.

Definition record (c : Call) (w : World) : World :=
  mkWorld (store w) (trace w ++ [c]).

Definition record_logs (msgs : list LogMsg) (w : World) : World :=
  mkWorld (store w) (trace w ++ (CallLog <$> msgs)).

(** The behaviour of the collaborators; each answer may depend on everything
    that happened before. *)
Record Collaborators := mkCollaborators {
  (** the order in which [range] visits a map *)
  range : ∀ A : Type, gmap string A → list (string * A);
  (** [client.Client.Write(bp)] *)
  client_Write : World → client.BatchPoints → option error;
  (** [client.Client.Query(q)]: the error, and [response.Error()] *)
  client_Query : World → string → option error * option error;
  (** the validation of [client.NewBatchPoints] *)
  NewBatchPoints_err : client.BatchPointsConfig → option error;
  (** the validation of [client.NewPoint] beyond the presence of a field *)
  NewPoint_err : string → gmap string string → gmap string Value → time.Time → option error;
  (** the failure of [Collection.UpsertId] *)
  UpsertId_err : World → string → string → string → option error;
  (** [gtm.LastOpTimestamp]: the current tail of the oplog *)
  gtm_LastOpTimestamp : World → bson.MongoTimestamp;
  (** [regexp.MustCompile(p)], by the [MatchString] of the result; [None]
      when it panics *)
  regexp_MustCompile : string → option (string → bool)
}.

(** ** The structures of [mongofluxd.go] *)

Record measureSettings := mkMeasureSettings {
  Namespace : string;
  Timefield : string;
  Retention : string;
  Precision : string;
  Measure : string;
  Tags : list string;
  Fields : list string
}.

(** The options that the functions below read. *)
Record configOptions := mkConfigOptions {
  ResumeName : string;
  NsRegex : string;
  NsExcludeRegex : string;
  Verbose : bool;
  Resume : bool;
  ResumeFromTimestamp : Z;
  Replay : bool;
  Measurement : list measureSettings;
  InfluxAutoCreateDB : bool;
  InfluxBufferSize : Z
}.

Module InfluxMeasure.

Record t := mk {
  ns : string;
  timefield : string;
  retention : string;
  precision : string;
  measure : string;
  tags : gmap string bool;
  fields : gmap string bool
}.

Definition set_precision (p : string) (im : t) : t :=
  mk (ns im) (timefield im) (retention im) p (measure im) (tags im) (fields im).

Definition set_tags (x : gmap string bool) (im : t) : t :=
  mk (ns im) (timefield im) (retention im) (precision im) (measure im) x (fields im).

Definition set_fields (x : gmap string bool) (im : t) : t :=
  mk (ns im) (timefield im) (retention im) (precision im) (measure im) (tags im) x.

End InfluxMeasure.

Module InfluxCtx.

(** The handles [c] and [mongo] carry no data of their own: the sink and the
    MongoDB session are the [World]. *)
Record t := mk {
  m : gmap string client.BatchPoints;
  dbs : gmap string bool;
  measures : gmap string InfluxMeasure.t;
  config : configOptions;
  lastTs : bson.MongoTimestamp
}.

Definition set_m (x : gmap string client.BatchPoints) (ctx : t) : t :=
  mk x (dbs ctx) (measures ctx) (config ctx) (lastTs ctx).

Definition set_dbs (x : gmap string bool) (ctx : t) : t :=
  mk (m ctx) x (measures ctx) (config ctx) (lastTs ctx).

Definition set_measures (x : gmap string InfluxMeasure.t) (ctx : t) : t :=
  mk (m ctx) (dbs ctx) x (config ctx) (lastTs ctx).

Definition set_lastTs (x : bson.MongoTimestamp) (ctx : t) : t :=
  mk (m ctx) (dbs ctx) (measures ctx) (config ctx) x.

End InfluxCtx.

(** The result of a method of [InfluxCtx]: the returned value with the
    context and the world it leaves, or a run-time panic. *)
Inductive outcome (A : Type) :=
| Done (a : A) (ctx : InfluxCtx.t) (w : World)
| Panic.

Arguments Done {A} a ctx w.
Arguments Panic {A}.

(** [m[k]] on a [map[string]bool]: [false] for a missing key. *)
Definition index_bool (mp : gmap string bool) (k : string) : bool :=
  default false (mp !! k).

(** [doc[k]] on a [map[string]interface{}]: [nil] for a missing key. *)
Definition index_value (doc : gmap string Value) (k : string) : Value :=
  default VNil (doc !! k).

Definition Name : string := "mongofluxd".

(** The double quote character. *)
Definition dquote : string := String (ascii_of_nat 34) EmptyString.

(** ** Type classifier *)

Definition istagtype (v : Value) : bool :=
  match v with
  | VString _ => true
  | _ => false
  end.

Definition isfieldtype (v : Value) : bool :=
  match v with
  | VString _ => true
  | VInt64 _ => true
  | VFloat64 _ => true
  | VBool _ => true
  | _ => false
  end.

(** ** Timestamps *)

(** [time.Unix(int64(ts>>32), 0).UTC()]; [>>] on the signed [int64] is the
    arithmetic shift. *)
Definition TimestampTime (ts : bson.MongoTimestamp) : time.Time :=
  time.toUTC (time.Unix (Z.shiftr ts 32) 0).

(** ** The package-level regular expressions

    A compiled regular expression is modelled by its [MatchString].  The two
    patterns of the program are written out by hand; [MatchString] reports a
    match that starts at any position of the subject. *)

(** Whether [at_start] holds of the subject from some position on. *)
Fixpoint search (at_start : string → bool) (s : string) : bool :=
  at_start s ||
  match s with
  | EmptyString => false
  | String _ s' => search at_start s'
  end.

(** [s] without the prefix [p], when it starts with it. *)
Fixpoint strip_prefix (p s : string) : option string :=
  match p, s with
  | EmptyString, _ => Some s
  | String a p', String b s' => if decide (a = b) then strip_prefix p' s' else None
  | String _ _, EmptyString => None
  end.

(** [.+$]: one or more characters other than the newline, up to the end of
    the text. *)
Fixpoint any_plus_end (s : string) : bool :=
  match s with
  | EmptyString => false
  | String c s' =>
      negb (bool_decide (c = ascii_of_nat 10)) &&
      match s' with
      | EmptyString => true
      | _ => any_plus_end s'
      end
  end.

(** [regexp.MustCompile("\\.chunks$")]: the literal [.chunks], then the end
    of the text. *)
Definition chunksRegex : string → bool :=
  search (λ s, bool_decide (s = ".chunks")).

(** [regexp.MustCompile("system\\..+$")]: the literal [system.], then [.+$]. *)
Definition systemsRegex : string → bool :=
  search (λ s, match strip_prefix "system." s with
               | Some rest => any_plus_end rest
               | None => false
               end).

(** ** Filters that need no collaborator *)

Definition IsInsertOrUpdate (op : gtm.Op) : bool :=
  gtm.IsInsert op || gtm.IsUpdate op.

Definition NotMongoFlux (op : gtm.Op) : bool :=
  negb (bool_decide (gtm.GetDatabase op = Name)).

Definition NotChunks (op : gtm.Op) : bool :=
  negb (chunksRegex (gtm.GetCollection op)).

Definition NotSystem (op : gtm.Op) : bool :=
  negb (systemsRegex (gtm.GetCollection op)).

(** ** Checkpoint store *)

(** Modelled from the spec: [session.DB(db).C(collection).FindId(id).One(doc)]
    (section 6, find_by_id): the record under [id], or [doc] left empty when
    there is none. *)
Definition FindId_One (w : World) (db collection id : string) : gmap string Value :=
  default ∅ (store w !! (db, collection, id)).

(** Modelled from the spec: the effect of a successful
    [UpsertId(id, {"$set": doc})] (section 6, upsert_by_id): the fields of
    [doc] are set in the record under [id], which is created when missing. *)
Definition upsert_set (db collection id : string) (doc : gmap string Value)
    (st : gmap (string * string * string) (gmap string Value))
  : gmap (string * string * string) (gmap string Value) :=
  <[(db, collection, id) :=
      doc ∪ default {["_id" := VString id]} (st !! (db, collection, id))]> st.

(** ** Measurement setup: the pure part *)

(** The [InfluxMeasure] that [setupMeasurements] builds for one entry of the
    configuration. *)
Definition newInfluxMeasure (ms : measureSettings) : InfluxMeasure.t :=
  let im := InfluxMeasure.mk (Namespace ms) (Timefield ms) (Retention ms)
              (Precision ms) (Measure ms) ∅ ∅ in
  let im := if decide (InfluxMeasure.precision im = "")
            then InfluxMeasure.set_precision "s" im else im in
  let im := foldl (λ im tag,
              InfluxMeasure.set_tags (<[tag := true]> (InfluxMeasure.tags im)) im)
              im (Tags ms) in
  let im := foldl (λ im field,
              InfluxMeasure.set_fields (<[field := true]> (InfluxMeasure.fields im)) im)
              im (Fields ms) in
  im.

(** The loop of [setupMeasurements] over the configured measurements. *)
Fixpoint setupMeasurements_loop (mss : list measureSettings)
    (measures : gmap string InfluxMeasure.t)
  : option error * gmap string InfluxMeasure.t :=
  match mss with
  | [] => (None, measures)
  | ms :: rest =>
      let im := newInfluxMeasure ms in
      if decide (size (InfluxMeasure.fields im) = 0%nat)
      then (Some "at least one field is required per measurement", measures)
      else setupMeasurements_loop rest (<[Namespace ms := im]> measures)
  end.

Definition setupMeasurements (ctx : InfluxCtx.t) (w : World) : outcome (option error) :=
  let mss := Measurement (InfluxCtx.config ctx) in
  if decide (0 < length mss)%nat then
    let '(err, measures) := setupMeasurements_loop mss (InfluxCtx.measures ctx) in
    Done err (InfluxCtx.set_measures measures ctx) w
  else Done (Some "at least one measurement is required") ctx w.

(** ** The methods of [InfluxCtx] and the functions of [main] *)

Section Model.

Variable E : Collaborators.

Definition SaveTimestamp (w : World) (ts : bson.MongoTimestamp) (resumeName : string)
  : option error * World :=
  let doc : gmap string Value := {["ts" := VMongoTimestamp ts]} in
  let err := UpsertId_err E w Name "resume" resumeName in
  let st := match err with
            | None => upsert_set Name "resume" resumeName doc (store w)
            | Some _ => store w
            end in
  (err, mkWorld st (trace w ++ [CallUpsertId Name "resume" resumeName ts err])).

Definition saveTs (ctx : InfluxCtx.t) (w : World) : outcome (option error) :=
  if Resume (InfluxCtx.config ctx) && negb (bool_decide (InfluxCtx.lastTs ctx = 0)) then
    let '(err, w) := SaveTimestamp w (InfluxCtx.lastTs ctx)
                       (ResumeName (InfluxCtx.config ctx)) in
    Done err (InfluxCtx.set_lastTs 0 ctx) w
  else Done None ctx w.

Definition createDatabase (db : string) (ctx : InfluxCtx.t) (w : World)
  : outcome (option error) :=
  if InfluxAutoCreateDB (InfluxCtx.config ctx) then
    if negb (index_bool (InfluxCtx.dbs ctx) db) then
      let q := "CREATE DATABASE " +:+ dquote +:+ db +:+ dquote in
      let '(err, response_err) := client_Query E w q in
      let w := record (CallQuery q err response_err) w in
      match err, response_err with
      | Some e, _ => Done (Some e) ctx w
      | None, Some e => Done (Some e) ctx w
      | None, None =>
          Done None (InfluxCtx.set_dbs (<[db := true]> (InfluxCtx.dbs ctx)) ctx) w
      end
    else Done None ctx w
  else Done None ctx w.

(** Modelled from the spec: [client.NewBatchPoints] (section 4.6): a new,
    empty batch for the given database, retention policy and precision,
    unless the client refuses the configuration. *)
Definition client_NewBatchPoints (cfg : client.BatchPointsConfig)
  : error + client.BatchPoints :=
  match NewBatchPoints_err E cfg with
  | Some e => inl e
  | None => inr (client.mkBatchPoints cfg [])
  end.

(** Modelled from the spec: [client.NewPoint] (section 3, the invariant of a
    point: its fields are not empty; section 7: an invalid point is an error
    of the projection).  The client may refuse a point for further
    reasons, [NewPoint_err]. *)
Definition client_NewPoint (name : string) (tags : gmap string string)
    (fields : gmap string Value) (t : time.Time) : error + client.Point :=
  if decide (size fields = 0%nat) then inl "Point without fields is unsupported"
  else match NewPoint_err E name tags fields t with
       | Some e => inl e
       | None => inr (client.mkPoint name tags fields t)
       end.

Definition setupDatabase (op : gtm.Op) (ctx : InfluxCtx.t) (w : World)
  : outcome (option error) :=
  let db := gtm.GetDatabase op in
  let ns := gtm.Namespace op in
  match InfluxCtx.m ctx !! ns with
  | Some _ => Done None ctx w
  | None =>
      match InfluxCtx.measures ctx !! ns with
      | None => Panic
      | Some im =>
          match client_NewBatchPoints
                  (client.mkBatchPointsConfig (InfluxMeasure.precision im) db
                     (InfluxMeasure.retention im)) with
          | inl err => Done (Some err) ctx w
          | inr bp =>
              createDatabase db (InfluxCtx.set_m (<[ns := bp]> (InfluxCtx.m ctx)) ctx) w
          end
      end
  end.

(** The loop of [writeBatch] over the batches, in the order of the [range]:
    the number of points counted, the error of the write that stopped the
    loop, and the world after the writes. *)
Fixpoint writeBatch_loop (bps : list (string * client.BatchPoints)) (points : Z)
    (w : World) : Z * option error * World :=
  match bps with
  | [] => (points, None, w)
  | (_, bp) :: rest =>
      let points := points + Z.of_nat (length (client.Points bp)) in
      let err := client_Write E w bp in
      let w := record (CallWrite bp err) w in
      match err with
      | Some e => (points, Some e, w)
      | None => writeBatch_loop rest points w
      end
  end.

Definition writeBatch (ctx : InfluxCtx.t) (w : World) : outcome (option error) :=
  let '(points, err, w) := writeBatch_loop (range E _ (InfluxCtx.m ctx)) 0 w in
  let w := if Verbose (InfluxCtx.config ctx) then
             if bool_decide (0 < points)%Z then record (CallLog (PointsFlushed points)) w
             else w
           else w in
  let ctx := InfluxCtx.set_m ∅ ctx in
  match err with
  | None => saveTs ctx w
  | Some e => Done (Some e) ctx w
  end.

(** *** Flattener *)

(** [for nk, nv := range nm { o[prefix+k+"."+nk] = nv }] *)
Definition flatmap_merge (prefix k : string) (nm o : gmap string Value)
  : gmap string Value :=
  foldl (λ o' '(nk, nv), <[prefix +:+ k +:+ "." +:+ nk := nv]> o') o (range E _ nm).

(** The body of the loop of [flatmap], for the entry [(k, v)] of [m] and the
    output [o] built so far; the inner loop is [flatmap("", child)]. *)
Fixpoint flatmap_entry (prefix : string) (o : gmap string Value)
    (k : string) (v : Value) {struct v} : gmap string Value :=
  match v with
  | VOpLogEntry child =>
      let nm :=
        (fix loop (l : list (string * Value)) (o' : gmap string Value) :=
           match l with
           | [] => o'
           | (k', v') :: rest => loop rest (flatmap_entry "" o' k' v')
           end) child ∅ in
      flatmap_merge prefix k nm o
  | _ => if isfieldtype v then <[prefix +:+ k := v]> o else o
  end.

Definition flatmap (prefix : string) (m : gtm.OpLogEntry) : gmap string Value :=
  foldl (λ o '(k, v), flatmap_entry prefix o k v) ∅ m.

(** *** Projection of an event *)

(** The local variables of [addPoint] that its loop over [op.Data] updates,
    and the messages it logs. *)
Record projection := mkProjection {
  p_t : time.Time;
  p_timefield : bool;
  p_tags : gmap string string;
  p_fields : gmap string Value;
  p_log : list LogMsg
}.

(** The tag-or-field decision for the key [k] with value [v]: the body of
    the [default] case, and of the loop over the flattened sub-document. *)
Definition addPoint_key (measure : InfluxMeasure.t) (ns : string)
    (acc : projection) (k : string) (v : Value) : projection :=
  if index_bool (InfluxMeasure.tags measure) k then
    if istagtype v then
      mkProjection (p_t acc) (p_timefield acc) (<[k := assert_string v]> (p_tags acc))
        (p_fields acc) (p_log acc)
    else
      mkProjection (p_t acc) (p_timefield acc) (p_tags acc) (p_fields acc)
        (p_log acc ++ [UnsupportedTagType (type_name_of v) k ns])
  else if index_bool (InfluxMeasure.fields measure) k then
    if isfieldtype v then
      mkProjection (p_t acc) (p_timefield acc) (p_tags acc) (<[k := v]> (p_fields acc))
        (p_log acc)
    else
      mkProjection (p_t acc) (p_timefield acc) (p_tags acc) (p_fields acc)
        (p_log acc ++ [UnsupportedFieldType (type_name_of v) k ns])
  else acc.

(** The body of the loop of [addPoint] over [op.Data]. *)
Definition addPoint_entry (measure : InfluxMeasure.t) (ns : string)
    (acc : projection) (kv : string * Value) : projection :=
  let '(k, v) := kv in
  if decide (k = "_id") then acc
  else
    match v with
    | VTime tv =>
        if decide (InfluxMeasure.timefield measure = k) then
          mkProjection (time.toUTC tv) false (p_tags acc) (p_fields acc) (p_log acc)
        else acc
    | VMongoTimestamp ts =>
        if decide (InfluxMeasure.timefield measure = k) then
          mkProjection (TimestampTime ts) false (p_tags acc) (p_fields acc) (p_log acc)
        else acc
    | VOpLogEntry child =>
        let flat := flatmap (k +:+ ".") child in
        foldl (λ acc '(fk, fv), addPoint_key measure ns acc fk fv) acc (range E _ flat)
    | _ => addPoint_key measure ns acc k v
    end.

(** Lines 227 to 290 of [addPoint]: the name, the time, the tags and the
    fields of the point for [op] under [measure], or the error that no time
    was found. *)
Definition addPoint_project (measure : InfluxMeasure.t) (op : gtm.Op)
  : string * projection * option error :=
  let timefield := negb (bool_decide (InfluxMeasure.timefield measure = "")) in
  let name := gtm.GetCollection op in
  let t := if negb timefield then TimestampTime (gtm.Timestamp op) else time.zero in
  let name := if negb (bool_decide (InfluxMeasure.measure measure = ""))
              then InfluxMeasure.measure measure else name in
  let acc := foldl (addPoint_entry measure (gtm.Namespace op))
               (mkProjection t timefield ∅ ∅ []) (gtm.Data op) in
  if p_timefield acc then
    (name, acc, Some ("time field " +:+ InfluxMeasure.timefield measure
                        +:+ " not found in document"))
  else (name, acc, None).

Definition addPoint (op : gtm.Op) (ctx : InfluxCtx.t) (w : World)
  : outcome (option error) :=
  match InfluxCtx.measures ctx !! gtm.Namespace op with
  | Some measure =>
      match setupDatabase op ctx w with
      | Panic => Panic
      | Done (Some err) ctx w => Done (Some err) ctx w
      | Done None ctx w =>
          let '(name, acc, err) := addPoint_project measure op in
          let w := record_logs (p_log acc) w in
          match err with
          | Some e => Done (Some e) ctx w
          | None =>
              match client_NewPoint name (p_tags acc) (p_fields acc) (p_t acc) with
              | inl e => Done (Some e) ctx w
              | inr pt =>
                  match InfluxCtx.m ctx !! gtm.Namespace op with
                  | None => Panic
                  | Some bp =>
                      let bp := client.AddPoint pt bp in
                      let ctx := InfluxCtx.set_m
                                   (<[gtm.Namespace op := bp]> (InfluxCtx.m ctx)) ctx in
                      let ctx := InfluxCtx.set_lastTs (gtm.Timestamp op) ctx in
                      if bool_decide (InfluxBufferSize (InfluxCtx.config ctx)
                                        ≤ Z.of_nat (length (client.Points bp)))%Z
                      then writeBatch ctx w
                      else Done None ctx w
                  end
              end
          end
      end
  | None => Done None ctx w
  end.

(** *** The functions that [main] hands to the upstream reader *)

Definition FilterWithRegex (regex : string) : option gtm.OpFilter :=
  match regexp_MustCompile E regex with
  | Some validNameSpace => Some (λ op, validNameSpace (gtm.Namespace op))
  | None => None
  end.

Definition FilterInverseWithRegex (regex : string) : option gtm.OpFilter :=
  match regexp_MustCompile E regex with
  | Some invalidNameSpace => Some (λ op, negb (invalidNameSpace (gtm.Namespace op)))
  | None => None
  end.

(** The filter that [main] builds; [None] when a configured pattern does not
    compile and [main] panics. *)
Definition main_filter (config : configOptions) : option gtm.OpFilter :=
  let filterChain := [NotMongoFlux; IsInsertOrUpdate; NotSystem; NotChunks] in
  match (if negb (bool_decide (NsRegex config = "")) then
           match FilterWithRegex (NsRegex config) with
           | Some f => Some (filterChain ++ [f])%list
           | None => None
           end
         else Some filterChain) with
  | None => None
  | Some filterChain =>
      match (if negb (bool_decide (NsExcludeRegex config = "")) then
               match FilterInverseWithRegex (NsExcludeRegex config) with
               | Some f => Some (filterChain ++ [f])%list
               | None => None
               end
             else Some filterChain) with
      | None => None
      | Some filterChain => Some (gtm.ChainOpFilters filterChain)
      end
  end.

(** The timestamp generator [after] of [main]: [None] is [nil]; the result
    of the generator is [None] when its type assertion panics. *)
Definition main_after (config : configOptions)
  : option (World → option bson.MongoTimestamp) :=
  if Resume config then
    Some (λ w,
      let ts := gtm_LastOpTimestamp E w in
      if Replay config then Some 0
      else if negb (bool_decide (ResumeFromTimestamp config = 0)) then
        Some (ResumeFromTimestamp config)
      else
        let doc := FindId_One w Name "resume" (ResumeName config) in
        match index_value doc "ts" with
        | VNil => Some ts
        | VMongoTimestamp saved => Some saved
        | _ => None
        end)
  else if Replay config then Some (λ _, Some 0)
  else None.

(** Modelled from the spec: the start position of the upstream reader
    (section 4.9, step 3): the reader asks the generator it was given, and
    starts at its current tail when it was given none. *)
Definition start_timestamp (config : configOptions) (w : World)
  : option bson.MongoTimestamp :=
  match main_after config with
  | Some after => after w
  | None => Some (gtm_LastOpTimestamp E w)
  end.

End Model.

(** ** Configuration: the whole of [configOptions], its file and its defaults *)

Record mongoDialSettings := mkMongoDialSettings {
  Timeout : Z;
  Ssl : bool
}.

Record mongoSessionSettings := mkMongoSessionSettings {
  SocketTimeout : Z;
  SyncTimeout : Z
}.

Record gtmSettings := mkGtmSettings {
  ChannelSize : Z;
  BufferSize : Z;
  BufferDuration : string
}.

Module Config.

(** The struct [configOptions] with all its fields, in the order of the
    source.  The methods of [InfluxCtx] read the part that [options] below
    selects. *)
Record t := mk {
  MongoUrl : string;
  MongoPemFile : string;
  MongoSkipVerify : bool;
  MongoOpLogDatabaseName : string;
  MongoOpLogCollectionName : string;
  MongoCursorTimeout : string;
  MongoDialSettings : mongoDialSettings;
  MongoSessionSettings : mongoSessionSettings;
  GtmSettings : gtmSettings;
  ResumeName : string;
  NsRegex : string;
  NsExcludeRegex : string;
  Version : bool;
  Verbose : bool;
  Resume : bool;
  ResumeWriteUnsafe : bool;
  ResumeFromTimestamp : Z;
  Replay : bool;
  ConfigFile : string;
  Measurement : list measureSettings;
  InfluxUrl : string;
  InfluxUser : string;
  InfluxPassword : string;
  InfluxSkipVerify : bool;
  InfluxPemFile : string;
  InfluxAutoCreateDB : bool;
  InfluxClients : Z;
  InfluxBufferSize : Z;
  DirectReads : bool;
  ExitAfterDirectReads : bool
}.

(** The fields that the methods of [InfluxCtx] and the functions of [main]
    modelled above read. *)
Definition options (c : t) : configOptions :=
  mkConfigOptions (ResumeName c) (NsRegex c) (NsExcludeRegex c) (Verbose c) (Resume c)
    (ResumeFromTimestamp c) (Replay c) (Measurement c) (InfluxAutoCreateDB c)
    (InfluxBufferSize c).

Definition set_MongoUrl (x : string) (c : t) : t :=
  mk x (MongoPemFile c) (MongoSkipVerify c) (MongoOpLogDatabaseName c)
    (MongoOpLogCollectionName c) (MongoCursorTimeout c) (MongoDialSettings c)
    (MongoSessionSettings c) (GtmSettings c) (ResumeName c) (NsRegex c)
    (NsExcludeRegex c) (Version c) (Verbose c) (Resume c) (ResumeWriteUnsafe c)
    (ResumeFromTimestamp c) (Replay c) (ConfigFile c) (Measurement c) (InfluxUrl c)
    (InfluxUser c) (InfluxPassword c) (InfluxSkipVerify c) (InfluxPemFile c)
    (InfluxAutoCreateDB c) (InfluxClients c) (InfluxBufferSize c) (DirectReads c)
    (ExitAfterDirectReads c).

Definition set_MongoDialSettings (x : mongoDialSettings) (c : t) : t :=
  mk (MongoUrl c) (MongoPemFile c) (MongoSkipVerify c) (MongoOpLogDatabaseName c)
    (MongoOpLogCollectionName c) (MongoCursorTimeout c) x
    (MongoSessionSettings c) (GtmSettings c) (ResumeName c) (NsRegex c)
    (NsExcludeRegex c) (Version c) (Verbose c) (Resume c) (ResumeWriteUnsafe c)
    (ResumeFromTimestamp c) (Replay c) (ConfigFile c) (Measurement c) (InfluxUrl c)
    (InfluxUser c) (InfluxPassword c) (InfluxSkipVerify c) (InfluxPemFile c)
    (InfluxAutoCreateDB c) (InfluxClients c) (InfluxBufferSize c) (DirectReads c)
    (ExitAfterDirectReads c).

Definition set_ResumeName (x : string) (c : t) : t :=
  mk (MongoUrl c) (MongoPemFile c) (MongoSkipVerify c) (MongoOpLogDatabaseName c)
    (MongoOpLogCollectionName c) (MongoCursorTimeout c) (MongoDialSettings c)
    (MongoSessionSettings c) (GtmSettings c) x (NsRegex c)
    (NsExcludeRegex c) (Version c) (Verbose c) (Resume c) (ResumeWriteUnsafe c)
    (ResumeFromTimestamp c) (Replay c) (ConfigFile c) (Measurement c) (InfluxUrl c)
    (InfluxUser c) (InfluxPassword c) (InfluxSkipVerify c) (InfluxPemFile c)
    (InfluxAutoCreateDB c) (InfluxClients c) (InfluxBufferSize c) (DirectReads c)
    (ExitAfterDirectReads c).

Definition set_InfluxUrl (x : string) (c : t) : t :=
  mk (MongoUrl c) (MongoPemFile c) (MongoSkipVerify c) (MongoOpLogDatabaseName c)
    (MongoOpLogCollectionName c) (MongoCursorTimeout c) (MongoDialSettings c)
    (MongoSessionSettings c) (GtmSettings c) (ResumeName c) (NsRegex c)
    (NsExcludeRegex c) (Version c) (Verbose c) (Resume c) (ResumeWriteUnsafe c)
    (ResumeFromTimestamp c) (Replay c) (ConfigFile c) (Measurement c) x
    (InfluxUser c) (InfluxPassword c) (InfluxSkipVerify c) (InfluxPemFile c)
    (InfluxAutoCreateDB c) (InfluxClients c) (InfluxBufferSize c) (DirectReads c)
    (ExitAfterDirectReads c).

Definition set_InfluxClients (x : Z) (c : t) : t :=
  mk (MongoUrl c) (MongoPemFile c) (MongoSkipVerify c) (MongoOpLogDatabaseName c)
    (MongoOpLogCollectionName c) (MongoCursorTimeout c) (MongoDialSettings c)
    (MongoSessionSettings c) (GtmSettings c) (ResumeName c) (NsRegex c)
    (NsExcludeRegex c) (Version c) (Verbose c) (Resume c) (ResumeWriteUnsafe c)
    (ResumeFromTimestamp c) (Replay c) (ConfigFile c) (Measurement c) (InfluxUrl c)
    (InfluxUser c) (InfluxPassword c) (InfluxSkipVerify c) (InfluxPemFile c)
    (InfluxAutoCreateDB c) x (InfluxBufferSize c) (DirectReads c)
    (ExitAfterDirectReads c).

Definition set_InfluxBufferSize (x : Z) (c : t) : t :=
  mk (MongoUrl c) (MongoPemFile c) (MongoSkipVerify c) (MongoOpLogDatabaseName c)
    (MongoOpLogCollectionName c) (MongoCursorTimeout c) (MongoDialSettings c)
    (MongoSessionSettings c) (GtmSettings c) (ResumeName c) (NsRegex c)
    (NsExcludeRegex c) (Version c) (Verbose c) (Resume c) (ResumeWriteUnsafe c)
    (ResumeFromTimestamp c) (Replay c) (ConfigFile c) (Measurement c) (InfluxUrl c)
    (InfluxUser c) (InfluxPassword c) (InfluxSkipVerify c) (InfluxPemFile c)
    (InfluxAutoCreateDB c) (InfluxClients c) x (DirectReads c)
    (ExitAfterDirectReads c).

End Config.

Definition mongoUrlDefault : string := "localhost".
Definition influxUrlDefault : string := "http://localhost:8086".
Definition influxClientsDefault : Z := 10.
Definition influxBufferDefault : Z := 1000.
Definition resumeNameDefault : string := "default".
Definition gtmChannelSizeDefault : Z := 512.

Definition GtmDefaultSettings : gtmSettings :=
  mkGtmSettings gtmChannelSizeDefault 32 "750ms".

(** The value of [tomlConfig] before the file is decoded into it: the zero
    value of every field but the four that [LoadConfigFile] presets. *)
Definition tomlPreset : Config.t :=
  Config.mk "" "" false "" "" "" (mkMongoDialSettings (-1) false)
    (mkMongoSessionSettings (-1) (-1)) GtmDefaultSettings "" "" "" false false false
    false 0 false "" [] "" "" "" false "" true 0 0 false false.

(** The files and the URL parser that the start of the program uses. *)
Record Startup := mkStartup {
  (** [toml.DecodeFile(path, &tomlConfig)]: the decoded configuration, which
      starts from the given preset; [None] when it returns an error *)
  toml_DecodeFile : string → Config.t → option Config.t;
  (** the error of [ioutil.ReadFile] *)
  ioutil_ReadFile_err : string → option error;
  (** the error of [mgo.ParseURL] *)
  mgo_ParseURL_err : string → option error
}.

(** [LoadConfigFile]; [None] when the file cannot be decoded and the
    function panics. *)
Definition LoadConfigFile (S : Startup) (config : Config.t) : option Config.t :=
  if negb (bool_decide (Config.ConfigFile config = "")) then
    match toml_DecodeFile S (Config.ConfigFile config) tomlPreset with
    | None => None
    | Some tomlConfig =>
        let pick (is_unset : bool) {A : Type} (own file : A) : A :=
          if is_unset then file else own in
        let unset (s : string) : bool := bool_decide (s = "") in
        let turn_on (own file : bool) : bool :=
          if negb own && file then true else own in
        let Resume := turn_on (Config.Resume config) (Config.Resume tomlConfig) in
        Some (Config.mk
          (pick (unset (Config.MongoUrl config))
             (Config.MongoUrl config) (Config.MongoUrl tomlConfig))
          (pick (unset (Config.MongoPemFile config))
             (Config.MongoPemFile config) (Config.MongoPemFile tomlConfig))
          (pick (bool_decide (Config.MongoSkipVerify config = false))
             (Config.MongoSkipVerify config) (Config.MongoSkipVerify tomlConfig))
          (pick (unset (Config.MongoOpLogDatabaseName config))
             (Config.MongoOpLogDatabaseName config)
             (Config.MongoOpLogDatabaseName tomlConfig))
          (pick (unset (Config.MongoOpLogCollectionName config))
             (Config.MongoOpLogCollectionName config)
             (Config.MongoOpLogCollectionName tomlConfig))
          (pick (unset (Config.MongoCursorTimeout config))
             (Config.MongoCursorTimeout config) (Config.MongoCursorTimeout tomlConfig))
          (Config.MongoDialSettings tomlConfig)
          (Config.MongoSessionSettings tomlConfig)
          (Config.GtmSettings tomlConfig)
          (pick (Resume && unset (Config.ResumeName config))
             (Config.ResumeName config) (Config.ResumeName tomlConfig))
          (pick (unset (Config.NsRegex config))
             (Config.NsRegex config) (Config.NsRegex tomlConfig))
          (pick (unset (Config.NsExcludeRegex config))
             (Config.NsExcludeRegex config) (Config.NsExcludeRegex tomlConfig))
          (Config.Version config)
          (turn_on (Config.Verbose config) (Config.Verbose tomlConfig))
          Resume
          (turn_on (Config.ResumeWriteUnsafe config) (Config.ResumeWriteUnsafe tomlConfig))
          (pick (bool_decide (Config.ResumeFromTimestamp config = 0))
             (Config.ResumeFromTimestamp config) (Config.ResumeFromTimestamp tomlConfig))
          (turn_on (Config.Replay config) (Config.Replay tomlConfig))
          (Config.ConfigFile config)
          (Config.Measurement tomlConfig)
          (pick (unset (Config.InfluxUrl config))
             (Config.InfluxUrl config) (Config.InfluxUrl tomlConfig))
          (pick (unset (Config.InfluxUser config))
             (Config.InfluxUser config) (Config.InfluxUser tomlConfig))
          (pick (unset (Config.InfluxPassword config))
             (Config.InfluxPassword config) (Config.InfluxPassword tomlConfig))
          (pick (bool_decide (Config.InfluxSkipVerify config = false))
             (Config.InfluxSkipVerify config) (Config.InfluxSkipVerify tomlConfig))
          (pick (unset (Config.InfluxPemFile config))
             (Config.InfluxPemFile config) (Config.InfluxPemFile tomlConfig))
          (if Config.InfluxAutoCreateDB config then
             if bool_decide (Config.InfluxAutoCreateDB tomlConfig = false) then false
             else Config.InfluxAutoCreateDB config
           else Config.InfluxAutoCreateDB config)
          (pick (bool_decide (Config.InfluxClients config = 0))
             (Config.InfluxClients config) (Config.InfluxClients tomlConfig))
          (pick (bool_decide (Config.InfluxBufferSize config = 0))
             (Config.InfluxBufferSize config) (Config.InfluxBufferSize tomlConfig))
          (turn_on (Config.DirectReads config) (Config.DirectReads tomlConfig))
          (turn_on (Config.ExitAfterDirectReads config)
             (Config.ExitAfterDirectReads tomlConfig)))
    end
  else Some config.

(** [strings.SplitN(s, "?", 2)]: [s] before and after its first question
    mark; [None] when it has none and the result has one element. *)
Fixpoint split_query (s : string) : option (string * string) :=
  match s with
  | EmptyString => None
  | String c s' =>
      if bool_decide (c = ascii_of_nat 63) then Some (EmptyString, s')
      else match split_query s' with
           | Some (host, query) => Some (String c host, query)
           | None => None
           end
  end.

(** [regexp.MustCompile(`ssl=true&?|&ssl=true$`).ReplaceAllString(s, "")],
    written out by hand: the matches are found from left to right and do not
    overlap; at a position the first alternative is tried first, with the
    [&] when there is one, and the second alternative matches only when it
    ends the text.  [skip] counts the characters of the current match that
    are still to be dropped. *)
Fixpoint strip_ssl_from (skip : nat) (s : string) : string :=
  match s with
  | EmptyString => EmptyString
  | String c s' =>
      match skip with
      | S n => strip_ssl_from n s'
      | O =>
          if bool_decide (is_Some (strip_prefix "ssl=true&" s)) then strip_ssl_from 8 s'
          else if bool_decide (is_Some (strip_prefix "ssl=true" s)) then strip_ssl_from 7 s'
          else if bool_decide (s = "&ssl=true") then EmptyString
          else String c (strip_ssl_from 0 s')
      end
  end.

Definition strip_ssl (query : string) : string := strip_ssl_from 0 query.

Definition SetDefaults (config : Config.t) : Config.t :=
  let config := if bool_decide (Config.InfluxUrl config = "")
                then Config.set_InfluxUrl influxUrlDefault config else config in
  let config := if bool_decide (Config.InfluxClients config = 0)
                then Config.set_InfluxClients influxClientsDefault config else config in
  let config := if bool_decide (Config.InfluxBufferSize config = 0)
                then Config.set_InfluxBufferSize influxBufferDefault config else config in
  let config := if bool_decide (Config.MongoUrl config = "")
                then Config.set_MongoUrl mongoUrlDefault config else config in
  let config := if bool_decide (Config.ResumeName config = "")
                then Config.set_ResumeName resumeNameDefault config else config in
  if negb (bool_decide (Config.MongoUrl config = "")) then
    match split_query (Config.MongoUrl config) with
    | Some (host, query) =>
        let qstr := strip_ssl query in
        if negb (bool_decide (qstr = query)) then
          let config :=
            Config.set_MongoDialSettings
              (mkMongoDialSettings (Timeout (Config.MongoDialSettings config)) true)
              config in
          if bool_decide (qstr = "") then Config.set_MongoUrl host config
          else Config.set_MongoUrl (host +:+ "?" +:+ qstr) config
        else config
    | None => config
    end
  else config.

(** [time.Duration(n) * time.Second], in nanoseconds: the product wraps
    around in 64 bits. *)
Definition seconds (n : Z) : Z :=
  (n * 1000000000 + 2 ^ 63) mod 2 ^ 64 - 2 ^ 63.

(** The TLS configuration that [DialMongo] builds: the file whose
    certificates are the root CAs, and whether verification is skipped. *)
Record tlsConfig := mkTlsConfig {
  RootCAs : option string;
  InsecureSkipVerify : bool
}.

(** The call with which [DialMongo] dials.  After a successful
    [DialWithInfo] the function sets the sync and the socket timeout of the
    session to one minute. *)
Inductive Dial :=
| mgo_DialWithInfo (url : string) (timeout : Z) (tls : tlsConfig)
| mgo_DialWithTimeout (url : string) (timeout : Z)
| mgo_Dial (url : string).

(** [DialMongo], up to the dial: the error that stops it before, or the call
    that it makes. *)
Definition DialMongo (S : Startup) (config : Config.t) : error + Dial :=
  let ssl := Ssl (Config.MongoDialSettings config)
             || negb (bool_decide (Config.MongoPemFile config = "")) in
  if ssl then
    match (if negb (bool_decide (Config.MongoPemFile config = "")) then
             match ioutil_ReadFile_err S (Config.MongoPemFile config) with
             | None => inr (Some (Config.MongoPemFile config))
             | Some err => inl err
             end
           else inr None) with
    | inl err => inl err
    | inr rootCAs =>
        let tls := mkTlsConfig rootCAs
                     (if Config.MongoSkipVerify config then true else false) in
        match mgo_ParseURL_err S (Config.MongoUrl config) with
        | Some err => inl err
        | None =>
            let timeout := seconds 10 in
            let timeout :=
              if negb (bool_decide (Timeout (Config.MongoDialSettings config) = -1))
              then seconds (Timeout (Config.MongoDialSettings config))
              else timeout in
            inr (mgo_DialWithInfo (Config.MongoUrl config) timeout tls)
        end
    end
  else if negb (bool_decide (Timeout (Config.MongoDialSettings config) = -1)) then
    inr (mgo_DialWithTimeout (Config.MongoUrl config)
           (seconds (Timeout (Config.MongoDialSettings config))))
  else inr (mgo_Dial (Config.MongoUrl config)).

(** The calls of [ResumeWork] on the context of the upstream reader. *)
Inductive OpCtxCall :=
| CallSince (ts : bson.MongoTimestamp)
| CallResume.

(** [ResumeWork]: the calls it makes on [ctx]; [None] when its type
    assertion panics. *)
Definition ResumeWork (w : World) (config : configOptions) : option (list OpCtxCall) :=
  let doc := FindId_One w Name "resume" (ResumeName config) in
  match index_value doc "ts" with
  | VNil => Some [CallResume]
  | VMongoTimestamp ts => Some [CallSince ts; CallResume]
  | _ => None
  end.

(** The namespaces that [main] hands to the upstream reader for direct
    reads. *)
Definition main_directReadNs (config : Config.t) : list string :=
  if Config.DirectReads config then Namespace <$> Config.Measurement config else [].

(** ** The writer goroutine of [main] *)

(** What the [select] of a writer receives: a shutdown signal, a tick of its
    flusher, an error from the error channel of the upstream reader, or an
    event. *)
Inductive Received :=
| from_shutdownC
| from_flusher
| from_ErrC (err : error)
| from_OpC (op : gtm.Op).

(** The state that a writer works on: its [InfluxCtx], the variable
    [exitStatus] of [main], and the errors that it has sent on the error
    channel of the upstream reader, oldest first. *)
Record Writer := mkWriter {
  influx : InfluxCtx.t;
  exitStatus : Z;
  ErrC_sent : list error
}.

Section Writers.

Variable E : Collaborators.

(** One pass of the loop of a writer, for what its [select] received;
    the boolean says that the goroutine returned.  [None] when the pass
    panics.  A send on the error channel is taken to complete. *)
Definition writer_select (r : Received) (st : Writer) (w : World)
  : option (bool * Writer * World) :=
  match r with
  | from_shutdownC =>
      match writeBatch E (influx st) w with
      | Done (Some err) ctx w =>
          Some (true, mkWriter ctx 1 (ErrC_sent st), record (CallLog (LogError err)) w)
      | Done None ctx w => Some (true, mkWriter ctx (exitStatus st) (ErrC_sent st), w)
      | Panic => None
      end
  | from_flusher =>
      match writeBatch E (influx st) w with
      | Done (Some err) ctx w =>
          Some (false, mkWriter ctx (exitStatus st) (ErrC_sent st ++ [err]), w)
      | Done None ctx w => Some (false, mkWriter ctx (exitStatus st) (ErrC_sent st), w)
      | Panic => None
      end
  | from_ErrC err =>
      Some (false, mkWriter (influx st) 1 (ErrC_sent st),
            record (CallLog (LogError err)) w)
  | from_OpC op =>
      match addPoint E op (influx st) w with
      | Done (Some err) ctx w =>
          Some (false, mkWriter ctx (exitStatus st) (ErrC_sent st ++ [err]), w)
      | Done None ctx w => Some (false, mkWriter ctx (exitStatus st) (ErrC_sent st), w)
      | Panic => None
      end
  end.

(** The loop of a writer, for what its [select] receives in turn; it
    waits when nothing more is received. *)
Fixpoint writer_loop (rs : list Received) (st : Writer) (w : World)
  : option (bool * Writer * World) :=
  match rs with
  | [] => Some (false, st, w)
  | r :: rs =>
      match writer_select r st w with
      | Some (true, st, w) => Some (true, st, w)
      | Some (false, st, w) => writer_loop rs st w
      | None => None
      end
  end.

(** The goroutine of a writer: [None] when [setupMeasurements] fails and the
    goroutine panics, or when its loop panics. *)
Definition main_writer (config : configOptions) (status : Z) (rs : list Received)
    (w : World) : option (bool * Writer * World) :=
  let influx := InfluxCtx.mk ∅ ∅ ∅ config 0 in
  match setupMeasurements influx w with
  | Done None influx w => writer_loop rs (mkWriter influx status []) w
  | _ => None
  end.

End Writers.

(** ** Notions used to state the properties *)

(** A wall-clock time or a replication timestamp: the two dynamic types from
    which [addPoint] takes the time of a point. *)
Definition is_time (v : Value) : bool :=
  match v with
  | VTime _ => true
  | VMongoTimestamp _ => true
  | _ => false
  end.

(** The leaves of the entry [(k, v)] of a document, in the words of the
    specification (section 4.2): each value that is not a sub-document, keyed
    by the path of keys that leads to it, joined by dots. *)
Fixpoint leaves_entry (k : string) (v : Value) {struct v} : list (string * Value) :=
  match v with
  | VOpLogEntry child =>
      (fix go (l : list (string * Value)) : list (string * Value) :=
         match l with
         | [] => []
         | (k', v') :: rest =>
             ((λ '(nk, nv), (k +:+ "." +:+ nk, nv)) <$> leaves_entry k' v') ++ go rest
         end) child
  | _ => [(k, v)]
  end.

Definition leaves (m : gtm.OpLogEntry) : list (string * Value) :=
  m ≫= (λ '(k, v), leaves_entry k v).

(** The entries of the data of an event that [addPoint] looks at: all but
    the document identifier. *)
Definition contributing (data : gtm.OpLogEntry) : gtm.OpLogEntry :=
  filter (λ kv, kv.1 ≠ "_id") data.

(** The event with the document identifier removed from its data. *)
Definition without_id (op : gtm.Op) : gtm.Op :=
  gtm.mkOp (gtm.Operation op) (gtm.Namespace op) (gtm.Database op) (gtm.Collection op)
    (gtm.Timestamp op) (contributing (gtm.Data op)).

(** The time that [addPoint] takes from a value of a time field. *)
Definition time_of (v : Value) : time.Time :=
  match v with
  | VTime tv => time.toUTC tv
  | VMongoTimestamp ts => TimestampTime ts
  | _ => time.zero
  end.

(** The entries from which the loop of [addPoint] takes the time of the
    point: those under the key of the time field that hold a wall-clock time
    or a replication timestamp, the document identifier excepted. *)
Definition picks_time (measure : InfluxMeasure.t) (kv : string * Value) : bool :=
  negb (bool_decide (kv.1 = "_id")) &&
  bool_decide (InfluxMeasure.timefield measure = kv.1) &&
  is_time kv.2.

(** The error of [addPoint] when no time was found. *)
Definition missing_time (measure : InfluxMeasure.t) : error :=
  "time field " +:+ InfluxMeasure.timefield measure +:+ " not found in document".

(** The invariant of the loop of [addPoint] on the tags and fields collected
    so far: each is a key of the tag set or of the field set of the
    measurement, and a leaf of the data other than the document identifier;
    tag values are strings, field values satisfy [isfieldtype]. *)
Definition point_keys_ok (measure : InfluxMeasure.t) (data : gtm.OpLogEntry)
    (tags : gmap string string) (fields : gmap string Value) : Prop :=
  (∀ k s, tags !! k = Some s →
     index_bool (InfluxMeasure.tags measure) k = true ∧ k ≠ "_id" ∧
     (k, VString s) ∈ leaves (contributing data)) ∧
  (∀ k v, fields !! k = Some v →
     index_bool (InfluxMeasure.fields measure) k = true ∧ k ≠ "_id" ∧
     isfieldtype v = true ∧ (k, v) ∈ leaves (contributing data)).

(** What one pass of the loop of [flatmap] does to the output map: every
    new binding is a leaf of the entry that satisfies [isfieldtype], under
    the prefix; every such leaf has its key bound; nothing is removed. *)
Definition entry_flattened (E : Collaborators) (k : string) (v : Value) : Prop :=
  ∀ (prefix : string) (o : gmap string Value),
    (∀ key val, flatmap_entry E prefix o k v !! key = Some val →
       (∃ pk, key = prefix +:+ pk ∧ (pk, val) ∈ leaves_entry k v ∧
              isfieldtype val = true) ∨
       o !! key = Some val) ∧
    (∀ pk val, (pk, val) ∈ leaves_entry k v → isfieldtype val = true →
       is_Some (flatmap_entry E prefix o k v !! (prefix +:+ pk))) ∧
    (∀ key, is_Some (o !! key) → is_Some (flatmap_entry E prefix o k v !! key)).

(** The context in which [addPoint] leaves a point that it has built. *)
Definition with_point (op : gtm.Op) (pt : client.Point) (bp : client.BatchPoints)
    (ctx : InfluxCtx.t) : InfluxCtx.t :=
  InfluxCtx.set_lastTs (gtm.Timestamp op)
    (InfluxCtx.set_m
       (<[gtm.Namespace op := client.AddPoint pt bp]> (InfluxCtx.m ctx)) ctx).

(** The points in the open batch of a namespace, in the order in which they
    were added. *)
Definition open_batch_points (ctx : InfluxCtx.t) (ns : string) : list client.Point :=
  match InfluxCtx.m ctx !! ns with
  | Some bp => client.Points bp
  | None => []
  end.

(** The calls that save a checkpoint. *)
Definition is_save (c : Call) : bool :=
  match c with
  | CallUpsertId _ _ _ _ _ => true
  | _ => false
  end.

(** The writes to the sink that failed. *)
Definition is_failed_write (c : Call) : bool :=
  match c with
  | CallWrite _ (Some _) => true
  | _ => false
  end.

(** The calls of a flush that writes every batch of [bps]. *)
Definition writes_of (bps : list (string * client.BatchPoints)) : list Call :=
  (λ kb, CallWrite kb.2 None) <$> bps.

(** The runtime visits every entry of a map once, in some order. *)
Definition range_ok (E : Collaborators) : Prop :=
  ∀ (A : Type) (mp : gmap string A), range E A mp ≡ₚ map_to_list mp.

(** The number of points in the open batch of a namespace. *)
Definition open_points (ctx : InfluxCtx.t) (ns : string) : nat :=
  match InfluxCtx.m ctx !! ns with
  | Some bp => length (client.Points bp)
  | None => 0%nat
  end.

(** Appending to a fixed prefix is injective. *)
#[local] Instance append_inj (p : string) : Inj (=) (=) (String.append p).
Proof. apply String.app_inj. Qed.

(** [p] occurs in [s]. *)
Definition occurs_in (p s : string) : Prop := ∃ a b, s = a +:+ p +:+ b.

(** The number of points of the batches that the calls hand to the sink,
    and the numbers that the calls log as flushed. *)
Definition points_written (calls : list Call) : Z :=
  foldr (λ c n, match c with
                | CallWrite bp _ => Z.of_nat (length (client.Points bp)) + n
                | _ => n
                end) 0 calls.

Definition flush_logs (calls : list Call) : list Z :=
  omap (λ c, match c with CallLog (PointsFlushed n) => Some n | _ => None end) calls.


(** Every open batch is below the buffer size. *)
Definition below_buffer (ctx : InfluxCtx.t) : Prop :=
  ∀ ns, (Z.of_nat (open_points ctx ns)
         < Z.max 1 (InfluxBufferSize (InfluxCtx.config ctx)))%Z.

(** ** Collaborators and inputs of the examples *)

(** A runtime that ranges over a map in the order of its keys' encoding. *)
Definition range_sorted : ∀ A : Type, gmap string A → list (string * A) :=
  λ A, map_to_list.

(** Collaborators that accept everything; the oplog ends at timestamp 7, and
    a pattern matches the one string that is equal to it. *)
Definition accepting : Collaborators :=
  mkCollaborators range_sorted (λ _ _, None) (λ _ _, (None, None)) (λ _, None)
    (λ _ _ _ _, None) (λ _ _ _ _, None) (λ _, 7)
    (λ p, Some (λ s, bool_decide (s = p))).

(** The same, with a sink that refuses every write. *)
Definition refusing_sink : Collaborators :=
  mkCollaborators range_sorted (λ _ _, Some "timeout") (λ _ _, (None, None))
    (λ _, None) (λ _ _ _ _, None) (λ _ _ _ _, None) (λ _, 7)
    (λ p, Some (λ s, bool_decide (s = p))).


Definition refusing_create : Collaborators :=
  mkCollaborators range_sorted (λ _ _, None) (λ _ _, (Some "forbidden", None))
    (λ _, None) (λ _ _ _ _, None) (λ _ _ _ _, None) (λ _, 7)
    (λ p, Some (λ s, bool_decide (s = p))).

Definition empty_world : World := mkWorld ∅ [].

(** A collection name with a newline in it: [system.a], a newline, [b]. *)
Definition split_name : string :=
  String.append "system.a" (String (ascii_of_nat 10) "b").

(** Scenario S1 of the specification: one measurement on [weather.city]. *)
Definition weather : measureSettings :=
  mkMeasureSettings "weather.city" "" "" "s" "" ["region"] ["temp"].

Definition config_of (mss : list measureSettings) (resume : bool) : configOptions :=
  mkConfigOptions "default" "" "" false resume 0 false mss true 1000.

Definition worker_of (config : configOptions) (lastTs : bson.MongoTimestamp)
  : InfluxCtx.t :=
  InfluxCtx.mk ∅ ∅
    (setupMeasurements_loop (Measurement config) ∅).2 config lastTs.

Definition city_event (ts : bson.MongoTimestamp) (data : gtm.OpLogEntry) : gtm.Op :=
  gtm.mkOp gtm.Insert "weather.city" "weather" "city" ts data.

Definition city_data : gtm.OpLogEntry :=
  [("_id", VString "x"); ("region", VString "NA"); ("temp", VFloat64 4626885667169763328)].


(** The point of scenario S1 for an event with timestamp [ts], the batch
    that holds it, and a worker with this batch open. *)
Definition city_point (ts : bson.MongoTimestamp) : client.Point :=
  client.mkPoint "city" {["region" := "NA"]} {["temp" := VFloat64 4626885667169763328]}
    (TimestampTime ts).

Definition city_batch (ts : bson.MongoTimestamp) : client.BatchPoints :=
  client.mkBatchPoints (client.mkBatchPointsConfig "s" "weather" "") [city_point ts].

Definition city_worker (resume : bool) (ts : bson.MongoTimestamp) : InfluxCtx.t :=
  InfluxCtx.set_dbs {["weather" := true]}
    (InfluxCtx.set_m {["weather.city" := city_batch ts]}
       (worker_of (config_of [weather] resume) ts)).

(** A document with sub-documents, and a leaf that is no field. *)
Definition nested_data : gtm.OpLogEntry :=
  [("meta", VOpLogEntry [("host", VString "h1"); ("ts", VTime (time.Unix 1704067200 0))]);
   ("m", VOpLogEntry [("v", VInt64 3); ("w", VOther "[]interface {}");
                      ("deep", VOpLogEntry [("ok", VBool true)])])].

(** A measurement whose time field is the document identifier, one whose
    time field names a leaf of a sub-document, and events for them. *)
Definition timed_by (timefield : string) : InfluxMeasure.t :=
  newInfluxMeasure
    (mkMeasureSettings "weather.city" timefield "" "s" "" ["region"] ["temp"]).

Definition new_year : time.Time := time.Unix 1704067200 0.

Definition id_time_data : gtm.OpLogEntry :=
  [("_id", VTime new_year); ("region", VString "NA");
   ("temp", VFloat64 4626885667169763328)].

Definition empty_key_data : gtm.OpLogEntry :=
  [("", VTime new_year); ("region", VString "NA");
   ("temp", VFloat64 4626885667169763328)].

Definition weather_again : measureSettings :=
  mkMeasureSettings "weather.city" "" "" "ms" "town" [] ["humidity"].

(** A configuration with a buffer of one point. *)
Definition unbuffered : configOptions :=
  mkConfigOptions "default" "" "" true false 0 false [weather] true 1.

(** Configurations of the examples: what [main] holds after the flags
    [-f configFile -mongo-url mongoUrl], a file that [toml.DecodeFile]
    decodes to [file], and a file with one measurement. *)
Definition flags_of (configFile mongoUrl : string) : Config.t :=
  Config.mk mongoUrl "" false "" "" "" (mkMongoDialSettings (-1) false)
    (mkMongoSessionSettings (-1) (-1)) GtmDefaultSettings "" "" "" false false false
    false 0 false configFile [] "" "" "" false "" true 0 0 false false.

Definition startup_of (file : Config.t) : Startup :=
  mkStartup (λ _ _, Some file) (λ _, None) (λ _, None).

Definition weather_file : Config.t :=
  Config.mk "" "" false "" "" "" (mkMongoDialSettings 5 false)
    (mkMongoSessionSettings (-1) (-1)) GtmDefaultSettings "nightly" "" "" false false
    false false 0 false "" [weather] "http://influx:8086" "" "" false "" true 0 500
    true false.

(** * Properties *)

(** ** Lists and loops *)

Lemma filter_none {A} (P : A → Prop) `{!∀ x, Decision (P x)} (l : list A) :
  (∀ x, x ∈ l → ¬ P x) → filter P l = [].
Proof.
  induction l as [|x l IH]; intros Hnone; [done|].
  rewrite filter_cons, decide_False.
  - apply IH. intros y Hy. apply Hnone. by right.
  - apply Hnone. by left.
Qed.

(** ** Measurement setup *)

Lemma foldl_insert_true_lookup (l : list string) (t0 : gmap string bool) (k : string) :
  foldl (λ t x, <[x := true]> t) t0 l !! k
  = if decide (k ∈ l) then Some true else t0 !! k.
Proof.
  revert t0. induction l as [|x l IH]; intros t0; cbn [foldl].
  - destruct (decide (k ∈ [])) as [Hin|_]; [by apply elem_of_nil in Hin | done].
  - rewrite IH. destruct (decide (k ∈ l)) as [Hin|Hnin].
    + destruct (decide (k ∈ x :: l)) as [_|Hnin]; [done|]. exfalso. apply Hnin. by right.
    + destruct (decide (k = x)) as [->|Hne].
      * rewrite lookup_insert_eq.
        destruct (decide (x ∈ x :: l)) as [_|Hnin']; [done|]. exfalso. apply Hnin'. by left.
      * rewrite lookup_insert_ne by done.
        destruct (decide (k ∈ x :: l)) as [[?|?]%elem_of_cons|_]; done.
Qed.

Lemma foldl_set_tags (l : list string) (im : InfluxMeasure.t) :
  foldl (λ im tag, InfluxMeasure.set_tags (<[tag := true]> (InfluxMeasure.tags im)) im) im l
  = InfluxMeasure.set_tags (foldl (λ t x, <[x := true]> t) (InfluxMeasure.tags im) l) im.
Proof.
  revert im. induction l as [|x l IH]; intros im; simpl.
  - by destruct im.
  - rewrite IH. by destruct im.
Qed.

Lemma foldl_set_fields (l : list string) (im : InfluxMeasure.t) :
  foldl (λ im field,
    InfluxMeasure.set_fields (<[field := true]> (InfluxMeasure.fields im)) im) im l
  = InfluxMeasure.set_fields (foldl (λ t x, <[x := true]> t) (InfluxMeasure.fields im) l) im.
Proof.
  revert im. induction l as [|x l IH]; intros im; simpl.
  - by destruct im.
  - rewrite IH. by destruct im.
Qed.

Lemma newInfluxMeasure_unfold (ms : measureSettings) :
  newInfluxMeasure ms
  = InfluxMeasure.mk (Namespace ms) (Timefield ms) (Retention ms)
      (if decide (Precision ms = "") then "s" else Precision ms) (Measure ms)
      (foldl (λ t x, <[x := true]> t) ∅ (Tags ms))
      (foldl (λ t x, <[x := true]> t) ∅ (Fields ms)).
Proof.
  unfold newInfluxMeasure. rewrite foldl_set_fields, foldl_set_tags. simpl.
  by destruct (decide (Precision ms = "")).
Qed.

(** What [setupMeasurements] registers for one entry of the configuration. *)
Lemma newInfluxMeasure_spec (ms : measureSettings) :
  let im := newInfluxMeasure ms in
  InfluxMeasure.ns im = Namespace ms ∧
  InfluxMeasure.timefield im = Timefield ms ∧
  InfluxMeasure.retention im = Retention ms ∧
  InfluxMeasure.measure im = Measure ms ∧
  InfluxMeasure.precision im = (if decide (Precision ms = "") then "s" else Precision ms) ∧
  (∀ k, index_bool (InfluxMeasure.tags im) k = true ↔ k ∈ Tags ms) ∧
  (∀ k, index_bool (InfluxMeasure.fields im) k = true ↔ k ∈ Fields ms).
Proof.
  intros im. subst im. rewrite newInfluxMeasure_unfold.
  cbn [InfluxMeasure.ns InfluxMeasure.timefield InfluxMeasure.retention
       InfluxMeasure.measure InfluxMeasure.precision InfluxMeasure.tags
       InfluxMeasure.fields].
  do 5 (split; [reflexivity|]).
  split; intros k; unfold index_bool; rewrite foldl_insert_true_lookup;
    destruct (decide (k ∈ _)); rewrite ?lookup_empty; simpl; split; done.
Qed.

Lemma newInfluxMeasure_no_fields (ms : measureSettings) :
  size (InfluxMeasure.fields (newInfluxMeasure ms)) = 0%nat ↔ Fields ms = [].
Proof.
  rewrite map_size_empty_iff.
  destruct (newInfluxMeasure_spec ms) as (_ & _ & _ & _ & _ & _ & Hfields). split.
  - intros Hempty. destruct (Fields ms) as [|f fs] eqn:Hf; [done|].
    assert (index_bool (InfluxMeasure.fields (newInfluxMeasure ms)) f = true) as Hin.
    { apply Hfields. by left. }
    unfold index_bool in Hin. by rewrite Hempty, lookup_empty in Hin.
  - intros Hf. rewrite newInfluxMeasure_unfold. simpl. by rewrite Hf.
Qed.

(** The loop of [setupMeasurements] fails exactly on a measurement without
    fields; when it does not fail, every namespace holds what the last
    measurement configured for it asks for. *)
Lemma setupMeasurements_loop_spec (mss : list measureSettings)
    (measures : gmap string InfluxMeasure.t) :
  let '(err, measures') := setupMeasurements_loop mss measures in
  (err ≠ None ↔ ∃ ms, ms ∈ mss ∧ Fields ms = []) ∧
  (err = None → ∀ ns,
     measures' !! ns =
       match last (filter (λ ms, Namespace ms = ns) mss) with
       | Some ms => Some (newInfluxMeasure ms)
       | None => measures !! ns
       end).
Proof.
  revert measures. induction mss as [|ms rest IH]; intros measures; simpl.
  - split; [|done]. split; [done|]. intros (ms & Hin & _). by apply elem_of_nil in Hin.
  - destruct (decide (size (InfluxMeasure.fields (newInfluxMeasure ms)) = 0%nat))
      as [Hnone|Hsome].
    + split; [|done]. split; [|done]. intros _. exists ms. split; [by left|].
      by apply newInfluxMeasure_no_fields.
    + specialize (IH (<[Namespace ms := newInfluxMeasure ms]> measures)).
      destruct (setupMeasurements_loop rest _) as [err measures'].
      destruct IH as [IHerr IHreg]. split.
      * rewrite IHerr. split.
        -- intros (ms' & Hin & Hf). exists ms'. split; [by right|done].
        -- intros (ms' & [->|Hin]%elem_of_cons & Hf).
           ++ exfalso. apply Hsome. by apply newInfluxMeasure_no_fields.
           ++ by exists ms'.
      * intros Herr ns. rewrite (IHreg Herr ns). rewrite filter_cons.
        destruct (decide (Namespace ms = ns)) as [<-|Hne].
        -- destruct (filter _ rest) as [|ms' l] eqn:Hfilter; simpl.
           ++ by rewrite lookup_insert_eq.
           ++ destruct (last (ms' :: l)) eqn:Hlast; [done|]. by apply last_None in Hlast.
        -- destruct (last (filter _ rest)); [done|]. by rewrite lookup_insert_ne.
Qed.

(** C4, as the code has it: [setupMeasurements] fails exactly when no
    measurement is configured or some measurement has no fields.  Two
    measurements with the same namespace are accepted; when the setup
    succeeds, every namespace is registered with the last measurement
    configured for it, built by [newInfluxMeasure], whose precision is ["s"]
    when the configured one is empty. *)
Theorem setupMeasurements_amended (ctx : InfluxCtx.t) (w : World) :
  let mss := Measurement (InfluxCtx.config ctx) in
  ∃ err ctx',
    setupMeasurements ctx w = Done err ctx' w ∧
    (err ≠ None ↔ mss = [] ∨ ∃ ms, ms ∈ mss ∧ Fields ms = []) ∧
    (err = None →
       (∀ ns, InfluxCtx.measures ctx' !! ns =
                match last (filter (λ ms, Namespace ms = ns) mss) with
                | Some ms => Some (newInfluxMeasure ms)
                | None => InfluxCtx.measures ctx !! ns
                end) ∧
       (NoDup (Namespace <$> mss) →
        ∀ ms, ms ∈ mss →
          InfluxCtx.measures ctx' !! Namespace ms = Some (newInfluxMeasure ms))) ∧
    (∀ ms, InfluxMeasure.precision (newInfluxMeasure ms)
           = if decide (Precision ms = "") then "s" else Precision ms).
Proof.
  intros mss. unfold setupMeasurements. fold mss.
  destruct (decide (0 < length mss)%nat) as [Hlen|Hlen].
  - pose proof (setupMeasurements_loop_spec mss (InfluxCtx.measures ctx)) as Hloop.
    destruct (setupMeasurements_loop mss (InfluxCtx.measures ctx)) as [err measures'].
    destruct Hloop as [Herr Hreg].
    exists err, (InfluxCtx.set_measures measures' ctx). split; [done|]. split; [|split].
    + rewrite Herr. split; [by right|]. intros [Hnil|?]; [|done].
      rewrite Hnil in Hlen. simpl in Hlen. lia.
    + intros Hnone. split; [exact (Hreg Hnone)|].
      intros Hdistinct ms Hin. simpl. rewrite (Hreg Hnone).
      assert (last (filter (λ ms', Namespace ms' = Namespace ms) mss) = Some ms) as ->;
        [|done].
      clear -Hdistinct Hin. induction mss as [|ms' rest IH]; [by apply elem_of_nil in Hin|].
      apply NoDup_cons in Hdistinct as [Hfresh Hdistinct]. rewrite filter_cons.
      apply elem_of_cons in Hin as [->|Hin].
      * rewrite decide_True by done.
        assert (filter (λ ms'0, Namespace ms'0 = Namespace ms') rest = []) as ->; [|done].
        apply filter_none. intros x Hx Heq. apply Hfresh.
        rewrite <- Heq. by apply list_elem_of_fmap_2.
      * rewrite decide_False.
        -- by apply IH.
        -- intros Heq. apply Hfresh. rewrite Heq. by apply list_elem_of_fmap_2.
    + intros ms. by destruct (newInfluxMeasure_spec ms) as (_ & _ & _ & _ & ? & _).
  - exists (Some "at least one measurement is required"), ctx.
    split; [done|]. split; [|split].
    + split; [|done]. intros _. left. destruct mss; [done|]. simpl in Hlen. lia.
    + done.
    + intros ms. by destruct (newInfluxMeasure_spec ms) as (_ & _ & _ & _ & ? & _).
Qed.

(** C4 fails on the code: two measurements that share the namespace
    [weather.city] are accepted, and the second replaces the first. *)
Lemma setupMeasurements_shared_namespace :
  Namespace weather = Namespace weather_again ∧
  match setupMeasurements
          (InfluxCtx.mk ∅ ∅ ∅ (config_of [weather; weather_again] false) 0)
          empty_world with
  | Done err ctx' _ =>
      err = None ∧
      InfluxCtx.measures ctx' !! "weather.city" = Some (newInfluxMeasure weather_again)
  | Panic => False
  end.
Proof. split; [reflexivity|]. vm_compute. split; reflexivity. Qed.

(** ** Start position *)

Lemma start_timestamp_saved (E : Collaborators) (config : configOptions) (w : World)
    (doc : gmap string Value) (ts : bson.MongoTimestamp) :
  Replay config = false → Resume config = true → ResumeFromTimestamp config = 0 →
  store w !! (Name, "resume", ResumeName config) = Some doc →
  doc !! "ts" = Some (VMongoTimestamp ts) →
  start_timestamp E config w = Some ts.
Proof.
  unfold start_timestamp, main_after. intros -> -> -> Hdoc Hts. simpl.
  unfold FindId_One, index_value. rewrite Hdoc. simpl. by rewrite Hts.
Qed.

(** C3, as the code has it: the start timestamp is 0 under replay;
    otherwise, when resume is enabled, it is the explicit resume-from
    timestamp when that is not 0, else the checkpoint saved under the resume
    name, and the current tail of the oplog when no checkpoint is saved; when
    resume is disabled it is the current tail, whatever the resume-from
    timestamp. *)
Theorem start_timestamp_amended (E : Collaborators) (config : configOptions) (w : World) :
  let tail := gtm_LastOpTimestamp E w in
  let saved := store w !! (Name, "resume", ResumeName config) in
  (Replay config = true → start_timestamp E config w = Some 0) ∧
  (Replay config = false → Resume config = true → ResumeFromTimestamp config ≠ 0 →
     start_timestamp E config w = Some (ResumeFromTimestamp config)) ∧
  (Replay config = false → Resume config = true → ResumeFromTimestamp config = 0 →
     ∀ doc ts, saved = Some doc → doc !! "ts" = Some (VMongoTimestamp ts) →
       start_timestamp E config w = Some ts) ∧
  (Replay config = false → Resume config = true → ResumeFromTimestamp config = 0 →
     saved = None → start_timestamp E config w = Some tail) ∧
  (Replay config = false → Resume config = false →
     start_timestamp E config w = Some tail).
Proof.
  intros tail saved. subst tail saved. unfold start_timestamp, main_after.
  repeat split.
  - intros ->. by destruct (Resume config).
  - intros -> -> Hfrom. by rewrite bool_decide_eq_false_2.
  - intros Hreplay Hresume Hfrom doc ts Hdoc Hts.
    by apply (start_timestamp_saved E config w doc).
  - intros -> -> -> Hnone. simpl.
    unfold FindId_One, index_value. rewrite Hnone. simpl. by rewrite lookup_empty.
  - by intros -> ->.
Qed.

(** C3 fails on the code, twice.  With resume disabled, an explicit
    resume-from timestamp of 42 is ignored and the reader starts at the tail
    (7 here); with resume enabled and no checkpoint saved, the reader starts
    at the tail and not at 0. *)
Lemma start_timestamp_counterexample :
  start_timestamp accepting
    (mkConfigOptions "default" "" "" false false 42 false [weather] true 1000)
    empty_world = Some 7 ∧
  store empty_world !! (Name, "resume", "default") = None ∧
  start_timestamp accepting
    (mkConfigOptions "default" "" "" false true 0 false [weather] true 1000)
    empty_world = Some 7.
Proof. repeat split. Qed.

(** ** Filter chain *)

Lemma search_spec (at_start : string → bool) (s : string) :
  search at_start s = true ↔ ∃ p r, s = p +:+ r ∧ at_start r = true.
Proof.
  induction s as [|a s IH]; simpl.
  - rewrite orb_false_r. split.
    + intros H. by exists "", "".
    + intros (p & r & Heq & H). destruct p; [|done]. simpl in Heq. by rewrite Heq.
  - rewrite orb_true_iff, IH. split.
    + intros [H|(p & r & -> & H)].
      * by exists "", (String a s).
      * by exists (String a p), r.
    + intros (p & r & Heq & H). destruct p as [|b p]; simpl in Heq.
      * left. by rewrite Heq.
      * right. injection Heq as -> ->. by exists p, r.
Qed.

Lemma strip_prefix_spec (p s r : string) :
  strip_prefix p s = Some r ↔ s = p +:+ r.
Proof.
  revert s. induction p as [|a p IH]; intros s; simpl.
  - split; [by intros [= ->] | by intros ->].
  - destruct s as [|b s]; [done|]. destruct (decide (a = b)) as [->|Hne].
    + rewrite IH. split; [by intros -> | by intros [= ->]].
    + split; [done|]. intros [= -> _]. done.
Qed.

Lemma any_plus_end_spec (s : string) :
  any_plus_end s = true ↔ s ≠ "" ∧ ¬ In (ascii_of_nat 10) (list_ascii_of_string s).
Proof.
  induction s as [|c s IH]; [by split; [|intros [? _]]|].
  cbn [any_plus_end list_ascii_of_string In].
  rewrite andb_true_iff, negb_true_iff, bool_decide_eq_false.
  destruct s as [|c' s'].
  - split.
    + intros [Hc _]. split; [done|]. intros [H|[]]. by apply Hc.
    + intros [_ Hc]. split; [|done]. intros ->. apply Hc. by left.
  - rewrite IH. split.
    + intros [Hc [_ Hs]]. split; [done|]. intros [H|H]; [by apply Hc | by apply Hs].
    + intros [_ Hc]. split; [intros ->; apply Hc; by left|].
      split; [done|]. intros H. apply Hc. by right.
Qed.

(** The pattern [\.chunks$] matches the strings that end in [.chunks]. *)
Lemma chunksRegex_spec (s : string) :
  chunksRegex s = true ↔ ∃ p, s = p +:+ ".chunks".
Proof.
  unfold chunksRegex. rewrite search_spec. split.
  - intros (p & r & -> & Hr). apply bool_decide_eq_true in Hr as ->. by exists p.
  - intros (p & ->). exists p, ".chunks". split; [done|]. by apply bool_decide_eq_true.
Qed.

(** X2: the pattern [system\..+$] matches the strings in which [system.] is
    followed by one character or more, none of them a newline. *)
Lemma systemsRegex_spec (s : string) :
  systemsRegex s = true ↔
  ∃ p rest, s = p +:+ "system." +:+ rest ∧ rest ≠ "" ∧
            ¬ In (ascii_of_nat 10) (list_ascii_of_string rest).
Proof.
  unfold systemsRegex. rewrite search_spec. split.
  - intros (p & r & -> & Hr).
    destruct (strip_prefix "system." r) as [rest|] eqn:Hstrip; [|done].
    apply strip_prefix_spec in Hstrip as ->. apply any_plus_end_spec in Hr as [? ?].
    by exists p, rest.
  - intros (p & rest & -> & Hne & Hnl). exists p, ("system." +:+ rest). split; [done|].
    assert (strip_prefix "system." ("system." +:+ rest) = Some rest) as ->
      by by apply strip_prefix_spec.
    by apply any_plus_end_spec.
Qed.

(** [NotSystem] lets a collection through exactly when no [system.] in its
    name is followed, up to the end of the name, by one character or more
    that are all other than the newline. *)
Lemma systemsRegex_unmatched (s : string) :
  systemsRegex s = false ↔
  ¬ ∃ p rest, s = p +:+ "system." +:+ rest ∧ rest ≠ "" ∧
              ¬ In (ascii_of_nat 10) (list_ascii_of_string rest).
Proof.
  rewrite <- not_true_iff_false. unfold systemsRegex. rewrite search_spec. split.
  - intros Hno (p & rest & -> & Hne & Hnl). apply Hno.
    exists p, ("system." +:+ rest). split; [done|].
    assert (strip_prefix "system." ("system." +:+ rest) = Some rest) as ->
      by by apply strip_prefix_spec.
    by apply any_plus_end_spec.
  - intros Hno (p & r & -> & Hr). apply Hno.
    destruct (strip_prefix "system." r) as [rest|] eqn:Hstrip; [|done].
    apply strip_prefix_spec in Hstrip as ->. apply any_plus_end_spec in Hr as [? ?].
    by exists p, rest.
Qed.

Lemma SaveTimestamp_spec (E : Collaborators) (w : World) (ts : bson.MongoTimestamp)
    (resumeName : string) :
  ∃ err w',
    SaveTimestamp E w ts resumeName = (err, w') ∧
    err = UpsertId_err E w Name "resume" resumeName ∧
    trace w' = trace w ++ [CallUpsertId Name "resume" resumeName ts err] ∧
    (err = None →
       ∃ doc, store w' !! (Name, "resume", resumeName) = Some doc ∧
              doc !! "ts" = Some (VMongoTimestamp ts)) ∧
    (err ≠ None → store w' = store w).
Proof.
  unfold SaveTimestamp. cbv zeta.
  destruct (UpsertId_err E w Name "resume" resumeName) as [e|] eqn:Herr.
  - eexists _, _. split; [reflexivity|]. repeat split; try done.
  - eexists _, _. split; [reflexivity|]. repeat split; try done.
    intros _. unfold upsert_set. eexists. cbn [store]. rewrite lookup_insert_eq.
    split; [done|]. apply lookup_union_Some_l, lookup_singleton_eq.
Qed.

Lemma base_filters_spec (op : gtm.Op) :
  forallb (λ f : gtm.OpFilter, f op)
    [NotMongoFlux; IsInsertOrUpdate; NotSystem; NotChunks] = true ↔
  (gtm.Operation op = gtm.Insert ∨ gtm.Operation op = gtm.Update) ∧
  gtm.Database op ≠ Name ∧
  (¬ ∃ p, gtm.Collection op = p +:+ ".chunks") ∧
  systemsRegex (gtm.Collection op) = false.
Proof.
  cbn [forallb]. rewrite andb_true_r, !andb_true_iff.
  unfold NotMongoFlux, IsInsertOrUpdate, NotSystem, NotChunks,
    gtm.IsInsert, gtm.IsUpdate, gtm.GetDatabase, gtm.GetCollection.
  rewrite !negb_true_iff, bool_decide_eq_false, orb_true_iff.
  rewrite <- (not_true_iff_false (chunksRegex _)), chunksRegex_spec.
  split.
  - intros (Hdb & Hop & Hsys & Hchunks). repeat split; try done.
    destruct (gtm.Operation op); destruct Hop; auto; discriminate.
  - intros (Hop & Hdb & Hchunks & Hsys). repeat split; try done.
    destruct Hop as [-> | ->]; auto.
Qed.

(** The filter of [main] is the chain of the four fixed filters and of the
    filters of the configured patterns. *)
Lemma main_filter_chain (E : Collaborators) (config : configOptions)
    (filter : gtm.OpFilter) :
  main_filter E config = Some filter →
  ∃ inc exc : list gtm.OpFilter,
    filter = gtm.ChainOpFilters
               ([NotMongoFlux; IsInsertOrUpdate; NotSystem; NotChunks] ++ inc ++ exc) ∧
    (NsRegex config = "" ∧ inc = [] ∨
     NsRegex config ≠ "" ∧
     ∃ re, regexp_MustCompile E (NsRegex config) = Some re ∧
           inc = [λ op, re (gtm.Namespace op)]) ∧
    (NsExcludeRegex config = "" ∧ exc = [] ∨
     NsExcludeRegex config ≠ "" ∧
     ∃ re, regexp_MustCompile E (NsExcludeRegex config) = Some re ∧
           exc = [λ op, negb (re (gtm.Namespace op))]).
Proof.
  unfold main_filter, FilterWithRegex, FilterInverseWithRegex. intros Hfilter.
  destruct (decide (NsRegex config = "")) as [Hin|Hin].
  - rewrite bool_decide_eq_true_2 in Hfilter by done. cbn [negb] in Hfilter.
    destruct (decide (NsExcludeRegex config = "")) as [Hex|Hex].
    + rewrite bool_decide_eq_true_2 in Hfilter by done. cbn [negb] in Hfilter.
      injection Hfilter as <-. exists [], []. split; [done|]. split; by left.
    + rewrite bool_decide_eq_false_2 in Hfilter by done. cbn [negb] in Hfilter.
      destruct (regexp_MustCompile E (NsExcludeRegex config)) as [re|] eqn:Hre; [|done].
      injection Hfilter as <-. exists [], [λ op, negb (re (gtm.Namespace op))].
      split; [done|]. split; [by left|]. right. split; [done|]. by exists re.
  - rewrite bool_decide_eq_false_2 in Hfilter by done. cbn [negb] in Hfilter.
    destruct (regexp_MustCompile E (NsRegex config)) as [re_in|] eqn:Hre_in; [|done].
    destruct (decide (NsExcludeRegex config = "")) as [Hex|Hex].
    + rewrite bool_decide_eq_true_2 in Hfilter by done. cbn [negb] in Hfilter.
      injection Hfilter as <-. exists [λ op, re_in (gtm.Namespace op)], [].
      split; [done|]. split; [|by left]. right. split; [done|]. by exists re_in.
    + rewrite bool_decide_eq_false_2 in Hfilter by done. cbn [negb] in Hfilter.
      destruct (regexp_MustCompile E (NsExcludeRegex config)) as [re|] eqn:Hre; [|done].
      injection Hfilter as <-.
      exists [λ op, re_in (gtm.Namespace op)], [λ op, negb (re (gtm.Namespace op))].
      split; [done|]. split; right; (split; [done|]); by eexists.
Qed.

(** C6, as the code has it: the filter that [main] builds admits an event
    exactly when it is an insert or an update, its database is not [Name],
    its collection does not end in [.chunks], no [system.] in its collection
    is followed, up to the end of the collection, by one character or more
    that are all other than the newline (the pattern [system\..+$]), its
    namespace matches the include pattern when one is configured, and does
    not match the exclude pattern when one is configured.  [Name] is also the
    database under which [SaveTimestamp] saves the checkpoint and from which
    the start position is loaded. *)
Theorem main_filter_admits (E : Collaborators) (config : configOptions)
    (filter : gtm.OpFilter) (op : gtm.Op) :
  main_filter E config = Some filter →
  (filter op = true ↔
     (gtm.Operation op = gtm.Insert ∨ gtm.Operation op = gtm.Update) ∧
     gtm.Database op ≠ Name ∧
     (¬ ∃ p, gtm.Collection op = p +:+ ".chunks") ∧
     (¬ ∃ p rest, gtm.Collection op = p +:+ "system." +:+ rest ∧ rest ≠ "" ∧
                  ¬ In (ascii_of_nat 10) (list_ascii_of_string rest)) ∧
     (NsRegex config ≠ "" →
        ∃ re, regexp_MustCompile E (NsRegex config) = Some re ∧
              re (gtm.Namespace op) = true) ∧
     (NsExcludeRegex config ≠ "" →
        ∃ re, regexp_MustCompile E (NsExcludeRegex config) = Some re ∧
              re (gtm.Namespace op) = false)) ∧
  (gtm.Database op = Name → filter op = false) ∧
  (∀ w ts resumeName, ∃ err w',
     SaveTimestamp E w ts resumeName = (err, w') ∧
     trace w' = trace w ++ [CallUpsertId Name "resume" resumeName ts err]) ∧
  (∀ w ts,
     Resume config = true → Replay config = false → ResumeFromTimestamp config = 0 →
     (SaveTimestamp E w ts (ResumeName config)).1 = None →
     start_timestamp E config (SaveTimestamp E w ts (ResumeName config)).2 = Some ts).
Proof.
  intros Hfilter.
  destruct (main_filter_chain E config filter Hfilter) as (inc & exc & -> & Hinc & Hexc).
  assert (gtm.ChainOpFilters
            ([NotMongoFlux; IsInsertOrUpdate; NotSystem; NotChunks] ++ inc ++ exc) op = true ↔
     (gtm.Operation op = gtm.Insert ∨ gtm.Operation op = gtm.Update) ∧
     gtm.Database op ≠ Name ∧
     (¬ ∃ p, gtm.Collection op = p +:+ ".chunks") ∧
     (¬ ∃ p rest, gtm.Collection op = p +:+ "system." +:+ rest ∧ rest ≠ "" ∧
                  ¬ In (ascii_of_nat 10) (list_ascii_of_string rest)) ∧
     (NsRegex config ≠ "" →
        ∃ re, regexp_MustCompile E (NsRegex config) = Some re ∧
              re (gtm.Namespace op) = true) ∧
     (NsExcludeRegex config ≠ "" →
        ∃ re, regexp_MustCompile E (NsExcludeRegex config) = Some re ∧
              re (gtm.Namespace op) = false)) as Hiff.
  { unfold gtm.ChainOpFilters. rewrite !forallb_app, !andb_true_iff, base_filters_spec.
    rewrite systemsRegex_unmatched.
    assert (forallb (λ f : gtm.OpFilter, f op) inc = true ↔
            (NsRegex config ≠ "" →
             ∃ re, regexp_MustCompile E (NsRegex config) = Some re ∧
                   re (gtm.Namespace op) = true)) as ->.
    { destruct Hinc as [[Hnone ->]|[Hsome (re & Hre & ->)]]; cbn [forallb].
      - split; [by intros _ ?|done].
      - rewrite andb_true_r. split.
        + intros Hmatch _. by exists re.
        + intros Hmatch. destruct (Hmatch Hsome) as (re' & Hre' & ?). congruence. }
    assert (forallb (λ f : gtm.OpFilter, f op) exc = true ↔
            (NsExcludeRegex config ≠ "" →
             ∃ re, regexp_MustCompile E (NsExcludeRegex config) = Some re ∧
                   re (gtm.Namespace op) = false)) as ->.
    { destruct Hexc as [[Hnone ->]|[Hsome (re & Hre & ->)]]; cbn [forallb].
      - split; [by intros _ ?|done].
      - rewrite andb_true_r, negb_true_iff. split.
        + intros Hmatch _. by exists re.
        + intros Hmatch. destruct (Hmatch Hsome) as (re' & Hre' & ?). congruence. }
    tauto. }
  split; [exact Hiff|]. split; [|split].
  - intros Hdb. apply not_true_iff_false. rewrite Hiff. tauto.
  - intros w ts resumeName.
    destruct (SaveTimestamp_spec E w ts resumeName) as (err & w' & Hsave & _ & Htrace & _).
    by exists err, w'.
  - intros w ts Hresume Hreplay Hfrom Hok.
    destruct (SaveTimestamp_spec E w ts (ResumeName config))
      as (err & w' & Hsave & _ & _ & Hstore & _).
    rewrite Hsave in *. cbn [fst snd] in *.
    destruct (Hstore Hok) as (doc & Hdoc & Hts).
    by apply (start_timestamp_saved E config w' doc).
Qed.

(** ** Flush *)

Lemma writeBatch_loop_spec (E : Collaborators)
    (bps : list (string * client.BatchPoints)) (points : Z) (w : World) :
  ∃ points' err w',
    writeBatch_loop E bps points w = (points', err, w') ∧
    store w' = store w ∧
    match err with
    | None => trace w' = trace w ++ writes_of bps
    | Some e =>
        ∃ pre k bp post,
          bps = pre ++ (k, bp) :: post ∧
          trace w' = trace w ++ writes_of pre ++ [CallWrite bp (Some e)]
    end.
Proof.
  revert points w. induction bps as [|[k bp] rest IH]; intros points w.
  - exists points, None, w. split; [done|]. split; [done|].
    unfold writes_of. simpl. by rewrite app_nil_r.
  - cbn [writeBatch_loop]. destruct (client_Write E w bp) as [e|] eqn:Hwrite.
    + eexists _, (Some e), _. split; [done|]. split; [done|].
      exists [], k, bp, rest. by split.
    + destruct (IH (points + Z.of_nat (length (client.Points bp)))
                  (record (CallWrite bp None) w)) as (points' & err & w' & -> & Hstore & Hcalls).
      exists points', err, w'. split; [done|]. split; [done|].
      destruct err as [e|].
      * destruct Hcalls as (pre & k' & bp' & post & -> & ->).
        exists ((k, bp) :: pre), k', bp', post. split; [done|].
        unfold record, writes_of. simpl. by rewrite <- !app_assoc.
      * rewrite Hcalls. unfold record, writes_of. simpl. by rewrite <- !app_assoc.
Qed.

Lemma saveTs_spec (E : Collaborators) (ctx : InfluxCtx.t) (w : World) :
  ∃ a ctx' w' calls,
    saveTs E ctx w = Done a ctx' w' ∧
    trace w' = trace w ++ calls ∧
    InfluxCtx.m ctx' = InfluxCtx.m ctx ∧
    if Resume (InfluxCtx.config ctx) && negb (bool_decide (InfluxCtx.lastTs ctx = 0))
    then calls = [CallUpsertId Name "resume" (ResumeName (InfluxCtx.config ctx))
                    (InfluxCtx.lastTs ctx) a] ∧
         InfluxCtx.lastTs ctx' = 0 ∧
         (a = None →
            ∃ doc, store w' !! (Name, "resume", ResumeName (InfluxCtx.config ctx)) = Some doc ∧
                   doc !! "ts" = Some (VMongoTimestamp (InfluxCtx.lastTs ctx)))
    else calls = [] ∧ a = None ∧ ctx' = ctx ∧ w' = w.
Proof.
  unfold saveTs.
  destruct (Resume (InfluxCtx.config ctx) && negb (bool_decide (InfluxCtx.lastTs ctx = 0))).
  - destruct (SaveTimestamp_spec E w (InfluxCtx.lastTs ctx)
                (ResumeName (InfluxCtx.config ctx)))
      as (err & w' & -> & _ & Htrace & Hstore & _).
    by exists err, (InfluxCtx.set_lastTs 0 ctx), w', [CallUpsertId Name "resume"
      (ResumeName (InfluxCtx.config ctx)) (InfluxCtx.lastTs ctx) err].
  - exists None, ctx, w, []. by rewrite app_nil_r.
Qed.

(** The two ways of a flush: a write fails and the flush returns its error,
    or every batch is written and the flush goes on to [saveTs].  In both the
    map of open batches is replaced by an empty one. *)
Lemma writeBatch_cases (E : Collaborators) (ctx : InfluxCtx.t) (w : World) :
  ∃ logs,
    (logs = [] ∨ ∃ n, logs = [CallLog (PointsFlushed n)]) ∧
    ((∃ pre k bp post e,
        range E _ (InfluxCtx.m ctx) = pre ++ (k, bp) :: post ∧
        writeBatch E ctx w
        = Done (Some e) (InfluxCtx.set_m ∅ ctx)
            (mkWorld (store w)
               (trace w ++ writes_of pre ++ [CallWrite bp (Some e)] ++ logs))) ∨
     writeBatch E ctx w
     = saveTs E (InfluxCtx.set_m ∅ ctx)
         (mkWorld (store w)
            (trace w ++ writes_of (range E _ (InfluxCtx.m ctx)) ++ logs))).
Proof.
  unfold writeBatch.
  destruct (writeBatch_loop_spec E (range E _ (InfluxCtx.m ctx)) 0 w)
    as (points & err & w1 & -> & Hstore & Hcalls).
  exists (if Verbose (InfluxCtx.config ctx) then
            if bool_decide (0 < points)%Z then [CallLog (PointsFlushed points)] else []
          else []).
  split.
  { destruct (Verbose _); [|by left]. destruct (bool_decide _); [right; by eexists | by left]. }
  assert ((if Verbose (InfluxCtx.config ctx) then
             if bool_decide (0 < points)%Z then record (CallLog (PointsFlushed points)) w1
             else w1
           else w1)
          = mkWorld (store w1)
              (trace w1 ++ (if Verbose (InfluxCtx.config ctx) then
                              if bool_decide (0 < points)%Z
                              then [CallLog (PointsFlushed points)] else []
                            else []))) as ->.
  { destruct (Verbose _); [destruct (bool_decide _)|]; unfold record;
      rewrite ?app_nil_r; by destruct w1. }
  rewrite Hstore. destruct err as [e|].
  - left. destruct Hcalls as (pre & k & bp & post & Hrange & ->).
    exists pre, k, bp, post, e. split; [done|]. by rewrite <- !app_assoc.
  - right. rewrite Hcalls. by rewrite <- !app_assoc.
Qed.

Lemma writes_of_elem (bps : list (string * client.BatchPoints)) (c : Call) :
  c ∈ writes_of bps → ∃ k bp, (k, bp) ∈ bps ∧ c = CallWrite bp None.
Proof.
  unfold writes_of. intros ([k bp] & -> & Hin)%list_elem_of_fmap. by exists k, bp.
Qed.

Lemma writeBatch_empties (E : Collaborators) (ctx ctx' : InfluxCtx.t) (w w' : World)
    (a : option error) :
  writeBatch E ctx w = Done a ctx' w' → InfluxCtx.m ctx' = ∅.
Proof.
  destruct (writeBatch_cases E ctx w) as (logs & _ & [(pre & k & bp & post & e & _ & ->)| ->]).
  - by intros [= _ <- _].
  - destruct (saveTs_spec E (InfluxCtx.set_m ∅ ctx)
                (mkWorld (store w) (trace w ++ writes_of (range E _ (InfluxCtx.m ctx)) ++ logs)))
      as (a' & ctx'' & w'' & calls & -> & _ & Hm & _).
    by intros [= _ <- _].
Qed.

(** C1, as the code has it: when a write to the sink fails during a flush,
    the flush makes no further write and saves no checkpoint, and it returns
    the error of that write; the map of open batches is replaced by an empty
    map all the same, so that the batches that were not written are dropped
    and not retried. *)
Theorem writeBatch_write_error (E : Collaborators) (ctx : InfluxCtx.t) (w : World) :
  ∃ a ctx' w' calls,
    writeBatch E ctx w = Done a ctx' w' ∧
    trace w' = trace w ++ calls ∧
    ∀ bp e, CallWrite bp (Some e) ∈ calls →
      a = Some e ∧
      (∃ pre k post logs,
         range E _ (InfluxCtx.m ctx) = pre ++ (k, bp) :: post ∧
         calls = writes_of pre ++ [CallWrite bp (Some e)] ++ logs ∧
         (logs = [] ∨ ∃ n, logs = [CallLog (PointsFlushed n)])) ∧
      InfluxCtx.m ctx' = ∅ ∧
      InfluxCtx.lastTs ctx' = InfluxCtx.lastTs ctx ∧
      store w' = store w.
Proof.
  destruct (writeBatch_cases E ctx w)
    as (logs & Hlogs & [(pre & k & bp & post & e & Hrange & ->)| ->]).
  - eexists _, _, _, (writes_of pre ++ [CallWrite bp (Some e)] ++ logs).
    split; [done|]. split; [done|]. intros bp' e' Hin.
    assert (bp' = bp ∧ e' = e) as [-> ->].
    { rewrite !elem_of_app in Hin. destruct Hin as [Hin|[Hin|Hin]].
      - apply writes_of_elem in Hin as (? & ? & _ & [=]).
      - apply list_elem_of_singleton in Hin. by injection Hin as -> ->.
      - destruct Hlogs as [->|[n ->]]; [by apply elem_of_nil in Hin|].
        by apply list_elem_of_singleton in Hin. }
    split; [done|]. split; [|done]. by exists pre, k, post, logs.
  - destruct (saveTs_spec E (InfluxCtx.set_m ∅ ctx)
                (mkWorld (store w) (trace w ++ writes_of (range E _ (InfluxCtx.m ctx)) ++ logs)))
      as (a & ctx' & w' & calls & -> & Htrace & Hm & Hsave).
    exists a, ctx', w', (writes_of (range E _ (InfluxCtx.m ctx)) ++ logs ++ calls).
    split; [done|]. split; [by rewrite Htrace; cbn [trace]; rewrite <- !app_assoc|].
    intros bp e Hin. exfalso.
    rewrite !elem_of_app in Hin. destruct Hin as [Hin|[Hin|Hin]].
    + apply writes_of_elem in Hin as (? & ? & _ & [=]).
    + destruct Hlogs as [->|[n ->]]; [by apply elem_of_nil in Hin|].
      by apply list_elem_of_singleton in Hin.
    + destruct (Resume _ && _).
      * destruct Hsave as (-> & _). by apply list_elem_of_singleton in Hin.
      * destruct Hsave as (-> & _). by apply elem_of_nil in Hin.
Qed.

(** C1 fails on the code: a worker holds one open batch and the sink refuses
    the write; the flush returns the error, and the batch is no longer in the
    map; the next flush, to a sink that accepts everything, writes nothing. *)
Lemma writeBatch_drops_unwritten :
  InfluxCtx.m (city_worker false 22) !! "weather.city" = Some (city_batch 22) ∧
  match writeBatch refusing_sink (city_worker false 22) empty_world with
  | Done a ctx' w' =>
      a = Some "timeout" ∧
      trace w' = [CallWrite (city_batch 22) (Some "timeout")] ∧
      InfluxCtx.m ctx' !! "weather.city" = None ∧
      match writeBatch accepting ctx' w' with
      | Done a'' ctx'' w'' => a'' = None ∧ trace w'' = trace w'
      | Panic => False
      end
  | Panic => False
  end.
Proof. vm_compute. repeat split. Qed.

Lemma not_save_writes (bps : list (string * client.BatchPoints)) :
  filter (λ c, is_save c = true) (writes_of bps) = [].
Proof. apply filter_none. by intros c (k & bp & _ & ->)%writes_of_elem. Qed.

Lemma not_save_logs (logs : list Call) :
  logs = [] ∨ (∃ n, logs = [CallLog (PointsFlushed n)]) →
  filter (λ c, is_save c = true) logs = [].
Proof. by intros [->|[n ->]]. Qed.

(** C2: a flush saves a checkpoint only when no write failed, and then every
    open batch was written; when no write failed, resume is enabled and the
    tracked timestamp is not 0, the flush saves that timestamp under the
    resume name in the collection [resume] of the database [Name], once, and
    sets the tracked timestamp to 0, and otherwise it saves nothing; when a
    write failed, the flush saves nothing and leaves the tracked timestamp and
    the checkpoint store as they were. *)
Theorem writeBatch_checkpoint (E : Collaborators) (ctx : InfluxCtx.t) (w : World) :
  range_ok E →
  ∃ a ctx' w' calls,
    writeBatch E ctx w = Done a ctx' w' ∧
    trace w' = trace w ++ calls ∧
    let saves := filter (λ c, is_save c = true) calls in
    let all_written :=
      ∀ k bp, InfluxCtx.m ctx !! k = Some bp → CallWrite bp None ∈ calls in
    let none_failed := ∀ c, c ∈ calls → is_failed_write c = false in
    (saves ≠ [] → none_failed ∧ all_written) ∧
    (none_failed →
       all_written ∧
       if Resume (InfluxCtx.config ctx) && negb (bool_decide (InfluxCtx.lastTs ctx = 0))
       then saves = [CallUpsertId Name "resume" (ResumeName (InfluxCtx.config ctx))
                       (InfluxCtx.lastTs ctx) a] ∧
            InfluxCtx.lastTs ctx' = 0 ∧
            (a = None →
               ∃ doc,
                 store w' !! (Name, "resume", ResumeName (InfluxCtx.config ctx)) = Some doc ∧
                 doc !! "ts" = Some (VMongoTimestamp (InfluxCtx.lastTs ctx)))
       else saves = [] ∧ a = None ∧ InfluxCtx.lastTs ctx' = InfluxCtx.lastTs ctx ∧
            store w' = store w) ∧
    ((∃ c, c ∈ calls ∧ is_failed_write c = true) →
       saves = [] ∧ InfluxCtx.lastTs ctx' = InfluxCtx.lastTs ctx ∧ store w' = store w).
Proof.
  intros Hrange.
  destruct (writeBatch_cases E ctx w)
    as (logs & Hlogs & [(pre & k & bp & post & e & Hpre & ->)| ->]).
  - eexists _, _, _, (writes_of pre ++ [CallWrite bp (Some e)] ++ logs).
    split; [done|]. split; [done|]. cbv zeta.
    assert (filter (λ c, is_save c = true)
              (writes_of pre ++ [CallWrite bp (Some e)] ++ logs) = []) as Hsaves.
    { rewrite !filter_app, not_save_writes. rewrite (not_save_logs logs Hlogs).
      rewrite filter_cons, decide_False by done. done. }
    assert (CallWrite bp (Some e) ∈ writes_of pre ++ [CallWrite bp (Some e)] ++ logs)
      as Hfailed.
    { rewrite !elem_of_app. right. left. by apply list_elem_of_singleton. }
    split; [by rewrite Hsaves|]. split; [|done].
    intros Hnone. by specialize (Hnone _ Hfailed).
  - destruct (saveTs_spec E (InfluxCtx.set_m ∅ ctx)
                (mkWorld (store w) (trace w ++ writes_of (range E _ (InfluxCtx.m ctx)) ++ logs)))
      as (a & ctx' & w' & calls & -> & Htrace & Hm & Hsave).
    exists a, ctx', w', (writes_of (range E _ (InfluxCtx.m ctx)) ++ logs ++ calls).
    split; [done|]. split; [by rewrite Htrace; cbn [trace]; rewrite <- !app_assoc|].
    cbv zeta. cbn [InfluxCtx.config InfluxCtx.lastTs InfluxCtx.set_m] in Hsave.
    assert (∀ k bp, InfluxCtx.m ctx !! k = Some bp →
              CallWrite bp None ∈ writes_of (range E _ (InfluxCtx.m ctx)) ++ logs ++ calls)
      as Hall.
    { intros k bp Hk. apply elem_of_app. left.
      apply (list_elem_of_fmap_2' _ _ (k, bp)); [|done].
      rewrite (Hrange _ (InfluxCtx.m ctx)). by apply elem_of_map_to_list. }
    assert (∀ c, c ∈ writes_of (range E _ (InfluxCtx.m ctx)) ++ logs ++ calls →
              is_failed_write c = false) as Hnone.
    { intros c. rewrite !elem_of_app. intros [Hin|[Hin|Hin]].
      - by apply writes_of_elem in Hin as (? & ? & _ & ->).
      - destruct Hlogs as [->|[n ->]]; [by apply elem_of_nil in Hin|].
        by apply list_elem_of_singleton in Hin as ->.
      - destruct (Resume _ && _).
        + destruct Hsave as (-> & _). by apply list_elem_of_singleton in Hin as ->.
        + destruct Hsave as (-> & _). by apply elem_of_nil in Hin. }
    rewrite !filter_app, not_save_writes, not_save_logs by done. cbn [app].
    split; [done|]. split.
    + intros _. split; [done|].
      destruct (Resume (InfluxCtx.config ctx) && negb (bool_decide (InfluxCtx.lastTs ctx = 0))).
      * destruct Hsave as (-> & Hts & Hdoc). by rewrite Hts.
      * by destruct Hsave as (-> & -> & -> & ->).
    + intros (c & Hin & Hfailed). by rewrite (Hnone c Hin) in Hfailed.
Qed.

Lemma range_ok_accepting : range_ok accepting.
Proof. by intros A mp. Qed.

Lemma writeBatch_checkpoint_witness :
  range_ok accepting ∧
  ∃ a ctx' w' calls,
    writeBatch accepting (city_worker true 22) empty_world = Done a ctx' w' ∧
    trace w' = trace empty_world ++ calls ∧
    calls = [CallWrite (city_batch 22) None; CallUpsertId Name "resume" "default" 22 None] ∧
    InfluxCtx.lastTs ctx' = 0.
Proof.
  split; [exact range_ok_accepting|].
  destruct (writeBatch_checkpoint accepting (city_worker true 22) empty_world
              range_ok_accepting)
    as (a & ctx' & w' & calls & Hflush & Htrace & _ & Hsaved & _).
  exists a, ctx', w', calls. split; [exact Hflush|]. split; [exact Htrace|].
  revert Hflush Htrace. vm_compute. intros [= <- <- <-] ->. split; reflexivity.
Defined.

Lemma main_filter_admits_witness :
  let config := mkConfigOptions "default" "weather.city" "" false true 0 false
                  [weather] true 1000 in
  let filter := gtm.ChainOpFilters
                  [NotMongoFlux; IsInsertOrUpdate; NotSystem; NotChunks;
                   λ op, bool_decide (gtm.Namespace op = "weather.city")] in
  main_filter accepting config = Some filter ∧
  filter (city_event 22 city_data) = true.
Proof.
  intros config filter. split; [reflexivity|].
  apply (main_filter_admits accepting config filter (city_event 22 city_data) eq_refl).
  split; [by left|]. split; [done|]. split; [|split; [|split]].
  - intros Hchunks. apply chunksRegex_spec in Hchunks. discriminate Hchunks.
  - by apply systemsRegex_unmatched.
  - intros _. eexists. split; reflexivity.
  - intros Hex. by destruct Hex.
Defined.

(** The claim as the specification words it does not hold: the pattern of
    the code ends in [$], so an event whose collection has a newline after
    [system.a] is admitted, although [system.] is followed there by a
    character other than the newline, which is what [system\..+] asks. *)
Lemma main_filter_admits_split_name :
  let config := mkConfigOptions "default" "" "" false false 0 false [weather] true 1000 in
  let filter := gtm.ChainOpFilters
                  [NotMongoFlux; IsInsertOrUpdate; NotSystem; NotChunks] in
  let op := gtm.mkOp gtm.Insert ("db." +:+ split_name) "db" split_name 22 [] in
  main_filter accepting config = Some filter ∧
  filter op = true ∧
  ∃ p c rest, gtm.Collection op = p +:+ "system." +:+ String c rest ∧
              c ≠ ascii_of_nat 10.
Proof.
  intros config filter op. split; [reflexivity|]. split; [vm_compute; reflexivity|].
  exists "", "a"%char, (String (ascii_of_nat 10) "b"). split; [reflexivity|discriminate].
Defined.

(** ** Adding a point *)

Lemma createDatabase_spec (E : Collaborators) (db : string) (ctx : InfluxCtx.t) (w : World) :
  ∃ a ctx' w',
    createDatabase E db ctx w = Done a ctx' w' ∧
    InfluxCtx.m ctx' = InfluxCtx.m ctx ∧
    InfluxCtx.measures ctx' = InfluxCtx.measures ctx ∧
    InfluxCtx.config ctx' = InfluxCtx.config ctx ∧
    InfluxCtx.lastTs ctx' = InfluxCtx.lastTs ctx ∧
    store w' = store w.
Proof.
  unfold createDatabase. destruct (InfluxAutoCreateDB _); [|by eexists _, _, _].
  destruct (negb _); [|by eexists _, _, _].
  destruct (client_Query E w _) as [[e|] [e'|]]; by eexists _, _, _.
Qed.

(** [setupDatabase] opens an empty batch for the namespace of the event when
    none is open, and touches no point. *)
Lemma setupDatabase_spec (E : Collaborators) (op : gtm.Op) (ctx : InfluxCtx.t)
    (w : World) (measure : InfluxMeasure.t) :
  InfluxCtx.measures ctx !! gtm.Namespace op = Some measure →
  ∃ a ctx' w',
    setupDatabase E op ctx w = Done a ctx' w' ∧
    InfluxCtx.measures ctx' = InfluxCtx.measures ctx ∧
    InfluxCtx.config ctx' = InfluxCtx.config ctx ∧
    InfluxCtx.lastTs ctx' = InfluxCtx.lastTs ctx ∧
    store w' = store w ∧
    (∀ ns, open_points ctx' ns = open_points ctx ns) ∧
    (∀ ns bp, InfluxCtx.m ctx' !! ns = Some bp →
              InfluxCtx.m ctx !! ns = Some bp ∨ client.Points bp = []) ∧
    (a = None → is_Some (InfluxCtx.m ctx' !! gtm.Namespace op)).
Proof.
  intros Hmeasure. unfold setupDatabase.
  destruct (InfluxCtx.m ctx !! gtm.Namespace op) as [bp|] eqn:Hopen.
  { exists None, ctx, w. do 6 (split; [done|]). split; [by left | by rewrite Hopen]. }
  rewrite Hmeasure. unfold client_NewBatchPoints.
  destruct (NewBatchPoints_err E _) as [e|].
  { exists (Some e), ctx, w. do 6 (split; [done|]). split; [by left | done]. }
  match goal with |- context [createDatabase E ?db ?c w] =>
    destruct (createDatabase_spec E db c w)
      as (a & ctx' & w' & -> & Hm & Hmeasures & Hconfig & Hts & Hstore)
  end.
  cbn [InfluxCtx.set_m InfluxCtx.m InfluxCtx.measures InfluxCtx.config InfluxCtx.lastTs] in *.
  exists a, ctx', w'. do 5 (split; [done|]). split; [|split].
  - intros ns. unfold open_points. rewrite Hm.
    destruct (decide (gtm.Namespace op = ns)) as [<-|Hne].
    + by rewrite lookup_insert_eq, Hopen.
    + by rewrite lookup_insert_ne.
  - intros ns bp. rewrite Hm.
    destruct (decide (gtm.Namespace op = ns)) as [<-|Hne].
    + rewrite lookup_insert_eq. intros [= <-]. by right.
    + rewrite lookup_insert_ne by done. by left.
  - intros _. rewrite Hm, lookup_insert_eq. by eexists.
Qed.

(** The ways through [addPoint] for an event whose namespace has a
    measurement. *)
Lemma addPoint_cases (E : Collaborators) (op : gtm.Op) (ctx : InfluxCtx.t) (w : World)
    (measure : InfluxMeasure.t) :
  InfluxCtx.measures ctx !! gtm.Namespace op = Some measure →
  ∃ a1 ctx1 w1,
    setupDatabase E op ctx w = Done a1 ctx1 w1 ∧
    match a1 with
    | Some e => addPoint E op ctx w = Done (Some e) ctx1 w1
    | None =>
        let w2 := record_logs (p_log (addPoint_project E measure op).1.2) w1 in
        match (addPoint_project E measure op).2 with
        | Some e => addPoint E op ctx w = Done (Some e) ctx1 w2
        | None =>
            match client_NewPoint E (addPoint_project E measure op).1.1
                    (p_tags (addPoint_project E measure op).1.2)
                    (p_fields (addPoint_project E measure op).1.2)
                    (p_t (addPoint_project E measure op).1.2) with
            | inl e => addPoint E op ctx w = Done (Some e) ctx1 w2
            | inr pt =>
                ∃ bp,
                  InfluxCtx.m ctx1 !! gtm.Namespace op = Some bp ∧
                  addPoint E op ctx w
                  = if bool_decide (InfluxBufferSize (InfluxCtx.config ctx1)
                                      ≤ Z.of_nat (length (client.Points
                                                            (client.AddPoint pt bp))))%Z
                    then writeBatch E (with_point op pt bp ctx1) w2
                    else Done None (with_point op pt bp ctx1) w2
            end
        end
    end.
Proof.
  intros Hmeasure. unfold addPoint. rewrite Hmeasure.
  destruct (setupDatabase_spec E op ctx w measure Hmeasure)
    as (a1 & ctx1 & w1 & -> & _ & _ & _ & _ & _ & _ & Hopen).
  exists a1, ctx1, w1. split; [done|]. destruct a1 as [e|]; [done|].
  destruct (addPoint_project E measure op) as [[name acc] [e|]]; cbn [fst snd]; [done|].
  destruct (client_NewPoint E name _ _ _) as [e|pt]; [done|].
  destruct (Hopen eq_refl) as [bp Hbp]. rewrite Hbp. by exists bp.
Qed.

(** C5, as the code has it: when [addPoint] leaves a new point in the open
    batch of the namespace, the tracked timestamp is the replication
    timestamp of the event, whether or not it is greater than the timestamp
    tracked before. *)
Theorem addPoint_tracks_latest (E : Collaborators) (op : gtm.Op) (ctx ctx' : InfluxCtx.t)
    (w w' : World) (a : option error) :
  addPoint E op ctx w = Done a ctx' w' →
  open_points ctx' (gtm.Namespace op) = S (open_points ctx (gtm.Namespace op)) →
  a = None ∧ InfluxCtx.lastTs ctx' = gtm.Timestamp op.
Proof.
  intros Hadd Hopen.
  destruct (InfluxCtx.measures ctx !! gtm.Namespace op) as [measure|] eqn:Hmeasure.
  2:{ unfold addPoint in Hadd. rewrite Hmeasure in Hadd. injection Hadd as <- <- <-. lia. }
  destruct (setupDatabase_spec E op ctx w measure Hmeasure)
    as (a1 & ctx1 & w1 & Hsetup & _ & _ & _ & _ & Hsame & _).
  destruct (addPoint_cases E op ctx w measure Hmeasure)
    as (a1' & ctx1' & w1' & Hsetup' & Hcases).
  rewrite Hsetup in Hsetup'. injection Hsetup' as <- <- <-.
  specialize (Hsame (gtm.Namespace op)).
  destruct a1 as [e|].
  { rewrite Hcases in Hadd. injection Hadd as <- <- <-. lia. }
  cbv zeta in Hcases. destruct (addPoint_project E measure op).2 as [e|].
  { rewrite Hcases in Hadd. injection Hadd as <- <- <-. lia. }
  destruct (client_NewPoint E _ _ _ _) as [e|pt].
  { rewrite Hcases in Hadd. injection Hadd as <- <- <-. lia. }
  destruct Hcases as (bp & Hbp & Hcases). rewrite Hcases in Hadd.
  destruct (bool_decide _).
  - apply writeBatch_empties in Hadd. unfold open_points in Hopen.
    rewrite Hadd, lookup_empty in Hopen. lia.
  - by injection Hadd as <- <- <-.
Qed.

Lemma addPoint_tracks_latest_witness :
  let op := city_event (Z.shiftl 3 32) city_data in
  let ctx := city_worker false (Z.shiftl 5 32) in
  let ctx' := with_point op (city_point (Z.shiftl 3 32)) (city_batch (Z.shiftl 5 32)) ctx in
  addPoint accepting op ctx empty_world = Done None ctx' empty_world ∧
  open_points ctx' "weather.city" = S (open_points ctx "weather.city") ∧
  InfluxCtx.lastTs ctx = Z.shiftl 5 32 ∧
  InfluxCtx.lastTs ctx' = Z.shiftl 3 32.
Proof.
  intros op ctx ctx'.
  assert (addPoint accepting op ctx empty_world = Done None ctx' empty_world) as Hadd
    by (vm_compute; reflexivity).
  assert (open_points ctx' (gtm.Namespace op) = S (open_points ctx (gtm.Namespace op)))
    as Hopen by (vm_compute; reflexivity).
  split; [exact Hadd|]. split; [exact Hopen|]. split; [reflexivity|].
  exact (proj2 (addPoint_tracks_latest accepting op ctx ctx' empty_world empty_world
                  None Hadd Hopen)).
Defined.

(** C5 fails on the code: a worker consumes an event with the timestamp
    5 * 2^32 and then one with the timestamp 3 * 2^32; no flush happens in
    between, and the tracked timestamp goes down from the first to the
    second. *)
Lemma addPoint_lowers_lastTs :
  match addPoint accepting (city_event (Z.shiftl 5 32) city_data)
          (worker_of (config_of [weather] true) 0) empty_world with
  | Done a1 ctx1 w1 =>
      a1 = None ∧ InfluxCtx.lastTs ctx1 = Z.shiftl 5 32 ∧
      match addPoint accepting (city_event (Z.shiftl 3 32) city_data) ctx1 w1 with
      | Done a2 ctx2 w2 =>
          a2 = None ∧ open_points ctx2 "weather.city" = 2%nat ∧
          InfluxCtx.lastTs ctx2 = Z.shiftl 3 32 ∧
          (InfluxCtx.lastTs ctx2 < InfluxCtx.lastTs ctx1)%Z ∧
          trace w2 = [CallQuery ("CREATE DATABASE " +:+ dquote +:+ "weather" +:+ dquote)
                        None None]
      | Panic => False
      end
  | Panic => False
  end.
Proof. vm_compute. repeat split. Qed.

(** ** Flattener *)

(** Induction on values that reaches into sub-documents. *)
Lemma Value_nested_ind (P : Value → Prop) :
  P VNil →
  (∀ s, P (VString s)) →
  (∀ n, P (VInt64 n)) →
  (∀ bits, P (VFloat64 bits)) →
  (∀ b, P (VBool b)) →
  (∀ t, P (VTime t)) →
  (∀ ts, P (VMongoTimestamp ts)) →
  (∀ child, Forall (λ kv, P kv.2) child → P (VOpLogEntry child)) →
  (∀ tn, P (VOther tn)) →
  ∀ v, P v.
Proof.
  intros Hnil Hs Hi Hf Hb Ht Hts Hdoc Ho.
  fix IH 1. intros [|s|n|bits|b|t|ts|child|tn].
  - apply Hnil.
  - apply Hs.
  - apply Hi.
  - apply Hf.
  - apply Hb.
  - apply Ht.
  - apply Hts.
  - apply Hdoc. induction child as [|[k v] rest IHrest]; constructor.
    + apply IH.
    + apply IHrest.
  - apply Ho.
Qed.

(** The inner loops of [flatmap_entry] and of [leaves_entry] are [flatmap]
    and [leaves] of the sub-document. *)
Lemma flatmap_entry_doc (E : Collaborators) (prefix k : string) (o : gmap string Value)
    (child : list (string * Value)) :
  flatmap_entry E prefix o k (VOpLogEntry child)
  = flatmap_merge E prefix k (flatmap E "" child) o.
Proof.
  cbn [flatmap_entry]. f_equal. unfold flatmap.
  generalize (∅ : gmap string Value).
  induction child as [|[k' v'] rest IH]; intros o'; [done|]. cbn [foldl]. apply IH.
Qed.

Lemma leaves_entry_doc (k : string) (child : list (string * Value)) :
  leaves_entry k (VOpLogEntry child)
  = (λ '(nk, nv), (k +:+ "." +:+ nk, nv)) <$> leaves child.
Proof.
  cbn [leaves_entry]. unfold leaves.
  induction child as [|[k' v'] rest IH]; [done|].
  rewrite IH. cbn [mbind list_bind]. by rewrite fmap_app.
Qed.

Lemma leaves_entry_scalar (k : string) (v : Value) :
  (∀ child, v ≠ VOpLogEntry child) → leaves_entry k v = [(k, v)].
Proof. intros Hv. destruct v; try done. by destruct (Hv child). Qed.

Lemma flatmap_entry_scalar (E : Collaborators) (prefix k : string) (o : gmap string Value)
    (v : Value) :
  (∀ child, v ≠ VOpLogEntry child) →
  flatmap_entry E prefix o k v = if isfieldtype v then <[prefix +:+ k := v]> o else o.
Proof. intros Hv. destruct v; try done. by destruct (Hv child). Qed.

(** A loop of assignments [o[f nk] = nv] over a list of entries. *)
Lemma foldl_assign_sound (f : string → string) (l : list (string * Value))
    (o : gmap string Value) (key : string) (val : Value) :
  foldl (λ o' '(nk, nv), <[f nk := nv]> o') o l !! key = Some val →
  (∃ nk, key = f nk ∧ (nk, val) ∈ l) ∨ o !! key = Some val.
Proof.
  revert o. induction l as [|[nk nv] l IH]; intros o; cbn [foldl]; [by right|].
  intros [(nk' & -> & Hin)|Ho]%IH.
  - left. exists nk'. split; [done | by right].
  - destruct (decide (f nk = key)) as [<-|Hne].
    + rewrite lookup_insert_eq in Ho. injection Ho as ->. left. exists nk. split; [done | by left].
    + rewrite lookup_insert_ne in Ho by done. by right.
Qed.

Lemma foldl_assign_other (f : string → string) (l : list (string * Value))
    (o : gmap string Value) (key : string) :
  (∀ nk nv, (nk, nv) ∈ l → f nk ≠ key) →
  foldl (λ o' '(nk, nv), <[f nk := nv]> o') o l !! key = o !! key.
Proof.
  revert o. induction l as [|[nk nv] l IH]; intros o Hother; cbn [foldl]; [done|].
  rewrite IH.
  - apply lookup_insert_ne. apply (Hother nk nv). by left.
  - intros nk' nv' Hin. apply (Hother nk' nv'). by right.
Qed.

Lemma foldl_assign_mono (f : string → string) (l : list (string * Value))
    (o : gmap string Value) (key : string) :
  is_Some (o !! key) →
  is_Some (foldl (λ o' '(nk, nv), <[f nk := nv]> o') o l !! key).
Proof.
  revert o. induction l as [|[nk nv] l IH]; intros o Ho; cbn [foldl]; [done|].
  apply IH. destruct (decide (f nk = key)) as [<-|Hne].
  - rewrite lookup_insert_eq. by eexists.
  - by rewrite lookup_insert_ne.
Qed.

Lemma foldl_assign_complete (f : string → string) `{!Inj (=) (=) f}
    (l : list (string * Value)) (o : gmap string Value) (nk : string) (nv : Value) :
  NoDup (l.*1) → (nk, nv) ∈ l →
  foldl (λ o' '(nk, nv), <[f nk := nv]> o') o l !! f nk = Some nv.
Proof.
  revert o. induction l as [|[nk' nv'] l IH]; intros o Hnodup Hin; cbn [foldl].
  { by apply elem_of_nil in Hin. }
  cbn [fmap list_fmap fst] in Hnodup. apply NoDup_cons in Hnodup as [Hfresh Hnodup].
  apply elem_of_cons in Hin as [[= <- <-]|Hin].
  - rewrite foldl_assign_other; [by rewrite lookup_insert_eq|].
    intros nk'' nv'' Hin Heq. apply (inj f) in Heq as ->. apply Hfresh.
    by apply (list_elem_of_fmap_2' fst _ (nk, nv'')).
  - by apply IH.
Qed.

Lemma range_lookup (E : Collaborators) {A : Type} (mp : gmap string A) (k : string) (x : A) :
  range_ok E → (k, x) ∈ range E A mp ↔ mp !! k = Some x.
Proof. intros Hrange. by rewrite (Hrange A mp), elem_of_map_to_list. Qed.

Lemma range_NoDup (E : Collaborators) {A : Type} (mp : gmap string A) :
  range_ok E → NoDup ((range E A mp).*1).
Proof. intros Hrange. rewrite (Hrange A mp). apply NoDup_fst_map_to_list. Qed.

Lemma flatmap_merge_spec (E : Collaborators) (prefix k : string)
    (nm o : gmap string Value) :
  range_ok E →
  (∀ key val, flatmap_merge E prefix k nm o !! key = Some val →
     (∃ nk, key = prefix +:+ k +:+ "." +:+ nk ∧ nm !! nk = Some val) ∨
     o !! key = Some val) ∧
  (∀ nk val, nm !! nk = Some val →
     flatmap_merge E prefix k nm o !! (prefix +:+ k +:+ "." +:+ nk) = Some val) ∧
  (∀ key, is_Some (o !! key) → is_Some (flatmap_merge E prefix k nm o !! key)).
Proof.
  intros Hrange. unfold flatmap_merge. split; [|split].
  - intros key val [(nk & -> & Hin)|Ho]%(foldl_assign_sound (λ nk, prefix +:+ k +:+ "." +:+ nk)).
    + left. exists nk. split; [done|]. by apply (range_lookup E).
    + by right.
  - intros nk val Hnk.
    apply (foldl_assign_complete (λ nk, prefix +:+ k +:+ "." +:+ nk)).
    + by apply range_NoDup.
    + by apply (range_lookup E).
  - intros key. apply (foldl_assign_mono (λ nk, prefix +:+ k +:+ "." +:+ nk)).
Qed.

Lemma flatmap_loop_spec (E : Collaborators) (prefix : string) (m : gtm.OpLogEntry)
    (o : gmap string Value) :
  Forall (λ kv, entry_flattened E kv.1 kv.2) m →
  let o' := foldl (λ o '(k, v), flatmap_entry E prefix o k v) o m in
  (∀ key val, o' !! key = Some val →
     (∃ pk, key = prefix +:+ pk ∧ (pk, val) ∈ leaves m ∧ isfieldtype val = true) ∨
     o !! key = Some val) ∧
  (∀ pk val, (pk, val) ∈ leaves m → isfieldtype val = true →
     is_Some (o' !! (prefix +:+ pk))) ∧
  (∀ key, is_Some (o !! key) → is_Some (o' !! key)).
Proof.
  revert o. induction m as [|[k v] m IH]; intros o Hall; cbn zeta.
  - split; [by right|]. split; [|done]. intros pk val Hin. by apply elem_of_nil in Hin.
  - apply Forall_cons in Hall as [Hentry Hall]. cbn [fst snd] in Hentry.
    destruct (Hentry prefix o) as (Hsound & Hcomplete & Hmono).
    destruct (IH (flatmap_entry E prefix o k v) Hall) as (IHsound & IHcomplete & IHmono).
    cbn [foldl]. unfold leaves in *. cbn [mbind list_bind]. split; [|split].
    + intros key val [(pk & -> & Hin & Hfield)|Hentry']%IHsound.
      * left. exists pk. split; [done|]. split; [|done]. apply elem_of_app. by right.
      * apply Hsound in Hentry' as [(pk & -> & Hin & Hfield)|Ho]; [|by right].
        left. exists pk. split; [done|]. split; [|done]. apply elem_of_app. by left.
    + intros pk val [Hin|Hin]%elem_of_app Hfield.
      * apply IHmono. by apply (Hcomplete pk val).
      * by apply (IHcomplete pk val).
    + intros key Ho. by apply IHmono, Hmono.
Qed.

Lemma entry_flattened_scalar (E : Collaborators) (k : string) (v : Value) :
  (∀ child, v ≠ VOpLogEntry child) → entry_flattened E k v.
Proof.
  intros Hv prefix o. rewrite flatmap_entry_scalar, leaves_entry_scalar by done.
  split; [|split].
  - intros key val Hkey. destruct (isfieldtype v) eqn:Hfield; [|by right].
    destruct (decide (prefix +:+ k = key)) as [<-|Hne].
    + rewrite lookup_insert_eq in Hkey. injection Hkey as <-. left. exists k.
      split; [done|]. split; [by apply list_elem_of_singleton | done].
    + rewrite lookup_insert_ne in Hkey by done. by right.
  - intros pk val [= -> ->]%list_elem_of_singleton Hfield. rewrite Hfield.
    rewrite lookup_insert_eq. by eexists.
  - intros key Ho. destruct (isfieldtype v); [|done].
    destruct (decide (prefix +:+ k = key)) as [<-|Hne].
    + rewrite lookup_insert_eq. by eexists.
    + by rewrite lookup_insert_ne.
Qed.

Lemma flatmap_entry_spec (E : Collaborators) (k : string) (v : Value) :
  range_ok E → entry_flattened E k v.
Proof.
  intros Hrange. revert k.
  induction v as [|s|n|bits|b|t|ts|child IHchild|tn] using Value_nested_ind; intros k.
  8:{ intros prefix o. rewrite flatmap_entry_doc, leaves_entry_doc.
      destruct (flatmap_merge_spec E prefix k (flatmap E "" child) o Hrange)
        as (Hsound & Hcomplete & Hmono).
      assert (Forall (λ kv, entry_flattened E kv.1 kv.2) child) as Hall.
      { eapply Forall_impl; [exact IHchild|]. intros [k' v'] Hv'. apply Hv'. }
      destruct (flatmap_loop_spec E "" child ∅ Hall) as (Csound & Ccomplete & _).
      fold (flatmap E "" child) in Csound, Ccomplete.
      split; [|split].
      - intros key val [(nk & -> & Hnk)|Ho]%Hsound; [|by right].
        apply Csound in Hnk as [(pk & -> & Hin & Hfield)|Hempty]; [|by rewrite lookup_empty in Hempty].
        left. exists (k +:+ "." +:+ pk). split; [done|]. split; [|done].
        by apply (list_elem_of_fmap_2' _ _ (pk, val)).
      - intros pk val ([pk' val'] & [= -> ->] & Hin)%list_elem_of_fmap Hfield.
        destruct (Ccomplete pk' val' Hin Hfield) as [val'' Hnk].
        cbn [String.append] in Hnk. rewrite (Hcomplete pk' val'' Hnk). by eexists.
      - exact Hmono. }
  all: by apply entry_flattened_scalar.
Qed.

(** The output of [flatmap]: its bindings are leaves of the document that
    satisfy [isfieldtype], and every such leaf has its key bound. *)
Lemma flatmap_spec (E : Collaborators) (prefix : string) (m : gtm.OpLogEntry) :
  range_ok E →
  (∀ key val, flatmap E prefix m !! key = Some val →
     ∃ pk, key = prefix +:+ pk ∧ (pk, val) ∈ leaves m ∧ isfieldtype val = true) ∧
  (∀ pk val, (pk, val) ∈ leaves m → isfieldtype val = true →
     is_Some (flatmap E prefix m !! (prefix +:+ pk))).
Proof.
  intros Hrange.
  assert (Forall (λ kv, entry_flattened E kv.1 kv.2) m) as Hall.
  { apply Forall_forall. intros [k v] _. by apply flatmap_entry_spec. }
  destruct (flatmap_loop_spec E prefix m ∅ Hall) as (Hsound & Hcomplete & _).
  split; [|exact Hcomplete].
  intros key val [?|Hempty]%Hsound; [done|]. by rewrite lookup_empty in Hempty.
Qed.

(** Flattening a map whose values all satisfy [isfieldtype] gives the map
    back, in whatever order its entries are visited. *)
Lemma flatmap_flat (E : Collaborators) (o : gmap string Value)
    (l : list (string * Value)) :
  l ≡ₚ map_to_list o →
  (∀ key val, o !! key = Some val → isfieldtype val = true) →
  flatmap E "" l = o.
Proof.
  intros Hl Hflat. unfold flatmap.
  assert (∀ acc, foldl (λ o' '(k, v), flatmap_entry E "" o' k v) acc l
                 = foldl (λ o' '(nk, nv), <[id nk := nv]> o') acc l) as ->.
  { assert (∀ k v, (k, v) ∈ l → isfieldtype v = true) as Hfields.
    { intros k v Hin. apply (Hflat k). apply elem_of_map_to_list. by rewrite <- Hl. }
    clear Hl. induction l as [|[k v] l IH]; intros acc; [done|]. cbn [foldl].
    rewrite IH by (intros k' v' Hin; apply (Hfields k' v'); by right).
    f_equal. assert (isfieldtype v = true) as Hv by (apply (Hfields k v); by left).
    rewrite flatmap_entry_scalar by (intros child ->; done). by rewrite Hv. }
  apply map_eq. intros key. destruct (o !! key) as [val|] eqn:Hkey.
  - apply (foldl_assign_complete id).
    + rewrite Hl. apply NoDup_fst_map_to_list.
    + rewrite Hl. by apply elem_of_map_to_list.
  - rewrite foldl_assign_other; [apply lookup_empty|].
    intros nk nv Hin Heq. unfold id in Heq. subst key.
    rewrite Hl in Hin. apply elem_of_map_to_list in Hin. congruence.
Qed.

(** C8: for every prefix and every document, the bindings of [flatmap] are
    leaves of the document that satisfy [isfieldtype], each under the prefix
    followed by the dot-joined path of its keys; every such leaf has its key
    in the output, with the value of the leaf when no other leaf has the same
    dotted key; flattening the output again, with the empty prefix, gives
    the output back; and [isfieldtype] holds of strings, 64-bit integers,
    64-bit floats and booleans only. *)
Theorem flatmap_leaves (E : Collaborators) (prefix : string) (m : gtm.OpLogEntry) :
  range_ok E →
  (∀ key val, flatmap E prefix m !! key = Some val →
     ∃ pk, key = prefix +:+ pk ∧ (pk, val) ∈ leaves m ∧ isfieldtype val = true) ∧
  (∀ pk val, (pk, val) ∈ leaves m → isfieldtype val = true →
     is_Some (flatmap E prefix m !! (prefix +:+ pk))) ∧
  (NoDup ((leaves m).*1) →
   ∀ pk val, (pk, val) ∈ leaves m →
     flatmap E prefix m !! (prefix +:+ pk) = if isfieldtype val then Some val else None) ∧
  flatmap E "" (range E _ (flatmap E prefix m)) = flatmap E prefix m ∧
  (∀ val, isfieldtype val = true ↔
     (∃ s, val = VString s) ∨ (∃ n, val = VInt64 n) ∨
     (∃ bits, val = VFloat64 bits) ∨ (∃ b, val = VBool b)).
Proof.
  intros Hrange. destruct (flatmap_spec E prefix m Hrange) as [Hsound Hcomplete].
  split; [exact Hsound|]. split; [exact Hcomplete|]. split; [|split].
  3:{ intros val. split.
      - destruct val; try done; eauto 6.
      - by intros [[? ->]|[[? ->]|[[? ->]|[? ->]]]]. }
  - intros Hdistinct pk val Hin.
    assert (∀ val', (pk, val') ∈ leaves m → val' = val) as Hunique.
    { intros val' Hin'.
      apply list_elem_of_lookup in Hin as [i Hi]. apply list_elem_of_lookup in Hin' as [j Hj].
      assert (i = j) as ->.
      { apply (NoDup_lookup _ i j pk Hdistinct); rewrite list_lookup_fmap.
        - by rewrite Hi. - by rewrite Hj. }
      congruence. }
    destruct (flatmap E prefix m !! (prefix +:+ pk)) as [val'|] eqn:Hkey.
    + destruct (Hsound _ _ Hkey) as (pk' & Heq & Hin' & Hfield).
      apply (inj (String.append prefix)) in Heq as <-.
      rewrite (Hunique val' Hin') in *. by rewrite Hfield.
    + destruct (isfieldtype val) eqn:Hfield; [|done].
      destruct (Hcomplete pk val Hin Hfield) as [? ?]. congruence.
  - apply flatmap_flat; [apply Hrange|].
    intros key val Hkey. by destruct (Hsound key val Hkey) as (_ & _ & _ & ?).
Qed.

Lemma flatmap_leaves_witness :
  range_ok accepting ∧
  flatmap accepting "p." nested_data
  = {["p.meta.host" := VString "h1"; "p.m.v" := VInt64 3; "p.m.deep.ok" := VBool true]} ∧
  flatmap accepting "" (range accepting _ (flatmap accepting "p." nested_data))
  = flatmap accepting "p." nested_data.
Proof.
  split; [exact range_ok_accepting|]. split; [vm_compute; reflexivity|].
  exact (proj1 (proj2 (proj2 (proj2
    (flatmap_leaves accepting "p." nested_data range_ok_accepting))))).
Defined.

(** ** Projection: the time of the point *)

Lemma addPoint_key_time (measure : InfluxMeasure.t) (ns k : string) (v : Value)
    (acc : projection) :
  p_t (addPoint_key measure ns acc k v) = p_t acc ∧
  p_timefield (addPoint_key measure ns acc k v) = p_timefield acc.
Proof.
  unfold addPoint_key.
  destruct (index_bool (InfluxMeasure.tags measure) k); [by destruct (istagtype v)|].
  destruct (index_bool (InfluxMeasure.fields measure) k); [by destruct (isfieldtype v)|done].
Qed.

Lemma addPoint_keys_time (measure : InfluxMeasure.t) (ns : string)
    (l : list (string * Value)) (acc : projection) :
  p_t (foldl (λ acc '(fk, fv), addPoint_key measure ns acc fk fv) acc l) = p_t acc ∧
  p_timefield (foldl (λ acc '(fk, fv), addPoint_key measure ns acc fk fv) acc l)
  = p_timefield acc.
Proof.
  revert acc. induction l as [|[fk fv] l IH]; intros acc; [done|]. cbn [foldl].
  destruct (IH (addPoint_key measure ns acc fk fv)) as [-> ->].
  apply addPoint_key_time.
Qed.

Lemma addPoint_entry_time (E : Collaborators) (measure : InfluxMeasure.t) (ns : string)
    (acc : projection) (kv : string * Value) :
  (p_t (addPoint_entry E measure ns acc kv), p_timefield (addPoint_entry E measure ns acc kv))
  = if picks_time measure kv then (time_of kv.2, false) else (p_t acc, p_timefield acc).
Proof.
  destruct kv as [k v]. unfold addPoint_entry, picks_time. cbn [fst snd].
  destruct (decide (k = "_id")) as [Hid|Hid].
  { by rewrite bool_decide_eq_true_2. }
  rewrite (bool_decide_eq_false_2 _ Hid). cbn [negb andb].
  destruct v as [|s|n|bits|b|t|ts|child|tn]; cbn [is_time time_of];
    rewrite ?andb_false_r, ?andb_true_r;
    try (match goal with
         | |- context [addPoint_key measure ns acc k ?v] =>
             by destruct (addPoint_key_time measure ns k v acc) as [-> ->]
         end).
  - destruct (decide (InfluxMeasure.timefield measure = k)) as [Htf|Htf].
    + by rewrite bool_decide_eq_true_2.
    + by rewrite bool_decide_eq_false_2.
  - destruct (decide (InfluxMeasure.timefield measure = k)) as [Htf|Htf].
    + by rewrite bool_decide_eq_true_2.
    + by rewrite bool_decide_eq_false_2.
  - by destruct (addPoint_keys_time measure ns
                   (range E _ (flatmap E (k +:+ ".") child)) acc) as [-> ->].
Qed.

(** The time with which the loop of [addPoint] ends is taken from the last
    entry visited that [picks_time] holds of, if any. *)
Lemma addPoint_loop_time (E : Collaborators) (measure : InfluxMeasure.t) (ns : string)
    (data : gtm.OpLogEntry) (acc : projection) :
  (p_t (foldl (addPoint_entry E measure ns) acc data),
   p_timefield (foldl (addPoint_entry E measure ns) acc data))
  = match last (filter (λ kv, picks_time measure kv = true) data) with
    | Some kv => (time_of kv.2, false)
    | None => (p_t acc, p_timefield acc)
    end.
Proof.
  revert acc. induction data as [|kv data IH]; intros acc; [done|].
  cbn [foldl]. rewrite IH, filter_cons, addPoint_entry_time.
  destruct (picks_time measure kv) eqn:Hpick.
  - rewrite decide_True by done.
    destruct (filter _ data) as [|kv' l] eqn:Hfilter; [done|].
    change (last (kv :: kv' :: l)) with (last (kv' :: l)).
    destruct (last (kv' :: l)) eqn:Hlast; [done|]. by apply last_None in Hlast.
  - rewrite decide_False by done. by destruct (last _).
Qed.

Lemma addPoint_project_acc (E : Collaborators) (measure : InfluxMeasure.t) (op : gtm.Op) :
  (addPoint_project E measure op).1.2
  = foldl (addPoint_entry E measure (gtm.Namespace op))
      (mkProjection
         (if bool_decide (InfluxMeasure.timefield measure = "")
          then TimestampTime (gtm.Timestamp op) else time.zero)
         (negb (bool_decide (InfluxMeasure.timefield measure = ""))) ∅ ∅ [])
      (gtm.Data op).
Proof.
  unfold addPoint_project. cbv zeta. rewrite negb_involutive.
  by destruct (p_timefield (foldl _ _ _)).
Qed.

Lemma addPoint_project_name (E : Collaborators) (measure : InfluxMeasure.t) (op : gtm.Op) :
  (addPoint_project E measure op).1.1
  = if decide (InfluxMeasure.measure measure = "")
    then gtm.Collection op else InfluxMeasure.measure measure.
Proof.
  unfold addPoint_project. cbv zeta.
  destruct (p_timefield (foldl _ _ _)); cbn [fst snd];
    (destruct (decide (InfluxMeasure.measure measure = "")) as [Hm|Hm];
     [by rewrite bool_decide_eq_true_2 | by rewrite bool_decide_eq_false_2]).
Qed.

Lemma addPoint_project_err (E : Collaborators) (measure : InfluxMeasure.t) (op : gtm.Op) :
  (addPoint_project E measure op).2
  = if p_timefield (addPoint_project E measure op).1.2
    then Some (missing_time measure) else None.
Proof.
  unfold addPoint_project, missing_time. cbv zeta.
  destruct (p_timefield (foldl _ _ _)) eqn:Htf; cbn [fst snd]; by rewrite Htf.
Qed.

Lemma addPoint_project_time (E : Collaborators) (measure : InfluxMeasure.t) (op : gtm.Op) :
  (p_t (addPoint_project E measure op).1.2,
   p_timefield (addPoint_project E measure op).1.2)
  = match last (filter (λ kv, picks_time measure kv = true) (gtm.Data op)) with
    | Some kv => (time_of kv.2, false)
    | None =>
        (if bool_decide (InfluxMeasure.timefield measure = "")
         then TimestampTime (gtm.Timestamp op) else time.zero,
         negb (bool_decide (InfluxMeasure.timefield measure = "")))
    end.
Proof. rewrite addPoint_project_acc. apply addPoint_loop_time. Qed.

(** When no entry gives a time, the time field decides. *)
Lemma addPoint_project_no_time (E : Collaborators) (measure : InfluxMeasure.t)
    (op : gtm.Op) :
  (∀ kv, kv ∈ gtm.Data op → picks_time measure kv = false) →
  (InfluxMeasure.timefield measure = "" →
     (addPoint_project E measure op).2 = None ∧
     p_t (addPoint_project E measure op).1.2 = TimestampTime (gtm.Timestamp op)) ∧
  (InfluxMeasure.timefield measure ≠ "" →
     (addPoint_project E measure op).2 = Some (missing_time measure)).
Proof.
  intros Hnone. pose proof (addPoint_project_time E measure op) as Htime.
  rewrite filter_none in Htime
    by (intros kv Hin; rewrite (Hnone kv Hin); done).
  cbn [last] in Htime. injection Htime as Ht Htf.
  rewrite addPoint_project_err, Htf, Ht. split.
  - intros Hempty. by rewrite bool_decide_eq_true_2.
  - intros Hset. by rewrite bool_decide_eq_false_2.
Qed.

(** When the key of the time field holds a time, that time is taken. *)
Lemma addPoint_project_picks (E : Collaborators) (measure : InfluxMeasure.t)
    (op : gtm.Op) (v : Value) :
  gtm.distinct_keys (gtm.Data op) →
  InfluxMeasure.timefield measure ≠ "_id" →
  (InfluxMeasure.timefield measure, v) ∈ gtm.Data op →
  is_time v = true →
  (addPoint_project E measure op).2 = None ∧
  p_t (addPoint_project E measure op).1.2 = time_of v.
Proof.
  intros Hdistinct Hid Hin Htime.
  pose proof (addPoint_project_time E measure op) as Hproj.
  assert (last (filter (λ kv, picks_time measure kv = true) (gtm.Data op))
          = Some (InfluxMeasure.timefield measure, v)) as Hlast.
  { destruct (last (filter (λ kv, picks_time measure kv = true) (gtm.Data op)))
      as [[k' v']|] eqn:Hlast.
    - apply last_Some_elem_of, list_elem_of_filter in Hlast as [Hpick Hin'].
      unfold picks_time in Hpick. cbn [fst snd] in Hpick.
      apply andb_true_iff in Hpick as [Hpick _].
      apply andb_true_iff in Hpick as [_ Hkey]. apply bool_decide_eq_true in Hkey as <-.
      f_equal. f_equal.
      apply list_elem_of_lookup in Hin as [i Hi]. apply list_elem_of_lookup in Hin' as [j Hj].
      assert (i = j) as ->.
      { apply (NoDup_lookup _ i j (InfluxMeasure.timefield measure) Hdistinct);
          rewrite list_lookup_fmap.
        - by rewrite Hi. - by rewrite Hj. }
      congruence.
    - exfalso. apply last_None in Hlast.
      assert ((InfluxMeasure.timefield measure, v)
              ∈ filter (λ kv, picks_time measure kv = true) (gtm.Data op)) as Hfiltered.
      { apply list_elem_of_filter. split; [|done]. unfold picks_time. cbn [fst snd].
        rewrite Htime, (bool_decide_eq_false_2 _ Hid).
        by rewrite bool_decide_eq_true_2. }
      rewrite Hlast in Hfiltered. by apply elem_of_nil in Hfiltered. }
  rewrite Hlast in Hproj. cbn [snd] in Hproj. injection Hproj as Ht Htf.
  by rewrite addPoint_project_err, Htf, Ht.
Qed.

(** An event whose projection fails gives no point: [addPoint] returns an
    error, the error of the projection unless the batch could not be set
    up, and the open batches hold the points they held. *)
Lemma addPoint_project_fails (E : Collaborators) (measure : InfluxMeasure.t)
    (op : gtm.Op) (err : error) (ctx : InfluxCtx.t) (w : World) :
  (addPoint_project E measure op).2 = Some err →
  InfluxCtx.measures ctx !! gtm.Namespace op = Some measure →
  ∃ e ctx' w',
    addPoint E op ctx w = Done (Some e) ctx' w' ∧
    (∀ ns, open_points ctx' ns = open_points ctx ns) ∧
    InfluxCtx.lastTs ctx' = InfluxCtx.lastTs ctx ∧
    (e = err ∨ setupDatabase E op ctx w = Done (Some e) ctx' w').
Proof.
  intros Hproj Hmeasure.
  destruct (setupDatabase_spec E op ctx w measure Hmeasure)
    as (a1 & ctx1 & w1 & Hsetup & _ & _ & Hts & _ & Hsame & _).
  destruct (addPoint_cases E op ctx w measure Hmeasure)
    as (a1' & ctx1' & w1' & Hsetup' & Hcases).
  rewrite Hsetup in Hsetup'. injection Hsetup' as <- <- <-.
  destruct a1 as [e|].
  - exists e, ctx1, w1. split; [done|]. split; [done|]. split; [done|]. by right.
  - cbv zeta in Hcases. rewrite Hproj in Hcases.
    eexists err, ctx1, _. split; [exact Hcases|]. split; [done|]. split; [done|]. by left.
Qed.

Lemma shiftr_32 (ts : Z) : Z.shiftr ts 32 = (ts / 2 ^ 32)%Z.
Proof. by rewrite Z.shiftr_div_pow2. Qed.


(** C7, as the code has it.  [TimestampTime ts] is the UTC time whose UNIX
    seconds are [ts >> 32], for every [ts].  With an empty time field the
    time of the point is [TimestampTime] of the timestamp of the event,
    when the data hold no time under the empty key.  With a time field other
    than [_id], a wall-clock time under that key is taken, in UTC, and a
    replication timestamp under that key is taken through [TimestampTime].
    With a time field that is [_id], or whose key is absent from the data or
    holds a value of another type, the projection fails with the error of
    the missing time field, and [addPoint] adds no point. *)
Theorem addPoint_time_amended (E : Collaborators) (measure : InfluxMeasure.t)
    (op : gtm.Op) :
  let tf := InfluxMeasure.timefield measure in
  let r := addPoint_project E measure op in
  (∀ ts, TimestampTime ts = time.mkTime (ts / 2 ^ 32) 0 time.UTC) ∧
  (tf = "" → (∀ v, ("", v) ∈ gtm.Data op → is_time v = false) →
     r.2 = None ∧ p_t r.1.2 = TimestampTime (gtm.Timestamp op)) ∧
  (tf ≠ "" → tf ≠ "_id" → gtm.distinct_keys (gtm.Data op) →
     (∀ tv, (tf, VTime tv) ∈ gtm.Data op →
        r.2 = None ∧ p_t r.1.2 = time.toUTC tv) ∧
     (∀ ts, (tf, VMongoTimestamp ts) ∈ gtm.Data op →
        r.2 = None ∧ p_t r.1.2 = TimestampTime ts)) ∧
  (tf ≠ "" → (tf = "_id" ∨ ∀ v, (tf, v) ∈ gtm.Data op → is_time v = false) →
     r.2 = Some (missing_time measure) ∧
     ∀ ctx w, InfluxCtx.measures ctx !! gtm.Namespace op = Some measure →
       ∃ e ctx' w',
         addPoint E op ctx w = Done (Some e) ctx' w' ∧
         (∀ ns, open_points ctx' ns = open_points ctx ns) ∧
         (e = missing_time measure ∨
          setupDatabase E op ctx w = Done (Some e) ctx' w')).
Proof.
  intros tf r. subst tf r. split; [|split; [|split]].
  - intros ts. unfold TimestampTime, time.toUTC, time.Unix. cbn. by rewrite shiftr_32.
  - intros Hempty Hnone. apply addPoint_project_no_time; [|done].
    intros [k v] Hin. unfold picks_time. cbn [fst snd].
    destruct (decide (InfluxMeasure.timefield measure = k)) as [Hk|Hk].
    + rewrite Hempty in Hk. subst k. rewrite (Hnone v Hin). apply andb_false_r.
    + rewrite (bool_decide_eq_false_2 _ Hk). by rewrite andb_false_r.
  - intros Hset Hid Hdistinct. split.
    + intros tv Hin. by apply (addPoint_project_picks E measure op (VTime tv)).
    + intros ts Hin. by apply (addPoint_project_picks E measure op (VMongoTimestamp ts)).
  - intros Hset Hmissing.
    assert ((addPoint_project E measure op).2 = Some (missing_time measure)) as Herr.
    { apply addPoint_project_no_time; [|done]. intros [k v] Hin.
      unfold picks_time. cbn [fst snd].
      destruct (decide (InfluxMeasure.timefield measure = k)) as [Hk|Hk].
      - destruct Hmissing as [Hid|Hnone].
        + rewrite <- Hk, Hid. by rewrite bool_decide_eq_true_2.
        + rewrite <- Hk in Hin. rewrite (Hnone v Hin). apply andb_false_r.
      - rewrite (bool_decide_eq_false_2 _ Hk). by rewrite andb_false_r. }
    split; [done|]. intros ctx w Hmeasure.
    destruct (addPoint_project_fails E measure op _ ctx w Herr Hmeasure)
      as (e & ctx' & w' & Hadd & Hopen & _ & He).
    by exists e, ctx', w'.
Qed.

(** C7 fails on the code.  With the time field [_id], a wall-clock time
    under that key is not used: the loop skips the document identifier, the
    projection fails and no point is added.  With an empty time field, a
    wall-clock time under the empty key replaces the time of the event. *)
Lemma addPoint_time_counterexample :
  InfluxMeasure.timefield (timed_by "_id") = "_id" ∧
  (addPoint_project accepting (timed_by "_id") (city_event 22 id_time_data)).2
  = Some "time field _id not found in document" ∧
  InfluxMeasure.timefield (timed_by "") = "" ∧
  p_t (addPoint_project accepting (timed_by "") (city_event 22 empty_key_data)).1.2
  = time.mkTime 1704067200 0 time.UTC ∧
  TimestampTime 22 = time.mkTime 0 0 time.UTC.
Proof. vm_compute. repeat split. Qed.



(** ** Projection: the tags and the fields of the point *)

Lemma string_append_assoc (a b c : string) : (a +:+ b) +:+ c = a +:+ b +:+ c.
Proof.
  induction a as [|x a IH]; [done|].
  change (String x ((a +:+ b) +:+ c) = String x (a +:+ b +:+ c)). by rewrite IH.
Qed.

Lemma dotted_not_id (k pk : string) : k +:+ "." +:+ pk ≠ "_id".
Proof.
  intros H. destruct k as [|a [|b [|c [|d k]]]]; cbv in H; congruence.
Qed.

Lemma leaves_elem (m : gtm.OpLogEntry) (k : string) (v : Value) (leaf : string * Value) :
  (k, v) ∈ m → leaf ∈ leaves_entry k v → leaf ∈ leaves m.
Proof.
  intros Hin Hleaf. unfold leaves. apply list_elem_of_bind. by exists (k, v).
Qed.

Lemma contributing_elem (data : gtm.OpLogEntry) (k : string) (v : Value) :
  (k, v) ∈ data → k ≠ "_id" → (k, v) ∈ contributing data.
Proof. intros Hin Hk. by apply list_elem_of_filter. Qed.

Lemma addPoint_key_ok (measure : InfluxMeasure.t) (data : gtm.OpLogEntry) (ns k : string)
    (v : Value) (acc : projection) :
  k ≠ "_id" → (k, v) ∈ leaves (contributing data) →
  point_keys_ok measure data (p_tags acc) (p_fields acc) →
  point_keys_ok measure data (p_tags (addPoint_key measure ns acc k v))
    (p_fields (addPoint_key measure ns acc k v)).
Proof.
  intros Hk Hleaf [Htags Hfields]. unfold addPoint_key.
  destruct (index_bool (InfluxMeasure.tags measure) k) eqn:Htag.
  - destruct (istagtype v) eqn:Hv; [|done]. cbn [p_tags p_fields]. split; [|done].
    intros k' s'. destruct (decide (k = k')) as [<-|Hne].
    + rewrite lookup_insert_eq. intros [= <-].
      by destruct v.
    + rewrite lookup_insert_ne by done. apply Htags.
  - destruct (index_bool (InfluxMeasure.fields measure) k) eqn:Hfield; [|done].
    destruct (isfieldtype v) eqn:Hv; [|done]. cbn [p_tags p_fields]. split; [done|].
    intros k' v'. destruct (decide (k = k')) as [<-|Hne].
    + rewrite lookup_insert_eq. by intros [= <-].
    + rewrite lookup_insert_ne by done. apply Hfields.
Qed.

Lemma addPoint_keys_ok (measure : InfluxMeasure.t) (data : gtm.OpLogEntry) (ns : string)
    (l : list (string * Value)) (acc : projection) :
  (∀ fk fv, (fk, fv) ∈ l → fk ≠ "_id" ∧ (fk, fv) ∈ leaves (contributing data)) →
  point_keys_ok measure data (p_tags acc) (p_fields acc) →
  point_keys_ok measure data
    (p_tags (foldl (λ acc '(fk, fv), addPoint_key measure ns acc fk fv) acc l))
    (p_fields (foldl (λ acc '(fk, fv), addPoint_key measure ns acc fk fv) acc l)).
Proof.
  revert acc. induction l as [|[fk fv] l IH]; intros acc Hl Hacc; [done|]. cbn [foldl].
  apply IH.
  - intros fk' fv' Hin. apply Hl. by right.
  - destruct (Hl fk fv) as [Hk Hleaf]; [by left|]. by apply addPoint_key_ok.
Qed.

Lemma addPoint_entry_ok (E : Collaborators) (measure : InfluxMeasure.t)
    (data : gtm.OpLogEntry) (ns : string) (kv : string * Value) (acc : projection) :
  range_ok E → kv ∈ data →
  point_keys_ok measure data (p_tags acc) (p_fields acc) →
  point_keys_ok measure data (p_tags (addPoint_entry E measure ns acc kv))
    (p_fields (addPoint_entry E measure ns acc kv)).
Proof.
  intros Hrange Hin Hacc. destruct kv as [k v]. unfold addPoint_entry.
  destruct (decide (k = "_id")) as [Hid|Hid]; [done|].
  assert ((k, v) ∈ contributing data) as Hcontrib by by apply contributing_elem.
  destruct v as [|s|n|bits|b|t|ts|child|tn];
    try (apply addPoint_key_ok; [done| |done];
         apply (leaves_elem _ k _ _ Hcontrib); by apply list_elem_of_singleton).
  - by destruct (decide (InfluxMeasure.timefield measure = k)).
  - by destruct (decide (InfluxMeasure.timefield measure = k)).
  - apply addPoint_keys_ok; [|done]. intros fk fv Hflat.
    apply (range_lookup E) in Hflat; [|done].
    destruct (flatmap_spec E (k +:+ ".") child Hrange) as [Hsound _].
    destruct (Hsound fk fv Hflat) as (pk & -> & Hleaf & _).
    rewrite string_append_assoc. split; [apply dotted_not_id|].
    apply (leaves_elem _ k _ _ Hcontrib). rewrite leaves_entry_doc.
    by apply (list_elem_of_fmap_2' _ _ (pk, fv)).
Qed.

Lemma addPoint_loop_ok (E : Collaborators) (measure : InfluxMeasure.t)
    (data : gtm.OpLogEntry) (ns : string) (l : gtm.OpLogEntry) (acc : projection) :
  range_ok E → (∀ kv, kv ∈ l → kv ∈ data) →
  point_keys_ok measure data (p_tags acc) (p_fields acc) →
  point_keys_ok measure data (p_tags (foldl (addPoint_entry E measure ns) acc l))
    (p_fields (foldl (addPoint_entry E measure ns) acc l)).
Proof.
  intros Hrange. revert acc. induction l as [|kv l IH]; intros acc Hl Hacc; [done|].
  cbn [foldl]. apply IH.
  - intros kv' Hin. apply Hl. by right.
  - apply addPoint_entry_ok; [done| |done]. apply Hl. by left.
Qed.

(** The document identifier has no part in the projection. *)
Lemma addPoint_loop_without_id (E : Collaborators) (measure : InfluxMeasure.t)
    (ns : string) (data : gtm.OpLogEntry) (acc : projection) :
  foldl (addPoint_entry E measure ns) acc (contributing data)
  = foldl (addPoint_entry E measure ns) acc data.
Proof.
  revert acc. unfold contributing.
  induction data as [|[k v] data IH]; intros acc; [done|].
  rewrite filter_cons. cbn [fst foldl].
  destruct (decide (k ≠ "_id")) as [Hk|Hk].
  - cbn [foldl]. apply IH.
  - rewrite IH. f_equal. unfold addPoint_entry.
    destruct (decide (k = "_id")); [done|]. by destruct Hk.
Qed.

Lemma addPoint_project_without_id (E : Collaborators) (measure : InfluxMeasure.t)
    (op : gtm.Op) :
  addPoint_project E measure (without_id op) = addPoint_project E measure op.
Proof.
  unfold addPoint_project, without_id, gtm.GetCollection.
  cbn [gtm.Data gtm.Namespace gtm.Collection gtm.Timestamp].
  by rewrite addPoint_loop_without_id.
Qed.

(** C9: the point that [addPoint] builds for an event under a measurement
    has as tags only keys of the tag set and as fields only keys of the
    field set of the measurement; each tag is a string leaf of the data and
    each field a leaf of the data that satisfies [isfieldtype]; the document
    identifier contributes nothing; the point has one field at least; and
    its name is the measure of the measurement when that is not empty, and
    the collection of the event otherwise. *)
Theorem addPoint_point_shape (E : Collaborators) (measure : InfluxMeasure.t)
    (op : gtm.Op) (pt : client.Point) :
  range_ok E →
  (addPoint_project E measure op).2 = None →
  client_NewPoint E (addPoint_project E measure op).1.1
    (p_tags (addPoint_project E measure op).1.2)
    (p_fields (addPoint_project E measure op).1.2)
    (p_t (addPoint_project E measure op).1.2) = inr pt →
  (∀ k s, client.Tags pt !! k = Some s →
     index_bool (InfluxMeasure.tags measure) k = true ∧
     (k, VString s) ∈ leaves (contributing (gtm.Data op))) ∧
  (∀ k v, client.Fields pt !! k = Some v →
     index_bool (InfluxMeasure.fields measure) k = true ∧
     isfieldtype v = true ∧
     (k, v) ∈ leaves (contributing (gtm.Data op))) ∧
  client.Tags pt !! "_id" = None ∧
  client.Fields pt !! "_id" = None ∧
  addPoint_project E measure (without_id op) = addPoint_project E measure op ∧
  (1 ≤ size (client.Fields pt))%nat ∧
  client.Name pt = (if decide (InfluxMeasure.measure measure = "")
                    then gtm.Collection op else InfluxMeasure.measure measure).
Proof.
  intros Hrange _ Hnew.
  assert (point_keys_ok measure (gtm.Data op)
            (p_tags (addPoint_project E measure op).1.2)
            (p_fields (addPoint_project E measure op).1.2)) as [Htags Hfields].
  { rewrite addPoint_project_acc. apply addPoint_loop_ok; [done|done|].
    cbn [p_tags p_fields]. split; intros k x Hk; by rewrite lookup_empty in Hk. }
  unfold client_NewPoint in Hnew.
  destruct (decide (size (p_fields (addPoint_project E measure op).1.2) = 0%nat))
    as [|Hsize]; [done|].
  destruct (NewPoint_err E _ _ _ _); [done|]. injection Hnew as <-.
  cbn [client.Tags client.Fields client.Name].
  split; [|split; [|split; [|split; [|split; [|split]]]]].
  - intros k s Hk. by destruct (Htags k s Hk) as (? & _ & ?).
  - intros k v Hk. by destruct (Hfields k v Hk) as (? & _ & ? & ?).
  - destruct (p_tags _ !! "_id") as [s|] eqn:Hk; [|done].
    by destruct (Htags _ s Hk) as (_ & ? & _).
  - destruct (p_fields _ !! "_id") as [v|] eqn:Hk; [|done].
    by destruct (Hfields _ v Hk) as (_ & ? & _).
  - apply addPoint_project_without_id.
  - lia.
  - apply addPoint_project_name.
Qed.

Lemma addPoint_point_shape_witness :
  range_ok accepting ∧
  client_NewPoint accepting "city" {["region" := "NA"]}
    {["temp" := VFloat64 4626885667169763328]} (TimestampTime 22) = inr (city_point 22) ∧
  client.Tags (city_point 22) !! "_id" = None ∧
  client.Fields (city_point 22) !! "_id" = None ∧
  (1 ≤ size (client.Fields (city_point 22%Z)))%nat ∧
  client.Name (city_point 22) = "city".
Proof.
  assert ((addPoint_project accepting (newInfluxMeasure weather)
             (city_event 22 city_data)).2 = None) as Herr by (vm_compute; reflexivity).
  assert (client_NewPoint accepting
            (addPoint_project accepting (newInfluxMeasure weather)
               (city_event 22 city_data)).1.1
            (p_tags (addPoint_project accepting (newInfluxMeasure weather)
                       (city_event 22 city_data)).1.2)
            (p_fields (addPoint_project accepting (newInfluxMeasure weather)
                         (city_event 22 city_data)).1.2)
            (p_t (addPoint_project accepting (newInfluxMeasure weather)
                    (city_event 22 city_data)).1.2) = inr (city_point 22)) as Hnew
    by (vm_compute; reflexivity).
  destruct (addPoint_point_shape accepting (newInfluxMeasure weather)
              (city_event 22 city_data) (city_point 22) range_ok_accepting Herr Hnew)
    as (_ & _ & Htag & Hfield & _ & Hsize & Hname).
  split; [exact range_ok_accepting|]. split; [vm_compute; reflexivity|].
  split; [exact Htag|]. split; [exact Hfield|]. split; [exact Hsize|]. exact Hname.
Defined.

(** The point that [addPoint] leaves in the open batch is the one that
    [client_NewPoint] builds from the projection of the event. *)
Lemma addPoint_adds_projection (E : Collaborators) (op : gtm.Op) (ctx ctx' : InfluxCtx.t)
    (w w' : World) (a : option error) (measure : InfluxMeasure.t) :
  InfluxCtx.measures ctx !! gtm.Namespace op = Some measure →
  addPoint E op ctx w = Done a ctx' w' →
  open_points ctx' (gtm.Namespace op) = S (open_points ctx (gtm.Namespace op)) →
  (addPoint_project E measure op).2 = None ∧
  ∃ pt bp,
    client_NewPoint E (addPoint_project E measure op).1.1
      (p_tags (addPoint_project E measure op).1.2)
      (p_fields (addPoint_project E measure op).1.2)
      (p_t (addPoint_project E measure op).1.2) = inr pt ∧
    InfluxCtx.m ctx' !! gtm.Namespace op = Some (client.AddPoint pt bp).
Proof.
  intros Hmeasure Hadd Hopen.
  destruct (setupDatabase_spec E op ctx w measure Hmeasure)
    as (a1 & ctx1 & w1 & Hsetup & _ & _ & _ & _ & Hsame & _).
  destruct (addPoint_cases E op ctx w measure Hmeasure)
    as (a1' & ctx1' & w1' & Hsetup' & Hcases).
  rewrite Hsetup in Hsetup'. injection Hsetup' as <- <- <-.
  specialize (Hsame (gtm.Namespace op)).
  destruct a1 as [e|].
  { rewrite Hcases in Hadd. injection Hadd as <- <- <-. lia. }
  cbv zeta in Hcases. destruct (addPoint_project E measure op).2 as [e|].
  { rewrite Hcases in Hadd. injection Hadd as <- <- <-. lia. }
  split; [done|]. destruct (client_NewPoint E _ _ _ _) as [e|pt].
  { rewrite Hcases in Hadd. injection Hadd as <- <- <-. lia. }
  destruct Hcases as (bp & Hbp & Hcases). rewrite Hcases in Hadd.
  exists pt, bp. split; [done|]. destruct (bool_decide _).
  - apply writeBatch_empties in Hadd. unfold open_points in Hopen.
    rewrite Hadd, lookup_empty in Hopen. lia.
  - injection Hadd as <- <- <-. unfold with_point.
    cbn [InfluxCtx.m InfluxCtx.set_m InfluxCtx.set_lastTs]. apply lookup_insert_eq.
Qed.

(** ** Further properties *)

(** X1: every flush returns and leaves the worker without open batches,
    whether the writes succeeded or not. *)
Theorem writeBatch_leaves_no_batch (E : Collaborators) (ctx : InfluxCtx.t) (w : World) :
  ∃ a ctx' w', writeBatch E ctx w = Done a ctx' w' ∧ InfluxCtx.m ctx' = ∅.
Proof.
  destruct (writeBatch E ctx w) as [a ctx' w'|] eqn:Hflush.
  - exists a, ctx', w'. split; [done|]. by apply (writeBatch_empties E ctx ctx' w w' a).
  - exfalso.
    destruct (writeBatch_cases E ctx w) as (logs & _ & [(? & ? & ? & ? & ? & _ & H)|H]).
    + congruence.
    + destruct (saveTs_spec E (InfluxCtx.set_m ∅ ctx)
                  (mkWorld (store w)
                     (trace w ++ writes_of (range E _ (InfluxCtx.m ctx)) ++ logs)))
        as (? & ? & ? & ? & Hsave & _).
      congruence.
Qed.

(** Scenario S1 of the specification: the event on [weather.city] with
    the data [_id], [region] and [temp] gives the point [city] with the tag
    [region], the field [temp] and the time of the event, in a new batch for
    the database [weather], which is created first. *)
Theorem addPoint_scenario_S1 :
  addPoint accepting (city_event 22 city_data)
    (worker_of (config_of [weather] false) 0) empty_world
  = Done None (city_worker false 22)
      (mkWorld ∅ [CallQuery ("CREATE DATABASE " +:+ dquote +:+ "weather" +:+ dquote)
                    None None]).
Proof. vm_compute. reflexivity. Qed.

(** *** Flushes, once more *)

Lemma saveTs_frame (E : Collaborators) (ctx ctx' : InfluxCtx.t) (w w' : World)
    (a : option error) :
  saveTs E ctx w = Done a ctx' w' →
  InfluxCtx.m ctx' = InfluxCtx.m ctx ∧
  InfluxCtx.dbs ctx' = InfluxCtx.dbs ctx ∧
  InfluxCtx.measures ctx' = InfluxCtx.measures ctx ∧
  InfluxCtx.config ctx' = InfluxCtx.config ctx.
Proof.
  unfold saveTs. destruct (Resume _ && _).
  - destruct (SaveTimestamp E w _ _) as [err w1]. by intros [= _ <- _].
  - by intros [= _ <- _].
Qed.

Lemma writeBatch_frame (E : Collaborators) (ctx ctx' : InfluxCtx.t) (w w' : World)
    (a : option error) :
  writeBatch E ctx w = Done a ctx' w' →
  InfluxCtx.dbs ctx' = InfluxCtx.dbs ctx ∧
  InfluxCtx.measures ctx' = InfluxCtx.measures ctx ∧
  InfluxCtx.config ctx' = InfluxCtx.config ctx.
Proof.
  destruct (writeBatch_cases E ctx w) as (logs & _ & [(pre & k & bp & post & e & _ & ->)| ->]).
  - by intros [= _ <- _].
  - intros (_ & ? & ? & ?)%saveTs_frame. done.
Qed.

Lemma writeBatch_done (E : Collaborators) (ctx : InfluxCtx.t) (w : World) :
  ∃ a ctx' w', writeBatch E ctx w = Done a ctx' w'.
Proof.
  destruct (writeBatch_cases E ctx w) as (logs & _ & [(pre & k & bp & post & e & _ & ->)| ->]).
  - by eexists _, _, _.
  - destruct (saveTs_spec E (InfluxCtx.set_m ∅ ctx)
                (mkWorld (store w)
                   (trace w ++ writes_of (range E _ (InfluxCtx.m ctx)) ++ logs)))
      as (a & ctx' & w' & calls & -> & _).
    by eexists _, _, _.
Qed.

Lemma range_empty (E : Collaborators) (A : Type) :
  range_ok E → range E A ∅ = [].
Proof.
  intros Hrange. apply Permutation_nil_r. by rewrite (Hrange A ∅), map_to_list_empty.
Qed.

(** A flush without open batches writes nothing and goes on to [saveTs]. *)
Lemma writeBatch_no_batch (E : Collaborators) (ctx : InfluxCtx.t) (w : World) :
  range_ok E → InfluxCtx.m ctx = ∅ → writeBatch E ctx w = saveTs E ctx w.
Proof.
  intros Hrange Hm. unfold writeBatch. rewrite Hm, range_empty by done.
  cbn [writeBatch_loop].
  assert (InfluxCtx.set_m ∅ ctx = ctx) as -> by (destruct ctx; cbn in *; by subst).
  by destruct (Verbose _).
Qed.

(** X3: after a flush in which a write failed, the next flush of the same
    worker, when no point was added in between, writes no batch and saves as
    checkpoint the timestamp that was tracked before the failed flush, if
    resume is enabled and that timestamp is not 0: the checkpoint passes
    points that were never written. *)
Theorem writeBatch_after_failed_flush (E : Collaborators) (ctx ctx' : InfluxCtx.t)
    (w w' : World) (a : option error) (calls : list Call)
    (bp : client.BatchPoints) (e : error) :
  range_ok E →
  writeBatch E ctx w = Done a ctx' w' →
  trace w' = trace w ++ calls →
  CallWrite bp (Some e) ∈ calls →
  ∃ a2 ctx2 w2,
    writeBatch E ctx' w' = Done a2 ctx2 w2 ∧
    trace w2 = trace w' ++
      (if Resume (InfluxCtx.config ctx) && negb (bool_decide (InfluxCtx.lastTs ctx = 0))
       then [CallUpsertId Name "resume" (ResumeName (InfluxCtx.config ctx))
               (InfluxCtx.lastTs ctx) a2]
       else []).
Proof.
  intros Hrange Hflush Htrace Hfailed.
  assert (InfluxCtx.m ctx' = ∅ ∧ InfluxCtx.lastTs ctx' = InfluxCtx.lastTs ctx) as [Hm Hts].
  { destruct (writeBatch_cases E ctx w)
      as (logs & Hlogs & [(pre & k & bp' & post & e' & _ & Heq)|Heq]);
      rewrite Heq in Hflush.
    - by injection Hflush as <- <- <-.
    - exfalso.
      destruct (saveTs_spec E (InfluxCtx.set_m ∅ ctx)
                  (mkWorld (store w)
                     (trace w ++ writes_of (range E _ (InfluxCtx.m ctx)) ++ logs)))
        as (a1 & ctx1 & w1 & calls1 & Hsave & Htrace1 & _ & Hcalls1).
      rewrite Hsave in Hflush. injection Hflush as <- <- <-.
      rewrite Htrace1 in Htrace. cbn [trace] in Htrace.
      rewrite <- !app_assoc in Htrace. apply app_inv_head in Htrace. subst calls.
      rewrite !elem_of_app in Hfailed. destruct Hfailed as [Hin|[Hin|Hin]].
      + apply writes_of_elem in Hin as (? & ? & _ & [=]).
      + destruct Hlogs as [->|[n ->]]; [by apply elem_of_nil in Hin|].
        by apply list_elem_of_singleton in Hin.
      + destruct (Resume _ && _).
        * destruct Hcalls1 as (-> & _). by apply list_elem_of_singleton in Hin.
        * destruct Hcalls1 as (-> & _). by apply elem_of_nil in Hin. }
  destruct (writeBatch_frame E ctx ctx' w w' a Hflush) as (_ & _ & Hconfig).
  rewrite (writeBatch_no_batch E ctx' w' Hrange Hm).
  destruct (saveTs_spec E ctx' w') as (a2 & ctx2 & w2 & calls2 & -> & Htr2 & _ & Hcalls2).
  exists a2, ctx2, w2. split; [done|]. rewrite Htr2. f_equal.
  rewrite Hconfig, Hts in Hcalls2.
  destruct (Resume _ && _).
  - by destruct Hcalls2 as (-> & _).
  - by destruct Hcalls2 as (-> & _).
Qed.

Lemma writeBatch_after_failed_flush_witness :
  range_ok refusing_sink ∧
  writeBatch refusing_sink (city_worker true 22) empty_world
  = Done (Some "timeout") (InfluxCtx.set_m ∅ (city_worker true 22))
      (mkWorld ∅ [CallWrite (city_batch 22) (Some "timeout")]) ∧
  ∃ a2 ctx2 w2,
    writeBatch refusing_sink (InfluxCtx.set_m ∅ (city_worker true 22))
      (mkWorld ∅ [CallWrite (city_batch 22) (Some "timeout")]) = Done a2 ctx2 w2 ∧
    trace w2 = [CallWrite (city_batch 22) (Some "timeout");
                CallUpsertId Name "resume" "default" 22 a2].
Proof.
  assert (range_ok refusing_sink) as Hrange by by intros A mp.
  assert (writeBatch refusing_sink (city_worker true 22) empty_world
          = Done (Some "timeout") (InfluxCtx.set_m ∅ (city_worker true 22))
              (mkWorld ∅ [CallWrite (city_batch 22) (Some "timeout")])) as Hflush
    by (vm_compute; reflexivity).
  split; [exact Hrange|]. split; [exact Hflush|].
  refine (writeBatch_after_failed_flush refusing_sink _ _ _ _ _
            [CallWrite (city_batch 22) (Some "timeout")] (city_batch 22) "timeout"
            Hrange Hflush eq_refl _).
  by apply list_elem_of_singleton.
Defined.



(** *** Adding a point, once more *)

Lemma createDatabase_cases (E : Collaborators) (db : string) (ctx : InfluxCtx.t) (w : World) :
  (createDatabase E db ctx w = Done None ctx w ∧
   (InfluxAutoCreateDB (InfluxCtx.config ctx) = false ∨
    index_bool (InfluxCtx.dbs ctx) db = true)) ∨
  (InfluxAutoCreateDB (InfluxCtx.config ctx) = true ∧
   index_bool (InfluxCtx.dbs ctx) db = false ∧
   ∃ err response_err,
     client_Query E w ("CREATE DATABASE " +:+ dquote +:+ db +:+ dquote)
     = (err, response_err) ∧
     let w' := record (CallQuery ("CREATE DATABASE " +:+ dquote +:+ db +:+ dquote)
                         err response_err) w in
     match err, response_err with
     | None, None =>
         createDatabase E db ctx w
         = Done None (InfluxCtx.set_dbs (<[db := true]> (InfluxCtx.dbs ctx)) ctx) w'
     | Some e, _ => createDatabase E db ctx w = Done (Some e) ctx w'
     | None, Some e => createDatabase E db ctx w = Done (Some e) ctx w'
     end).
Proof.
  unfold createDatabase.
  destruct (InfluxAutoCreateDB (InfluxCtx.config ctx)); [|left; split; [done | by left]].
  destruct (index_bool (InfluxCtx.dbs ctx) db); [left; split; [done | by right]|].
  right. split; [done|]. split; [done|]. cbn [negb].
  destruct (client_Query E w _) as [err response_err].
  exists err, response_err. split; [done|]. by destruct err, response_err.
Qed.

(** What [setupDatabase] does when no batch is open for the namespace of the
    event. *)
Lemma setupDatabase_opens (E : Collaborators) (op : gtm.Op) (ctx : InfluxCtx.t)
    (w : World) (measure : InfluxMeasure.t) :
  InfluxCtx.measures ctx !! gtm.Namespace op = Some measure →
  InfluxCtx.m ctx !! gtm.Namespace op = None →
  (∃ e, setupDatabase E op ctx w = Done (Some e) ctx w) ∨
  ∃ bp,
    client.Points bp = [] ∧
    setupDatabase E op ctx w
    = createDatabase E (gtm.GetDatabase op)
        (InfluxCtx.set_m (<[gtm.Namespace op := bp]> (InfluxCtx.m ctx)) ctx) w.
Proof.
  intros Hmeasure Hopen. unfold setupDatabase. rewrite Hopen, Hmeasure.
  unfold client_NewBatchPoints. destruct (NewBatchPoints_err E _) as [e|].
  - left. by exists e.
  - right. eexists. split; [|reflexivity]. reflexivity.
Qed.

Lemma setupDatabase_frame (E : Collaborators) (op : gtm.Op) (ctx ctx' : InfluxCtx.t)
    (w w' : World) (a : option error) (measure : InfluxMeasure.t) :
  InfluxCtx.measures ctx !! gtm.Namespace op = Some measure →
  setupDatabase E op ctx w = Done a ctx' w' →
  open_batch_points ctx' (gtm.Namespace op) = open_batch_points ctx (gtm.Namespace op) ∧
  (∀ ns, ns ≠ gtm.Namespace op → InfluxCtx.m ctx' !! ns = InfluxCtx.m ctx !! ns).
Proof.
  intros Hmeasure Hsetup.
  destruct (InfluxCtx.m ctx !! gtm.Namespace op) as [bp|] eqn:Hopen.
  { unfold setupDatabase in Hsetup. rewrite Hopen in Hsetup. by injection Hsetup as <- <- <-. }
  destruct (setupDatabase_opens E op ctx w measure Hmeasure Hopen)
    as [[e He]|(bp & Hempty & Hcreate)].
  { rewrite He in Hsetup. by injection Hsetup as <- <- <-. }
  rewrite Hcreate in Hsetup.
  destruct (createDatabase_spec E (gtm.GetDatabase op)
              (InfluxCtx.set_m (<[gtm.Namespace op := bp]> (InfluxCtx.m ctx)) ctx) w)
    as (a' & ctx'' & w'' & Heq & Hm & _).
  rewrite Heq in Hsetup. injection Hsetup as <- <- <-.
  cbn [InfluxCtx.m InfluxCtx.set_m] in Hm. unfold open_batch_points. rewrite Hm. split.
  - by rewrite lookup_insert_eq, Hopen.
  - intros ns Hns. by rewrite lookup_insert_ne.
Qed.

(** X5: [addPoint] always returns: the two places where it would
    dereference a missing measurement or a missing batch are never reached. *)
Theorem addPoint_returns (E : Collaborators) (op : gtm.Op) (ctx : InfluxCtx.t)
    (w : World) :
  ∃ a ctx' w', addPoint E op ctx w = Done a ctx' w'.
Proof.
  destruct (InfluxCtx.measures ctx !! gtm.Namespace op) as [measure|] eqn:Hmeasure.
  2:{ unfold addPoint. rewrite Hmeasure. by eexists _, _, _. }
  destruct (addPoint_cases E op ctx w measure Hmeasure)
    as (a1 & ctx1 & w1 & _ & Hcases).
  destruct a1 as [e|]; [by eexists _, _, _|]. cbv zeta in Hcases.
  destruct (addPoint_project E measure op).2 as [e|]; [by eexists _, _, _|].
  destruct (client_NewPoint E _ _ _ _) as [e|pt]; [by eexists _, _, _|].
  destruct Hcases as (bp & _ & ->). destruct (bool_decide _); [|by eexists _, _, _].
  apply writeBatch_done.
Qed.

(** X6: when [addPoint] leaves a new point in the open batch of the
    namespace of the event, the batch holds the points it held, in their
    order, followed by the new point, and the open batches of the other
    namespaces are as they were. *)
Theorem addPoint_appends_point (E : Collaborators) (op : gtm.Op) (ctx ctx' : InfluxCtx.t)
    (w w' : World) (a : option error) :
  addPoint E op ctx w = Done a ctx' w' →
  open_points ctx' (gtm.Namespace op) = S (open_points ctx (gtm.Namespace op)) →
  (∃ pt, open_batch_points ctx' (gtm.Namespace op)
         = open_batch_points ctx (gtm.Namespace op) ++ [pt]) ∧
  (∀ ns, ns ≠ gtm.Namespace op → InfluxCtx.m ctx' !! ns = InfluxCtx.m ctx !! ns).
Proof.
  intros Hadd Hopen.
  destruct (InfluxCtx.measures ctx !! gtm.Namespace op) as [measure|] eqn:Hmeasure.
  2:{ unfold addPoint in Hadd. rewrite Hmeasure in Hadd. injection Hadd as <- <- <-. lia. }
  destruct (setupDatabase_spec E op ctx w measure Hmeasure)
    as (a1 & ctx1 & w1 & Hsetup & _ & _ & _ & _ & Hsame & _).
  destruct (setupDatabase_frame E op ctx ctx1 w w1 a1 measure Hmeasure Hsetup)
    as [Hpoints Hothers].
  destruct (addPoint_cases E op ctx w measure Hmeasure)
    as (a1' & ctx1' & w1' & Hsetup' & Hcases).
  rewrite Hsetup in Hsetup'. injection Hsetup' as <- <- <-.
  specialize (Hsame (gtm.Namespace op)).
  destruct a1 as [e|].
  { rewrite Hcases in Hadd. injection Hadd as <- <- <-. lia. }
  cbv zeta in Hcases. destruct (addPoint_project E measure op).2 as [e|].
  { rewrite Hcases in Hadd. injection Hadd as <- <- <-. lia. }
  destruct (client_NewPoint E _ _ _ _) as [e|pt].
  { rewrite Hcases in Hadd. injection Hadd as <- <- <-. lia. }
  destruct Hcases as (bp & Hbp & Hcases). rewrite Hcases in Hadd.
  destruct (bool_decide _).
  - apply writeBatch_empties in Hadd. unfold open_points in Hopen.
    rewrite Hadd, lookup_empty in Hopen. lia.
  - injection Hadd as <- <- <-. split.
    + exists pt. rewrite <- Hpoints. unfold open_batch_points, with_point.
      cbn [InfluxCtx.m InfluxCtx.set_m InfluxCtx.set_lastTs].
      by rewrite lookup_insert_eq, Hbp.
    + intros ns Hns. unfold with_point.
      cbn [InfluxCtx.m InfluxCtx.set_m InfluxCtx.set_lastTs].
      rewrite lookup_insert_ne by done. by apply Hothers.
Qed.

Lemma addPoint_appends_point_witness :
  let op := city_event (Z.shiftl 3 32) city_data in
  let ctx := city_worker false (Z.shiftl 5 32) in
  let ctx' := with_point op (city_point (Z.shiftl 3 32)) (city_batch (Z.shiftl 5 32)) ctx in
  addPoint accepting op ctx empty_world = Done None ctx' empty_world ∧
  ∃ pt, open_batch_points ctx' "weather.city" = [city_point (Z.shiftl 5 32)] ++ [pt].
Proof.
  intros op ctx ctx'.
  assert (addPoint accepting op ctx empty_world = Done None ctx' empty_world) as Hadd
    by (vm_compute; reflexivity).
  assert (open_points ctx' (gtm.Namespace op) = S (open_points ctx (gtm.Namespace op)))
    as Hopen by (vm_compute; reflexivity).
  split; [exact Hadd|].
  exact (proj1 (addPoint_appends_point accepting op ctx ctx' empty_world empty_world
                  None Hadd Hopen)).
Defined.

(** X7: [addPoint] keeps every open batch below the buffer size: when
    every open batch of the worker holds fewer points than
    [InfluxBufferSize] (fewer than one when that size is zero or negative),
    the same holds after [addPoint]; a batch that reaches the size is flushed
    in the same call. *)
Theorem addPoint_keeps_batches_below_buffer (E : Collaborators) (op : gtm.Op)
    (ctx ctx' : InfluxCtx.t) (w w' : World) (a : option error) :
  (∀ ns, (Z.of_nat (open_points ctx ns)
          < Z.max 1 (InfluxBufferSize (InfluxCtx.config ctx)))%Z) →
  addPoint E op ctx w = Done a ctx' w' →
  InfluxCtx.config ctx' = InfluxCtx.config ctx ∧
  ∀ ns, (Z.of_nat (open_points ctx' ns)
         < Z.max 1 (InfluxBufferSize (InfluxCtx.config ctx')))%Z.
Proof.
  intros Hsmall Hadd.
  destruct (InfluxCtx.measures ctx !! gtm.Namespace op) as [measure|] eqn:Hmeasure.
  2:{ unfold addPoint in Hadd. rewrite Hmeasure in Hadd. by injection Hadd as <- <- <-. }
  destruct (setupDatabase_spec E op ctx w measure Hmeasure)
    as (a1 & ctx1 & w1 & Hsetup & _ & Hconfig & _ & _ & Hsame & _).
  destruct (addPoint_cases E op ctx w measure Hmeasure)
    as (a1' & ctx1' & w1' & Hsetup' & Hcases).
  rewrite Hsetup in Hsetup'. injection Hsetup' as <- <- <-.
  assert (∀ ns, (Z.of_nat (open_points ctx1 ns)
                 < Z.max 1 (InfluxBufferSize (InfluxCtx.config ctx1)))%Z) as Hsmall1.
  { intros ns. rewrite Hsame, Hconfig. apply Hsmall. }
  destruct a1 as [e|].
  { rewrite Hcases in Hadd. by injection Hadd as <- <- <-. }
  cbv zeta in Hcases. destruct (addPoint_project E measure op).2 as [e|].
  { rewrite Hcases in Hadd. by injection Hadd as <- <- <-. }
  destruct (client_NewPoint E _ _ _ _) as [e|pt].
  { rewrite Hcases in Hadd. by injection Hadd as <- <- <-. }
  destruct Hcases as (bp & Hbp & Hcases). rewrite Hcases in Hadd.
  destruct (bool_decide _) eqn:Hfull.
  - destruct (writeBatch_frame E _ _ _ _ _ Hadd) as (_ & _ & Hconfig').
    apply writeBatch_empties in Hadd. split.
    + by rewrite Hconfig'.
    + intros ns. unfold open_points. rewrite Hadd, lookup_empty. lia.
  - apply bool_decide_eq_false in Hfull. injection Hadd as <- <- <-. split; [done|].
    intros ns. unfold open_points, with_point.
    cbn [InfluxCtx.m InfluxCtx.set_m InfluxCtx.set_lastTs InfluxCtx.config].
    destruct (decide (gtm.Namespace op = ns)) as [<-|Hns].
    + rewrite lookup_insert_eq. lia.
    + rewrite lookup_insert_ne by done. apply (Hsmall1 ns).
Qed.

Lemma addPoint_keeps_batches_below_buffer_witness :
  let op := city_event (Z.shiftl 3 32) city_data in
  let ctx := city_worker false (Z.shiftl 5 32) in
  let ctx' := with_point op (city_point (Z.shiftl 3 32)) (city_batch (Z.shiftl 5 32)) ctx in
  addPoint accepting op ctx empty_world = Done None ctx' empty_world ∧
  InfluxBufferSize (InfluxCtx.config ctx) = 1000 ∧
  ∀ ns, (Z.of_nat (open_points ctx' ns)
         < Z.max 1 (InfluxBufferSize (InfluxCtx.config ctx')))%Z.
Proof.
  intros op ctx ctx'.
  assert (addPoint accepting op ctx empty_world = Done None ctx' empty_world) as Hadd
    by (vm_compute; reflexivity).
  split; [exact Hadd|]. split; [reflexivity|].
  refine (proj2 (addPoint_keeps_batches_below_buffer accepting op ctx ctx'
                   empty_world empty_world None _ Hadd)).
  intros ns. unfold open_points, ctx, city_worker. cbn [InfluxCtx.m InfluxCtx.set_m InfluxCtx.set_dbs].
  destruct (decide ("weather.city" = ns)) as [<-|Hns].
  - rewrite lookup_singleton_eq. cbn. lia.
  - rewrite lookup_singleton_ne by done. cbn. lia.
Defined.

(** X8: when [setupDatabase] fails after it has asked the sink to create
    the database, the empty batch that it has opened stays open and the
    database is not recorded as created; until the next flush,
    [setupDatabase] does nothing more for an event of that namespace, so the
    creation is not tried again. *)
Theorem setupDatabase_failed_create_not_retried (E : Collaborators) (op : gtm.Op)
    (ctx ctx' : InfluxCtx.t) (w w' : World) (e : error) (measure : InfluxMeasure.t) :
  InfluxCtx.measures ctx !! gtm.Namespace op = Some measure →
  setupDatabase E op ctx w = Done (Some e) ctx' w' →
  trace w' ≠ trace w →
  (∃ bp, InfluxCtx.m ctx' !! gtm.Namespace op = Some bp ∧ client.Points bp = []) ∧
  index_bool (InfluxCtx.dbs ctx') (gtm.GetDatabase op) = false ∧
  ∀ op2 w2, gtm.Namespace op2 = gtm.Namespace op →
            setupDatabase E op2 ctx' w2 = Done None ctx' w2.
Proof.
  intros Hmeasure Hsetup Hcalled.
  destruct (InfluxCtx.m ctx !! gtm.Namespace op) as [bp|] eqn:Hopen.
  { unfold setupDatabase in Hsetup. by rewrite Hopen in Hsetup. }
  destruct (setupDatabase_opens E op ctx w measure Hmeasure Hopen)
    as [[e' He]|(bp & Hempty & Hcreate)].
  { rewrite He in Hsetup. by injection Hsetup as _ <- <-. }
  rewrite Hcreate in Hsetup.
  destruct (createDatabase_cases E (gtm.GetDatabase op)
              (InfluxCtx.set_m (<[gtm.Namespace op := bp]> (InfluxCtx.m ctx)) ctx) w)
    as [[Hnone _]|(_ & Hdb & err & response_err & _ & Hcreated)].
  { by rewrite Hnone in Hsetup. }
  cbv zeta in Hcreated.
  assert (ctx' = InfluxCtx.set_m (<[gtm.Namespace op := bp]> (InfluxCtx.m ctx)) ctx)
    as ->.
  { destruct err as [e1|]; [|destruct response_err as [e2|]];
      rewrite Hcreated in Hsetup; by injection Hsetup. }
  split; [|split; [done|]].
  - exists bp. cbn [InfluxCtx.m InfluxCtx.set_m]. by rewrite lookup_insert_eq.
  - intros op2 w2 Hns. unfold setupDatabase. rewrite Hns.
    cbn [InfluxCtx.m InfluxCtx.set_m]. by rewrite lookup_insert_eq.
Qed.

Lemma setupDatabase_failed_create_not_retried_witness :
  let op := city_event 22 city_data in
  let ctx := worker_of (config_of [weather] false) 0 in
  let bp := client.mkBatchPoints (client.mkBatchPointsConfig "s" "weather" "") [] in
  let ctx' := InfluxCtx.set_m {["weather.city" := bp]} ctx in
  let w' := mkWorld ∅ [CallQuery ("CREATE DATABASE " +:+ dquote +:+ "weather" +:+ dquote)
                         (Some "forbidden") None] in
  setupDatabase refusing_create op ctx empty_world = Done (Some "forbidden") ctx' w' ∧
  index_bool (InfluxCtx.dbs ctx') "weather" = false ∧
  ∀ op2 w2, gtm.Namespace op2 = "weather.city" →
            setupDatabase refusing_create op2 ctx' w2 = Done None ctx' w2.
Proof.
  intros op ctx bp ctx' w'.
  assert (setupDatabase refusing_create op ctx empty_world
          = Done (Some "forbidden") ctx' w') as Hsetup by (vm_compute; reflexivity).
  split; [exact Hsetup|].
  refine (proj2 (setupDatabase_failed_create_not_retried refusing_create op ctx ctx'
                   empty_world w' "forbidden" (newInfluxMeasure weather) _ Hsetup _)).
  - vm_compute; reflexivity.
  - discriminate.
Defined.

Lemma addPoint_key_tag_no_field (measure : InfluxMeasure.t) (ns k fk : string)
    (fv : Value) (acc : projection) :
  index_bool (InfluxMeasure.tags measure) k = true →
  p_fields acc !! k = None →
  p_fields (addPoint_key measure ns acc fk fv) !! k = None.
Proof.
  intros Htag Hacc. unfold addPoint_key.
  destruct (index_bool (InfluxMeasure.tags measure) fk) eqn:Hfk.
  { by destruct (istagtype fv). }
  destruct (index_bool (InfluxMeasure.fields measure) fk); [|done].
  destruct (isfieldtype fv); [|done]. cbn [p_fields].
  rewrite lookup_insert_ne; [done|]. intros ->. congruence.
Qed.

Lemma addPoint_keys_tag_no_field (measure : InfluxMeasure.t) (ns k : string)
    (l : list (string * Value)) (acc : projection) :
  index_bool (InfluxMeasure.tags measure) k = true →
  p_fields acc !! k = None →
  p_fields (foldl (λ acc '(fk, fv), addPoint_key measure ns acc fk fv) acc l) !! k = None.
Proof.
  intros Htag. revert acc. induction l as [|[fk fv] l IH]; intros acc Hacc; [done|].
  cbn [foldl]. apply IH. by apply addPoint_key_tag_no_field.
Qed.

Lemma addPoint_entry_tag_no_field (E : Collaborators) (measure : InfluxMeasure.t)
    (ns k : string) (kv : string * Value) (acc : projection) :
  index_bool (InfluxMeasure.tags measure) k = true →
  p_fields acc !! k = None →
  p_fields (addPoint_entry E measure ns acc kv) !! k = None.
Proof.
  intros Htag Hacc. destruct kv as [k0 v]. unfold addPoint_entry.
  destruct (decide (k0 = "_id")); [done|].
  destruct v; try (by apply addPoint_key_tag_no_field).
  - by destruct (decide _).
  - by destruct (decide _).
  - by apply addPoint_keys_tag_no_field.
Qed.

Lemma addPoint_loop_tag_no_field (E : Collaborators) (measure : InfluxMeasure.t)
    (ns k : string) (l : gtm.OpLogEntry) (acc : projection) :
  index_bool (InfluxMeasure.tags measure) k = true →
  p_fields acc !! k = None →
  p_fields (foldl (addPoint_entry E measure ns) acc l) !! k = None.
Proof.
  intros Htag. revert acc. induction l as [|kv l IH]; intros acc Hacc; [done|].
  cbn [foldl]. apply IH. by apply addPoint_entry_tag_no_field.
Qed.

(** X9: a key that the measurement lists as a tag is never a field of the
    point, also when the measurement lists it as a field too, and whatever
    the type of its value. *)
Theorem addPoint_tag_key_is_no_field (E : Collaborators) (measure : InfluxMeasure.t)
    (op : gtm.Op) (k : string) :
  index_bool (InfluxMeasure.tags measure) k = true →
  p_fields (addPoint_project E measure op).1.2 !! k = None.
Proof.
  intros Htag. rewrite addPoint_project_acc.
  by apply addPoint_loop_tag_no_field.
Qed.

Lemma addPoint_tag_key_is_no_field_witness :
  let measure :=
    newInfluxMeasure (mkMeasureSettings "weather.city" "" "" "s" "" ["region"]
                        ["region"; "temp"]) in
  index_bool (InfluxMeasure.tags measure) "region" = true ∧
  index_bool (InfluxMeasure.fields measure) "region" = true ∧
  p_fields (addPoint_project accepting measure (city_event 22 city_data)).1.2 !! "region"
  = None.
Proof.
  intros measure.
  assert (index_bool (InfluxMeasure.tags measure) "region" = true) as Htag
    by (vm_compute; reflexivity).
  split; [exact Htag|]. split; [vm_compute; reflexivity|].
  exact (addPoint_tag_key_is_no_field accepting measure (city_event 22 city_data)
           "region" Htag).
Defined.

(** *** Times, filters and the checkpoint *)

(** X10: [TimestampTime] drops the ordinal of an oplog timestamp: for
    seconds [s] that fit in 32 bits with their sign and an ordinal below
    [2^32], the timestamp [(s << 32) + i] is a 64-bit integer and gives the
    UTC time [s] seconds after the epoch, so the events of one second get the
    same time. *)
Theorem TimestampTime_drops_ordinal (s i : Z) :
  (- 2 ^ 31 ≤ s < 2 ^ 31)%Z →
  (0 ≤ i < 2 ^ 32)%Z →
  (- 2 ^ 63 ≤ Z.shiftl s 32 + i < 2 ^ 63)%Z ∧
  TimestampTime (Z.shiftl s 32 + i) = time.mkTime s 0 time.UTC.
Proof.
  intros Hs Hi. rewrite Z.shiftl_mul_pow2 by lia. split; [lia|].
  unfold TimestampTime, time.toUTC, time.Unix. cbn [time.sec time.nsec].
  f_equal. rewrite shiftr_32.
  rewrite Z.div_add_l by lia. rewrite Z.div_small by lia. lia.
Qed.

Lemma TimestampTime_drops_ordinal_witness :
  (- 2 ^ 63 ≤ Z.shiftl 1704067200 32 + 5 < 2 ^ 63)%Z ∧
  TimestampTime (Z.shiftl 1704067200 32 + 5) = time.mkTime 1704067200 0 time.UTC.
Proof. apply TimestampTime_drops_ordinal; lia. Defined.

(** X11: [main] panics while it builds its filter exactly when a pattern
    that is not empty does not compile; an empty pattern is not compiled. *)
Theorem main_filter_panics (E : Collaborators) (config : configOptions) :
  main_filter E config = None ↔
  (NsRegex config ≠ "" ∧ regexp_MustCompile E (NsRegex config) = None) ∨
  (NsExcludeRegex config ≠ "" ∧ regexp_MustCompile E (NsExcludeRegex config) = None).
Proof.
  unfold main_filter, FilterWithRegex, FilterInverseWithRegex.
  destruct (decide (NsRegex config = "")) as [Hinc|Hinc];
    destruct (decide (NsExcludeRegex config = "")) as [Hexc|Hexc].
  - rewrite !bool_decide_eq_true_2 by done. cbn [negb]. split; [done|]. by intros [[? _]|[? _]].
  - rewrite (bool_decide_eq_true_2 _ Hinc), (bool_decide_eq_false_2 _ Hexc). cbn [negb].
    destruct (regexp_MustCompile E (NsExcludeRegex config)).
    + split; [done|]. by intros [[? _]|[_ ?]].
    + split; [|done]. intros _. by right.
  - rewrite (bool_decide_eq_false_2 _ Hinc), (bool_decide_eq_true_2 _ Hexc). cbn [negb].
    destruct (regexp_MustCompile E (NsRegex config)).
    + split; [done|]. by intros [[_ ?]|[? _]].
    + split; [|done]. intros _. by left.
  - rewrite (bool_decide_eq_false_2 _ Hinc), (bool_decide_eq_false_2 _ Hexc). cbn [negb].
    destruct (regexp_MustCompile E (NsRegex config));
      destruct (regexp_MustCompile E (NsExcludeRegex config)).
    + split; [done|]. by intros [[_ ?]|[_ ?]].
    + split; [|done]. intros _. by right.
    + split; [|done]. intros _. by left.
    + split; [|done]. intros _. by left.
Qed.

(** X12: after a flush that returns no error, with resume enabled and a
    tracked timestamp that is not 0, [ResumeWork] finds the checkpoint of the
    flush: it positions the reader at the tracked timestamp and resumes it;
    and the generator of [main] starts there too, unless replay or an explicit
    resume-from timestamp overrides the checkpoint. *)
Theorem ResumeWork_after_flush (E : Collaborators) (ctx ctx' : InfluxCtx.t)
    (w w' : World) :
  writeBatch E ctx w = Done None ctx' w' →
  Resume (InfluxCtx.config ctx) = true →
  InfluxCtx.lastTs ctx ≠ 0 →
  ResumeWork w' (InfluxCtx.config ctx)
  = Some [CallSince (InfluxCtx.lastTs ctx); CallResume] ∧
  (Replay (InfluxCtx.config ctx) = false →
   ResumeFromTimestamp (InfluxCtx.config ctx) = 0 →
   start_timestamp E (InfluxCtx.config ctx) w' = Some (InfluxCtx.lastTs ctx)).
Proof.
  intros Hflush Hresume Hts.
  destruct (writeBatch_cases E ctx w)
    as (logs & _ & [(pre & k & bp & post & e & _ & Hfail)|Hsave]).
  { by rewrite Hfail in Hflush. }
  rewrite Hsave in Hflush.
  destruct (saveTs_spec E (InfluxCtx.set_m ∅ ctx)
              (mkWorld (store w)
                 (trace w ++ writes_of (range E _ (InfluxCtx.m ctx)) ++ logs)))
    as (a & ctx'' & w'' & calls & Heq & _ & _ & Hsaved).
  rewrite Heq in Hflush. injection Hflush as -> -> ->.
  cbn [InfluxCtx.config InfluxCtx.set_m InfluxCtx.lastTs] in Hsaved.
  rewrite Hresume, (bool_decide_eq_false_2 _ Hts) in Hsaved. cbn [andb negb] in Hsaved.
  destruct Hsaved as (_ & _ & Hdoc). destruct (Hdoc eq_refl) as (doc & Hstore & Hdocts).
  split.
  - unfold ResumeWork, FindId_One, index_value. rewrite Hstore. simpl.
    by rewrite Hdocts.
  - intros Hreplay Hfrom. by apply (start_timestamp_saved E _ w' doc).
Qed.

Lemma ResumeWork_after_flush_witness :
  let ctx := city_worker true 22 in
  let ctx' := InfluxCtx.set_lastTs 0 (InfluxCtx.set_m ∅ ctx) in
  let w' := mkWorld
              {[(Name, "resume", "default")
                := {["ts" := VMongoTimestamp 22; "_id" := VString "default"]}]}
              [CallWrite (city_batch 22) None;
               CallUpsertId Name "resume" "default" 22 None] in
  writeBatch accepting ctx empty_world = Done None ctx' w' ∧
  ResumeWork w' (InfluxCtx.config ctx) = Some [CallSince 22; CallResume].
Proof.
  intros ctx ctx' w'.
  assert (writeBatch accepting ctx empty_world = Done None ctx' w') as Hflush
    by (vm_compute; reflexivity).
  split; [exact Hflush|].
  refine (proj1 (ResumeWork_after_flush accepting ctx ctx' empty_world w' Hflush _ _)).
  - reflexivity.
  - discriminate.
Defined.

(** X13: when [setupMeasurements] succeeds, every namespace that [main]
    hands to the upstream reader for direct reads has a measurement in the
    worker, so no event of a direct read is dropped for want of one. *)
Theorem main_directReadNs_measured (config : Config.t) (ctx ctx' : InfluxCtx.t)
    (w w' : World) (ns : string) :
  InfluxCtx.config ctx = Config.options config →
  setupMeasurements ctx w = Done None ctx' w' →
  ns ∈ main_directReadNs config →
  ∃ ms, ms ∈ Config.Measurement config ∧ Namespace ms = ns ∧
        InfluxCtx.measures ctx' !! ns = Some (newInfluxMeasure ms).
Proof.
  intros Hconfig Hsetup Hns. unfold main_directReadNs in Hns.
  destruct (Config.DirectReads config); [|by apply elem_of_nil in Hns].
  apply list_elem_of_fmap in Hns as (ms0 & -> & Hin).
  unfold setupMeasurements in Hsetup. rewrite Hconfig in Hsetup.
  cbn [Config.options Measurement] in Hsetup.
  destruct (decide _); [|done].
  pose proof (setupMeasurements_loop_spec (Config.Measurement config)
                (InfluxCtx.measures ctx)) as Hloop.
  destruct (setupMeasurements_loop _ _) as [err measures].
  injection Hsetup as -> <- <-. destruct Hloop as [_ Hloop].
  specialize (Hloop eq_refl (Namespace ms0)). cbn [InfluxCtx.measures InfluxCtx.set_measures].
  destruct (last _) as [ms|] eqn:Hlast.
  - exists ms. apply last_Some in Hlast as [l' Hl'].
    assert (ms ∈ filter (λ ms, Namespace ms = Namespace ms0) (Config.Measurement config))
      as [Hsame Hms]%list_elem_of_filter.
    { rewrite Hl'. apply elem_of_app. right. by left. }
    done.
  - apply last_None in Hlast.
    assert (ms0 ∈ filter (λ ms, Namespace ms = Namespace ms0) (Config.Measurement config))
      as Hin' by by apply list_elem_of_filter.
    rewrite Hlast in Hin'. by apply elem_of_nil in Hin'.
Qed.

Lemma main_directReadNs_measured_witness :
  let ctx := worker_of (Config.options weather_file) 0 in
  setupMeasurements (InfluxCtx.mk ∅ ∅ ∅ (Config.options weather_file) 0) empty_world
  = Done None ctx empty_world ∧
  ∃ ms, ms ∈ Config.Measurement weather_file ∧ Namespace ms = "weather.city" ∧
        InfluxCtx.measures ctx !! "weather.city" = Some (newInfluxMeasure ms).
Proof.
  intros ctx.
  assert (setupMeasurements (InfluxCtx.mk ∅ ∅ ∅ (Config.options weather_file) 0)
            empty_world = Done None ctx empty_world) as Hsetup
    by (vm_compute; reflexivity).
  split; [exact Hsetup|].
  refine (main_directReadNs_measured weather_file _ ctx empty_world empty_world
            "weather.city" _ Hsetup _).
  - reflexivity.
  - vm_compute. left.
Defined.

(** *** The configuration *)

Lemma append_nil (b : string) : "" +:+ b = b.
Proof. reflexivity. Qed.

Lemma append_cons (c : ascii) (a b : string) : String c a +:+ b = String c (a +:+ b).
Proof. reflexivity. Qed.

Lemma string_length_app (a b : string) :
  String.length (a +:+ b) = (String.length a + String.length b)%nat.
Proof.
  induction a as [|c a IH]; [done|]. rewrite append_cons. cbn [String.length].
  by rewrite IH.
Qed.

Lemma ssl_prefix_split (q x r : string) :
  q +:+ String "&" x = "ssl=true" +:+ r → ∃ t, q = "ssl=true" +:+ t.
Proof.
  intros H. rewrite !append_cons, append_nil in H.
  do 8 (destruct q as [|? q];
        [rewrite append_nil in H; discriminate
        |rewrite append_cons in H; injection H as -> H]).
  by exists q.
Qed.

Lemma strip_ssl_clean (q : string) :
  ¬ occurs_in "ssl=true" q → strip_ssl_from 0 q = q.
Proof.
  induction q as [|c q IH]; intros Hno; [done|]. cbn [strip_ssl_from].
  rewrite bool_decide_eq_false_2.
  2:{ intros [r Hr]. apply strip_prefix_spec in Hr. apply Hno.
      exists "", ("&" +:+ r). by rewrite Hr. }
  rewrite bool_decide_eq_false_2.
  2:{ intros [r Hr]. apply strip_prefix_spec in Hr. apply Hno.
      exists "", r. by rewrite Hr. }
  rewrite bool_decide_eq_false_2.
  2:{ intros Heq. apply Hno. exists "&", "". by rewrite Heq. }
  f_equal. apply IH. intros (a & b & ->). apply Hno. by exists (String c a), b.
Qed.

Lemma strip_ssl_last (q : string) :
  ¬ occurs_in "ssl=true" q → strip_ssl_from 0 (q +:+ "&ssl=true") = q.
Proof.
  induction q as [|c q IH]; intros Hno; [by vm_compute|].
  rewrite append_cons. cbn [strip_ssl_from].
  assert (∀ r, String c q +:+ String "&" "ssl=true" ≠ "ssl=true" +:+ r) as Hpre.
  { intros r [t Ht]%ssl_prefix_split. apply Hno. exists "", t. by rewrite Ht. }
  rewrite bool_decide_eq_false_2.
  2:{ intros [r Hr]. apply strip_prefix_spec in Hr. by apply (Hpre ("&" +:+ r)). }
  rewrite bool_decide_eq_false_2.
  2:{ intros [r Hr]. apply strip_prefix_spec in Hr. by apply (Hpre r). }
  rewrite bool_decide_eq_false_2.
  2:{ intros Heq. apply (f_equal String.length) in Heq.
      cbn [String.length] in Heq. rewrite string_length_app in Heq.
      cbn [String.length] in Heq. lia. }
  f_equal. apply IH. intros (a & b & ->). apply Hno. by exists (String c a), b.
Qed.

Lemma strip_ssl_first (q : string) :
  ¬ occurs_in "ssl=true" q → strip_ssl_from 0 ("ssl=true&" +:+ q) = q.
Proof.
  intros Hno. rewrite !append_cons, append_nil. cbn [strip_ssl_from].
  rewrite bool_decide_eq_true_2.
  2:{ exists q. by apply strip_prefix_spec. }
  by apply strip_ssl_clean.
Qed.

Lemma split_query_app (host query : string) :
  split_query host = None → split_query (host +:+ "?" +:+ query) = Some (host, query).
Proof.
  induction host as [|c host IH]; intros Hhost; [done|].
  rewrite append_cons. cbn [split_query] in *.
  destruct (bool_decide (c = ascii_of_nat 63)); [done|].
  destruct (split_query host) as [[h q]|]; [done|]. by rewrite IH.
Qed.

Lemma split_query_spec (s host query : string) :
  split_query s = Some (host, query) → s = host +:+ "?" +:+ query.
Proof.
  revert host. induction s as [|c s IH]; intros host; [done|]. cbn [split_query].
  destruct (bool_decide (c = ascii_of_nat 63)) eqn:Hc.
  - apply bool_decide_eq_true in Hc as ->. by intros [= <- <-].
  - destruct (split_query s) as [[h q]|]; [|done]. intros [= <- <-].
    rewrite append_cons. f_equal. by apply IH.
Qed.

Lemma split_query_not_empty (s host query : string) :
  split_query s = Some (host, query) → s ≠ "".
Proof. by destruct s. Qed.

Ltac config_simpl :=
  cbn [Config.MongoUrl Config.MongoPemFile Config.MongoSkipVerify
       Config.MongoOpLogDatabaseName Config.MongoOpLogCollectionName
       Config.MongoCursorTimeout Config.MongoDialSettings Config.MongoSessionSettings
       Config.GtmSettings Config.ResumeName Config.NsRegex Config.NsExcludeRegex
       Config.Version Config.Verbose Config.Resume Config.ResumeWriteUnsafe
       Config.ResumeFromTimestamp Config.Replay Config.ConfigFile Config.Measurement
       Config.InfluxUrl Config.InfluxUser Config.InfluxPassword Config.InfluxSkipVerify
       Config.InfluxPemFile Config.InfluxAutoCreateDB Config.InfluxClients
       Config.InfluxBufferSize Config.DirectReads Config.ExitAfterDirectReads
       Config.set_MongoUrl Config.set_MongoDialSettings Config.set_ResumeName
       Config.set_InfluxUrl Config.set_InfluxClients Config.set_InfluxBufferSize].

(** [SetDefaults], field by field.  [url] is the connection string after
    the default, and [stripped] what replaces it when it has the option
    [ssl=true]. *)
Lemma SetDefaults_eq (config : Config.t) :
  let url := if bool_decide (Config.MongoUrl config = "") then mongoUrlDefault
             else Config.MongoUrl config in
  let stripped :=
    match split_query url with
    | Some (host, query) =>
        if bool_decide (strip_ssl query = query) then None
        else Some (if bool_decide (strip_ssl query = "") then host
                   else host +:+ "?" +:+ strip_ssl query)
    | None => None
    end in
  SetDefaults config
  = Config.mk (default url stripped) (Config.MongoPemFile config)
      (Config.MongoSkipVerify config) (Config.MongoOpLogDatabaseName config)
      (Config.MongoOpLogCollectionName config) (Config.MongoCursorTimeout config)
      (match stripped with
       | Some _ => mkMongoDialSettings (Timeout (Config.MongoDialSettings config)) true
       | None => Config.MongoDialSettings config
       end)
      (Config.MongoSessionSettings config) (Config.GtmSettings config)
      (if bool_decide (Config.ResumeName config = "") then resumeNameDefault
       else Config.ResumeName config)
      (Config.NsRegex config) (Config.NsExcludeRegex config) (Config.Version config)
      (Config.Verbose config) (Config.Resume config) (Config.ResumeWriteUnsafe config)
      (Config.ResumeFromTimestamp config) (Config.Replay config)
      (Config.ConfigFile config) (Config.Measurement config)
      (if bool_decide (Config.InfluxUrl config = "") then influxUrlDefault
       else Config.InfluxUrl config)
      (Config.InfluxUser config) (Config.InfluxPassword config)
      (Config.InfluxSkipVerify config) (Config.InfluxPemFile config)
      (Config.InfluxAutoCreateDB config)
      (if bool_decide (Config.InfluxClients config = 0) then influxClientsDefault
       else Config.InfluxClients config)
      (if bool_decide (Config.InfluxBufferSize config = 0) then influxBufferDefault
       else Config.InfluxBufferSize config)
      (Config.DirectReads config) (Config.ExitAfterDirectReads config).
Proof.
  destruct config as [url ? ? ? ? ? ? ? ? name ? ? ? ? ? ? ? ? ? ? iurl ? ? ? ? ? n b ? ?].
  unfold SetDefaults. config_simpl.
  destruct (bool_decide (iurl = "")); config_simpl;
  destruct (bool_decide (n = 0)); config_simpl;
  destruct (bool_decide (b = 0)); config_simpl;
  (destruct (decide (url = "")) as [Hurl|Hurl];
   [rewrite !(bool_decide_eq_true_2 _ Hurl)|rewrite !(bool_decide_eq_false_2 _ Hurl)]);
  config_simpl;
  destruct (bool_decide (name = "")); config_simpl;
  cbv zeta.
  all: first
    [ rewrite !(bool_decide_eq_false_2 (mongoUrlDefault = "")) by done;
      change (split_query mongoUrlDefault) with (@None (string * string));
      cbn [negb]; config_simpl; done
    | rewrite ?(bool_decide_eq_false_2 _ Hurl); cbn [negb];
      destruct (split_query url) as [[host query]|];
      [ destruct (bool_decide (strip_ssl query = query)); cbn [negb];
        [ config_simpl; done
        | destruct (bool_decide (strip_ssl query = "")); config_simpl; done ]
      | config_simpl; done ] ].
Qed.

Lemma SetDefaults_strips (config : Config.t) (host query : string) :
  split_query host = None →
  Config.MongoUrl config = host +:+ "?" +:+ query →
  strip_ssl query ≠ query →
  Config.MongoUrl (SetDefaults config)
  = (if bool_decide (strip_ssl query = "") then host
     else host +:+ "?" +:+ strip_ssl query) ∧
  Config.MongoDialSettings (SetDefaults config)
  = mkMongoDialSettings (Timeout (Config.MongoDialSettings config)) true.
Proof.
  intros Hhost Hurl Hssl. pose proof (SetDefaults_eq config) as Heq. cbv zeta in Heq.
  rewrite Heq, Hurl. config_simpl.
  rewrite (bool_decide_eq_false_2 (host +:+ "?" +:+ query = "")) by by destruct host.
  rewrite (split_query_app host query Hhost), (bool_decide_eq_false_2 _ Hssl). done.
Qed.

Lemma SetDefaults_keeps (config : Config.t) :
  (∀ host query, split_query (Config.MongoUrl config) = Some (host, query) →
                 strip_ssl query = query) →
  Config.MongoUrl (SetDefaults config)
  = (if bool_decide (Config.MongoUrl config = "") then mongoUrlDefault
     else Config.MongoUrl config) ∧
  Config.MongoDialSettings (SetDefaults config) = Config.MongoDialSettings config.
Proof.
  intros Hclean. pose proof (SetDefaults_eq config) as Heq. cbv zeta in Heq.
  rewrite Heq. config_simpl. destruct (bool_decide (Config.MongoUrl config = "")).
  { done. }
  destruct (split_query (Config.MongoUrl config)) as [[host query]|]; [|done].
  by rewrite (bool_decide_eq_true_2 _ (Hclean host query eq_refl)).
Qed.

Lemma append_longer (a b c : string) : b ≠ "" → a ≠ c +:+ a +:+ b.
Proof.
  intros Hb Heq. apply (f_equal String.length) in Heq.
  rewrite !string_length_app in Heq. destruct b; [done|]. cbn [String.length] in Heq. lia.
Qed.

(** X14: a connection string whose only option is [ssl=true] loses its
    query, and TLS is turned on; the dial timeout is kept.  The connection
    string that is left is empty when nothing comes before the question
    mark. *)
Theorem SetDefaults_ssl_only_option (config : Config.t) (host : string) :
  split_query host = None →
  Config.MongoUrl config = host +:+ "?ssl=true" →
  Config.MongoUrl (SetDefaults config) = host ∧
  Config.MongoDialSettings (SetDefaults config)
  = mkMongoDialSettings (Timeout (Config.MongoDialSettings config)) true.
Proof.
  intros Hhost Hurl.
  by destruct (SetDefaults_strips config host "ssl=true" Hhost Hurl).
Qed.

Lemma SetDefaults_ssl_only_option_witness :
  Config.MongoUrl (SetDefaults (flags_of "" "mongodb://db1:27017?ssl=true"))
  = "mongodb://db1:27017" ∧
  Config.MongoDialSettings (SetDefaults (flags_of "" "mongodb://db1:27017?ssl=true"))
  = mkMongoDialSettings (-1) true.
Proof.
  by apply (SetDefaults_ssl_only_option (flags_of "" "mongodb://db1:27017?ssl=true")
              "mongodb://db1:27017").
Defined.

(** X15: when [ssl=true] is the first or the last of several options of
    the connection string, and does not occur in the others, [SetDefaults]
    takes it out with its [&], keeps the other options as they are, and turns
    TLS on. *)
Theorem SetDefaults_ssl_among_options (config : Config.t) (host rest : string) :
  split_query host = None →
  ¬ occurs_in "ssl=true" rest →
  rest ≠ "" →
  Config.MongoUrl config = host +:+ "?" +:+ rest +:+ "&ssl=true" ∨
  Config.MongoUrl config = host +:+ "?" +:+ "ssl=true&" +:+ rest →
  Config.MongoUrl (SetDefaults config) = host +:+ "?" +:+ rest ∧
  Config.MongoDialSettings (SetDefaults config)
  = mkMongoDialSettings (Timeout (Config.MongoDialSettings config)) true.
Proof.
  intros Hhost Hrest Hne [Hurl|Hurl].
  - destruct (SetDefaults_strips config host _ Hhost Hurl) as [-> ->].
    + unfold strip_ssl. rewrite (strip_ssl_last rest Hrest).
      apply (append_longer rest "&ssl=true" ""). done.
    + unfold strip_ssl. rewrite (strip_ssl_last rest Hrest).
      by rewrite (bool_decide_eq_false_2 _ Hne).
  - destruct (SetDefaults_strips config host _ Hhost Hurl) as [-> ->].
    + unfold strip_ssl. rewrite (strip_ssl_first rest Hrest).
      intros Heq. apply (f_equal String.length) in Heq.
      rewrite string_length_app in Heq. cbn [String.length] in Heq. lia.
    + unfold strip_ssl. rewrite (strip_ssl_first rest Hrest).
      by rewrite (bool_decide_eq_false_2 _ Hne).
Qed.

Lemma occurs_in_length (p s : string) :
  occurs_in p s → (String.length p ≤ String.length s)%nat.
Proof. intros (a & b & ->). rewrite !string_length_app. lia. Qed.

Lemma SetDefaults_ssl_among_options_witness :
  Config.MongoUrl (SetDefaults (flags_of "" "mongodb://db1/app?w=1&ssl=true"))
  = "mongodb://db1/app?w=1" ∧
  Config.MongoDialSettings (SetDefaults (flags_of "" "mongodb://db1/app?w=1&ssl=true"))
  = mkMongoDialSettings (-1) true.
Proof.
  apply (SetDefaults_ssl_among_options (flags_of "" "mongodb://db1/app?w=1&ssl=true")
           "mongodb://db1/app" "w=1").
  - reflexivity.
  - intros Hocc%occurs_in_length. cbn in Hocc. lia.
  - discriminate.
  - left. reflexivity.
Defined.

(** X16: [SetDefaults] leaves alone a connection string in which
    [ssl=true] does not occur, and the dial settings with it; a connection
    string that is not set becomes the default one. *)
Theorem SetDefaults_without_ssl_option (config : Config.t) :
  ¬ occurs_in "ssl=true" (Config.MongoUrl config) →
  Config.MongoUrl (SetDefaults config)
  = (if bool_decide (Config.MongoUrl config = "") then mongoUrlDefault
     else Config.MongoUrl config) ∧
  Config.MongoDialSettings (SetDefaults config) = Config.MongoDialSettings config.
Proof.
  intros Hno. apply SetDefaults_keeps. intros host query Hsplit.
  apply strip_ssl_clean. intros (a & b & ->). apply Hno.
  apply split_query_spec in Hsplit. rewrite Hsplit.
  exists (host +:+ "?" +:+ a), b. by rewrite !string_append_assoc.
Qed.

Lemma SetDefaults_without_ssl_option_witness :
  Config.MongoUrl (SetDefaults (flags_of "" "db1?w=1")) = "db1?w=1" ∧
  Config.MongoDialSettings (SetDefaults (flags_of "" "db1?w=1"))
  = mkMongoDialSettings (-1) false.
Proof.
  apply (SetDefaults_without_ssl_option (flags_of "" "db1?w=1")).
  intros Hocc%occurs_in_length. cbn in Hocc. lia.
Defined.

Lemma LoadConfigFile_decoded (S : Startup) (flags file : Config.t) :
  Config.ConfigFile flags ≠ "" →
  toml_DecodeFile S (Config.ConfigFile flags) tomlPreset = Some file →
  ∃ merged,
    LoadConfigFile S flags = Some merged ∧
    Config.InfluxUrl merged
    = (if bool_decide (Config.InfluxUrl flags = "") then Config.InfluxUrl file
       else Config.InfluxUrl flags) ∧
    Config.InfluxClients merged
    = (if bool_decide (Config.InfluxClients flags = 0) then Config.InfluxClients file
       else Config.InfluxClients flags) ∧
    Config.InfluxBufferSize merged
    = (if bool_decide (Config.InfluxBufferSize flags = 0)
       then Config.InfluxBufferSize file else Config.InfluxBufferSize flags) ∧
    Config.ResumeName merged
    = (if (Config.Resume flags || Config.Resume file)
          && bool_decide (Config.ResumeName flags = "")
       then Config.ResumeName file else Config.ResumeName flags) ∧
    Config.Measurement merged = Config.Measurement file ∧
    Config.DirectReads merged = Config.DirectReads flags || Config.DirectReads file.
Proof.
  intros Hfile Hdecode. unfold LoadConfigFile.
  rewrite (bool_decide_eq_false_2 _ Hfile), Hdecode. cbn [negb]. eexists.
  split; [reflexivity|]. config_simpl. do 3 (split; [done|]). split; [|split; [done|]].
  - by destruct (Config.Resume flags), (Config.Resume file).
  - by destruct (Config.DirectReads flags), (Config.DirectReads file).
Qed.

(** X17: a setting of the sink is taken from the command line when it is
    set there, else from the configuration file when it is set there, else
    from the defaults: so for the URL of the sink, the number of its clients
    and the size of the buffer. *)
Theorem configuration_precedence (S : Startup) (flags file : Config.t) :
  Config.ConfigFile flags ≠ "" →
  toml_DecodeFile S (Config.ConfigFile flags) tomlPreset = Some file →
  ∃ merged,
    LoadConfigFile S flags = Some merged ∧
    Config.InfluxUrl (SetDefaults merged)
    = (if negb (bool_decide (Config.InfluxUrl flags = "")) then Config.InfluxUrl flags
       else if negb (bool_decide (Config.InfluxUrl file = "")) then Config.InfluxUrl file
       else influxUrlDefault) ∧
    Config.InfluxClients (SetDefaults merged)
    = (if negb (bool_decide (Config.InfluxClients flags = 0))
       then Config.InfluxClients flags
       else if negb (bool_decide (Config.InfluxClients file = 0))
       then Config.InfluxClients file
       else influxClientsDefault) ∧
    Config.InfluxBufferSize (SetDefaults merged)
    = (if negb (bool_decide (Config.InfluxBufferSize flags = 0))
       then Config.InfluxBufferSize flags
       else if negb (bool_decide (Config.InfluxBufferSize file = 0))
       then Config.InfluxBufferSize file
       else influxBufferDefault).
Proof.
  intros Hfile Hdecode.
  destruct (LoadConfigFile_decoded S flags file Hfile Hdecode)
    as (merged & Hload & Hurl & Hclients & Hbuffer & _).
  exists merged. split; [done|].
  pose proof (SetDefaults_eq merged) as Heq. cbv zeta in Heq. rewrite Heq. config_simpl.
  rewrite Hurl, Hclients, Hbuffer.
  split; [|split].
  - destruct (decide (Config.InfluxUrl flags = "")) as [Hf|Hf].
    + rewrite !(bool_decide_eq_true_2 _ Hf). cbn [negb].
      by destruct (bool_decide (Config.InfluxUrl file = "")).
    + by rewrite !(bool_decide_eq_false_2 _ Hf).
  - destruct (decide (Config.InfluxClients flags = 0)) as [Hf|Hf].
    + rewrite !(bool_decide_eq_true_2 _ Hf). cbn [negb].
      by destruct (bool_decide (Config.InfluxClients file = 0)).
    + by rewrite !(bool_decide_eq_false_2 _ Hf).
  - destruct (decide (Config.InfluxBufferSize flags = 0)) as [Hf|Hf].
    + rewrite !(bool_decide_eq_true_2 _ Hf). cbn [negb].
      by destruct (bool_decide (Config.InfluxBufferSize file = 0)).
    + by rewrite !(bool_decide_eq_false_2 _ Hf).
Qed.

Lemma configuration_precedence_witness :
  ∃ merged,
    LoadConfigFile (startup_of weather_file) (flags_of "mongofluxd.toml" "") = Some merged ∧
    Config.InfluxUrl (SetDefaults merged) = "http://influx:8086" ∧
    Config.InfluxClients (SetDefaults merged) = 10 ∧
    Config.InfluxBufferSize (SetDefaults merged) = 500.
Proof.
  refine (configuration_precedence (startup_of weather_file)
            (flags_of "mongofluxd.toml" "") weather_file _ _).
  - discriminate.
  - reflexivity.
Defined.

(** X18: the resume name of the configuration file is used only when the
    command line gives none and resume is enabled, on the command line or in
    the file; otherwise a resume name that the command line does not give is
    the default one, whatever the file says. *)
Theorem configuration_resume_name (S : Startup) (flags file : Config.t) :
  Config.ConfigFile flags ≠ "" →
  toml_DecodeFile S (Config.ConfigFile flags) tomlPreset = Some file →
  ∃ merged,
    LoadConfigFile S flags = Some merged ∧
    Config.ResumeName (SetDefaults merged)
    = (if negb (bool_decide (Config.ResumeName flags = "")) then Config.ResumeName flags
       else if (Config.Resume flags || Config.Resume file)
               && negb (bool_decide (Config.ResumeName file = ""))
       then Config.ResumeName file
       else resumeNameDefault).
Proof.
  intros Hfile Hdecode.
  destruct (LoadConfigFile_decoded S flags file Hfile Hdecode)
    as (merged & Hload & _ & _ & _ & Hname & _).
  exists merged. split; [done|].
  pose proof (SetDefaults_eq merged) as Heq. cbv zeta in Heq. rewrite Heq. config_simpl.
  rewrite Hname. destruct (decide (Config.ResumeName flags = "")) as [Hf|Hf].
  - rewrite !(bool_decide_eq_true_2 _ Hf). cbn [negb]. rewrite andb_true_r.
    destruct (Config.Resume flags || Config.Resume file); cbn [andb].
    + by destruct (bool_decide (Config.ResumeName file = "")).
    + by rewrite (bool_decide_eq_true_2 _ Hf).
  - rewrite !(bool_decide_eq_false_2 _ Hf). rewrite andb_false_r.
    by rewrite (bool_decide_eq_false_2 _ Hf).
Qed.

Lemma configuration_resume_name_witness :
  ∃ merged,
    LoadConfigFile (startup_of weather_file) (flags_of "mongofluxd.toml" "") = Some merged ∧
    Config.ResumeName (SetDefaults merged) = "default".
Proof.
  refine (configuration_resume_name (startup_of weather_file)
            (flags_of "mongofluxd.toml" "") weather_file _ _).
  - discriminate.
  - reflexivity.
Defined.

(** X19: the measurements come from the configuration file only: without
    a file the configuration that [main] hands to its workers has none, and
    [setupMeasurements] fails in every worker. *)
Theorem setupMeasurements_without_file (S : Startup) (flags : Config.t) :
  Config.ConfigFile flags = "" →
  Config.Measurement flags = [] →
  LoadConfigFile S flags = Some flags ∧
  ∀ ctx w, InfluxCtx.config ctx = Config.options (SetDefaults flags) →
           setupMeasurements ctx w
           = Done (Some "at least one measurement is required") ctx w.
Proof.
  intros Hfile Hnone. split.
  - unfold LoadConfigFile. by rewrite (bool_decide_eq_true_2 _ Hfile).
  - intros ctx w Hconfig. unfold setupMeasurements. rewrite Hconfig.
    pose proof (SetDefaults_eq flags) as Heq. cbv zeta in Heq. rewrite Heq.
    cbn [Config.options Measurement Config.Measurement]. by rewrite Hnone.
Qed.

Lemma setupMeasurements_without_file_witness :
  LoadConfigFile (startup_of weather_file) (flags_of "" "db1")
  = Some (flags_of "" "db1") ∧
  ∀ ctx w, InfluxCtx.config ctx = Config.options (SetDefaults (flags_of "" "db1")) →
           setupMeasurements ctx w
           = Done (Some "at least one measurement is required") ctx w.
Proof.
  by apply (setupMeasurements_without_file (startup_of weather_file) (flags_of "" "db1")).
Defined.

(** X20: for a connection string whose only option is [ssl=true],
    [DialMongo] after [SetDefaults] dials with TLS the connection string
    without the option: it returns the error of reading the PEM file when one
    is configured and cannot be read, else the error of parsing the
    connection string, and else dials with a timeout of ten seconds, or of
    the configured number of seconds when that is not -1. *)
Theorem DialMongo_after_ssl_option (S : Startup) (config : Config.t) (host : string) :
  split_query host = None →
  Config.MongoUrl config = host +:+ "?ssl=true" →
  DialMongo S (SetDefaults config)
  = match (if bool_decide (Config.MongoPemFile config = "") then None
           else ioutil_ReadFile_err S (Config.MongoPemFile config)) with
    | Some err => inl err
    | None =>
        match mgo_ParseURL_err S host with
        | Some err => inl err
        | None =>
            inr (mgo_DialWithInfo host
                   (if bool_decide (Timeout (Config.MongoDialSettings config) = -1)
                    then seconds 10
                    else seconds (Timeout (Config.MongoDialSettings config)))
                   (mkTlsConfig
                      (if bool_decide (Config.MongoPemFile config = "") then None
                       else Some (Config.MongoPemFile config))
                      (Config.MongoSkipVerify config)))
        end
    end.
Proof.
  intros Hhost Hurl.
  destruct (SetDefaults_strips config host "ssl=true" Hhost Hurl) as [Hurl' Hdial];
    [done|].
  pose proof (SetDefaults_eq config) as Heq. cbv zeta in Heq.
  assert (Config.MongoPemFile (SetDefaults config) = Config.MongoPemFile config) as Hpem
    by by rewrite Heq.
  assert (Config.MongoSkipVerify (SetDefaults config) = Config.MongoSkipVerify config)
    as Hskip by by rewrite Heq.
  unfold DialMongo. rewrite Hurl', Hdial, Hpem, Hskip. cbn [Ssl Timeout orb].
  change (bool_decide (strip_ssl "ssl=true" = "")) with true. cbv iota.
  destruct (bool_decide (Config.MongoPemFile config = "")); cbn [negb].
  - destruct (mgo_ParseURL_err S host); [done|].
    destruct (bool_decide (Timeout (Config.MongoDialSettings config) = -1)); cbn [negb];
      by destruct (Config.MongoSkipVerify config).
  - destruct (ioutil_ReadFile_err S (Config.MongoPemFile config)); [done|].
    destruct (mgo_ParseURL_err S host); [done|].
    destruct (bool_decide (Timeout (Config.MongoDialSettings config) = -1)); cbn [negb];
      by destruct (Config.MongoSkipVerify config).
Qed.

Lemma DialMongo_after_ssl_option_witness :
  DialMongo (startup_of weather_file)
    (SetDefaults (flags_of "" "mongodb://db1:27017?ssl=true"))
  = inr (mgo_DialWithInfo "mongodb://db1:27017" 10000000000 (mkTlsConfig None false)).
Proof.
  by apply (DialMongo_after_ssl_option (startup_of weather_file)
              (flags_of "" "mongodb://db1:27017?ssl=true") "mongodb://db1:27017").
Defined.


Lemma points_written_app (cs1 cs2 : list Call) :
  points_written (cs1 ++ cs2) = points_written cs1 + points_written cs2.
Proof.
  induction cs1 as [|c cs1 IH]; [done|]. cbn [app points_written foldr].
  fold (points_written (cs1 ++ cs2)). fold (points_written cs1). rewrite IH.
  destruct c; lia.
Qed.

Lemma flush_logs_app (cs1 cs2 : list Call) :
  flush_logs (cs1 ++ cs2) = flush_logs cs1 ++ flush_logs cs2.
Proof. apply omap_app. Qed.

Lemma writeBatch_loop_points (E : Collaborators)
    (bps : list (string * client.BatchPoints)) (points : Z) (w : World) :
  ∃ points' err w' cs,
    writeBatch_loop E bps points w = (points', err, w') ∧
    store w' = store w ∧
    trace w' = trace w ++ cs ∧
    points' = points + points_written cs ∧
    flush_logs cs = [].
Proof.
  revert points w. induction bps as [|[k bp] bps IH]; intros points w.
  - exists points, None, w, []. rewrite app_nil_r. cbn. repeat split; lia.
  - cbn [writeBatch_loop]. destruct (client_Write E w bp) as [e|] eqn:Hwrite.
    + eexists _, _, _, [CallWrite bp (Some e)]. split; [reflexivity|].
      cbn. repeat split; lia.
    + destruct (IH (points + Z.of_nat (length (client.Points bp)))
                  (record (CallWrite bp None) w))
        as (points' & err & w' & cs & -> & Hstore & Htrace & -> & Hlogs).
      exists (points + Z.of_nat (length (client.Points bp)) + points_written cs),
        err, w', (CallWrite bp None :: cs).
      split; [done|]. split; [done|]. split.
      { rewrite Htrace. cbn [record trace]. by rewrite <- app_assoc. }
      split; [|done]. cbn [points_written foldr]. fold (points_written cs). lia.
Qed.

(** X21: with verbose output, a flush logs once how many points it has
    flushed, when that number is above zero: the number is that of the points
    of all the batches that it has handed to the sink, the one whose write
    failed included.  Without verbose output it logs nothing. *)
Theorem writeBatch_log_counts_attempted (E : Collaborators) (ctx ctx' : InfluxCtx.t)
    (w w' : World) (a : option error) (calls : list Call) :
  writeBatch E ctx w = Done a ctx' w' →
  trace w' = trace w ++ calls →
  flush_logs calls
  = if Verbose (InfluxCtx.config ctx) && bool_decide (0 < points_written calls)%Z
    then [points_written calls] else [].
Proof.
  intros Hflush Htrace. unfold writeBatch in Hflush.
  destruct (writeBatch_loop_points E (range E _ (InfluxCtx.m ctx)) 0 w)
    as (points & err & w1 & cs & Hloop & _ & Htrace1 & -> & Hlogs).
  rewrite Hloop in Hflush. rewrite Z.add_0_l in Hflush.
  set (logs := if Verbose (InfluxCtx.config ctx) && bool_decide (0 < points_written cs)%Z
               then [CallLog (PointsFlushed (points_written cs))] else []).
  assert (∃ saves, calls = cs ++ logs ++ saves ∧ points_written saves = 0 ∧
                   flush_logs saves = []) as (saves & -> & Hsaves & Hsavelogs).
  { set (w2 := (if Verbose (InfluxCtx.config ctx) then
                  if bool_decide (0 < points_written cs)%Z
                  then record (CallLog (PointsFlushed (points_written cs))) w1 else w1
                else w1)) in Hflush.
    assert (trace w2 = trace w ++ cs ++ logs) as Htrace2.
    { unfold w2, logs. destruct (Verbose _), (bool_decide _); cbn [andb record trace];
        rewrite Htrace1, <- ?app_assoc, ?app_nil_r; done. }
    destruct err as [e|].
    - injection Hflush as <- <- <-. exists []. rewrite app_nil_r. split; [|done].
      rewrite Htrace2 in Htrace. by apply app_inv_head in Htrace.
    - destruct (saveTs_spec E (InfluxCtx.set_m ∅ ctx) w2)
        as (a' & ctx'' & w'' & saves & Heq & Htrace3 & _ & Hsaves).
      rewrite Heq in Hflush. injection Hflush as <- <- <-.
      exists saves. split.
      + rewrite Htrace3, Htrace2, <- !app_assoc in Htrace.
        by apply app_inv_head in Htrace.
      + destruct (Resume _ && _).
        * by destruct Hsaves as (-> & _).
        * by destruct Hsaves as (-> & _). }
  rewrite !points_written_app, !flush_logs_app, Hlogs, Hsaves, Hsavelogs.
  assert (points_written logs = 0) as -> by (unfold logs; by destruct (_ && _)).
  rewrite !Z.add_0_r, app_nil_r. unfold logs. by destruct (_ && _).
Qed.

Lemma writeBatch_log_counts_attempted_witness :
  let ctx := InfluxCtx.set_m {["weather.city" := city_batch 22]} (worker_of unbuffered 22) in
  let calls := [CallWrite (city_batch 22) (Some "timeout"); CallLog (PointsFlushed 1)] in
  writeBatch refusing_sink ctx empty_world
  = Done (Some "timeout") (InfluxCtx.set_m ∅ ctx) (mkWorld ∅ calls) ∧
  flush_logs calls = [1].
Proof.
  intros ctx calls.
  assert (writeBatch refusing_sink ctx empty_world
          = Done (Some "timeout") (InfluxCtx.set_m ∅ ctx) (mkWorld ∅ calls)) as Hflush
    by (vm_compute; reflexivity).
  split; [exact Hflush|].
  exact (writeBatch_log_counts_attempted refusing_sink ctx _ empty_world _ _ calls
           Hflush eq_refl).
Defined.

Lemma setupDatabase_trace (E : Collaborators) (op : gtm.Op) (ctx ctx' : InfluxCtx.t)
    (w w' : World) (a : option error) :
  setupDatabase E op ctx w = Done a ctx' w' →
  ∃ q, trace w' = trace w ++ q ∧
       ∀ c, c ∈ q → ∃ command err response_err, c = CallQuery command err response_err.
Proof.
  assert (∀ c : Call, c ∈ @nil Call →
            ∃ command err response_err, c = CallQuery command err response_err) as Hnil
    by (by intros c Hin%elem_of_nil).
  unfold setupDatabase. destruct (InfluxCtx.m ctx !! gtm.Namespace op).
  { intros [= _ _ <-]. exists []. by rewrite app_nil_r. }
  destruct (InfluxCtx.measures ctx !! gtm.Namespace op); [|done].
  destruct (client_NewBatchPoints E _) as [e|bp].
  { intros [= _ _ <-]. exists []. by rewrite app_nil_r. }
  match goal with |- context [createDatabase E ?db ?c w] =>
    destruct (createDatabase_cases E db c w)
      as [[-> _]|(_ & _ & err & response_err & _ & Hcreated)]
  end.
  { intros [= _ _ <-]. exists []. by rewrite app_nil_r. }
  cbv zeta in Hcreated.
  destruct err as [e1|]; [|destruct response_err as [e2|]]; rewrite Hcreated;
    intros [= _ _ <-]; eexists [_]; (split; [reflexivity|]);
    intros c ->%list_elem_of_singleton; by eexists _, _, _.
Qed.

(** What a flush hands to the sink: batches that were open, and all of them
    when it returns no error or when no write fails. *)
Lemma writeBatch_writes (E : Collaborators) (ctx ctx' : InfluxCtx.t) (w w' : World)
    (a : option error) :
  range_ok E →
  writeBatch E ctx w = Done a ctx' w' →
  ∃ calls,
    trace w' = trace w ++ calls ∧
    (∀ bp r, CallWrite bp r ∈ calls → ∃ k, InfluxCtx.m ctx !! k = Some bp) ∧
    ((a = None ∨ ∀ c, c ∈ calls → is_failed_write c = false) →
     ∀ k bp, InfluxCtx.m ctx !! k = Some bp → CallWrite bp None ∈ calls).
Proof.
  intros Hrange Hflush.
  destruct (writeBatch_cases E ctx w)
    as (logs & Hlogs & [(pre & k & bp & post & e & Hpre & Hfail)|Hsave]).
  - rewrite Hfail in Hflush. injection Hflush as <- <- <-.
    exists (writes_of pre ++ [CallWrite bp (Some e)] ++ logs).
    split; [done|]. split.
    + intros bp' r Hin. rewrite !elem_of_app in Hin. destruct Hin as [Hin|[Hin|Hin]].
      * apply writes_of_elem in Hin as (k' & bp'' & Hin & [= -> _]). exists k'.
        apply (range_lookup E _ _ _ Hrange). rewrite Hpre. apply elem_of_app. by left.
      * apply list_elem_of_singleton in Hin. injection Hin as -> _. exists k.
        apply (range_lookup E _ _ _ Hrange). rewrite Hpre. apply elem_of_app.
        right. by left.
      * destruct Hlogs as [->|[n ->]]; [by apply elem_of_nil in Hin|].
        by apply list_elem_of_singleton in Hin.
    + intros [Hnone|Hnone]; [done|].
      assert (is_failed_write (CallWrite bp (Some e)) = false) as Hfailed; [|done].
      apply Hnone. rewrite !elem_of_app. right. left. by left.
  - rewrite Hsave in Hflush.
    destruct (saveTs_spec E (InfluxCtx.set_m ∅ ctx)
                (mkWorld (store w)
                   (trace w ++ writes_of (range E _ (InfluxCtx.m ctx)) ++ logs)))
      as (a' & ctx'' & w'' & saves & Heq & Htrace & _ & Hsaves).
    rewrite Heq in Hflush. injection Hflush as <- <- <-.
    exists (writes_of (range E _ (InfluxCtx.m ctx)) ++ logs ++ saves).
    split; [by rewrite Htrace; cbn [trace]; rewrite <- !app_assoc|]. split.
    + intros bp r Hin. rewrite !elem_of_app in Hin. destruct Hin as [Hin|[Hin|Hin]].
      * apply writes_of_elem in Hin as (k & bp' & Hin & [= -> _]). exists k.
        by apply (range_lookup E _ _ _ Hrange).
      * destruct Hlogs as [->|[n ->]]; [by apply elem_of_nil in Hin|].
        by apply list_elem_of_singleton in Hin.
      * destruct (Resume _ && _).
        -- destruct Hsaves as (-> & _). by apply list_elem_of_singleton in Hin.
        -- destruct Hsaves as (-> & _). by apply elem_of_nil in Hin.
    + intros _ k bp Hbp. apply elem_of_app. left. unfold writes_of.
      apply list_elem_of_fmap. exists (k, bp). split; [done|].
      by apply (range_lookup E _ _ _ Hrange).
Qed.

(** X22: [addPoint] hands a batch to the sink only when the batch of the
    namespace of the event has reached the buffer size with the new point.
    It then runs a flush: every batch that it hands over was open, the one
    of the event with the new point at its end; no batch is open afterwards;
    and when no write fails every open batch is handed over, the batches of
    the other namespaces as they were.  When a write fails, the batches not
    yet written are dropped with the map. *)
Theorem addPoint_writes_only_full_batch (E : Collaborators) (op : gtm.Op)
    (ctx ctx' : InfluxCtx.t) (w w' : World) (a : option error) (calls : list Call)
    (bp : client.BatchPoints) (r : option error) :
  range_ok E →
  addPoint E op ctx w = Done a ctx' w' →
  trace w' = trace w ++ calls →
  CallWrite bp r ∈ calls →
  (InfluxBufferSize (InfluxCtx.config ctx)
   ≤ Z.of_nat (S (open_points ctx (gtm.Namespace op))))%Z ∧
  InfluxCtx.m ctx' = ∅ ∧
  ((∃ pt, client.Points bp = open_batch_points ctx (gtm.Namespace op) ++ [pt]) ∨
   (∃ k, k ≠ gtm.Namespace op ∧ InfluxCtx.m ctx !! k = Some bp)) ∧
  ((∀ c, c ∈ calls → is_failed_write c = false) →
   (∃ bp0 pt, CallWrite bp0 None ∈ calls ∧
              client.Points bp0 = open_batch_points ctx (gtm.Namespace op) ++ [pt]) ∧
   ∀ k bp', k ≠ gtm.Namespace op → InfluxCtx.m ctx !! k = Some bp' →
            CallWrite bp' None ∈ calls).
Proof.
  intros Hrange Hadd Htrace Hin.
  assert (∀ (w1 : World) (q : list Call) (msgs : list LogMsg),
            trace w1 = trace w ++ q →
            (∀ c, c ∈ q → ∃ command err response_err,
                            c = CallQuery command err response_err) →
            w' = record_logs msgs w1 → False) as Hnowrite.
  { intros w1 q msgs Hq Hqueries ->. cbn [record_logs trace] in Htrace.
    rewrite Hq, <- app_assoc in Htrace. apply app_inv_head in Htrace. subst calls.
    apply elem_of_app in Hin as [Hin|Hin].
    - by destruct (Hqueries _ Hin) as (? & ? & ? & ?).
    - by apply list_elem_of_fmap in Hin as (? & ? & _). }
  destruct (InfluxCtx.measures ctx !! gtm.Namespace op) as [measure|] eqn:Hmeasure.
  2:{ unfold addPoint in Hadd. rewrite Hmeasure in Hadd. injection Hadd as <- <- <-.
      destruct (Hnowrite w [] []); [by rewrite app_nil_r|by intros c ?%elem_of_nil|].
      destruct w. unfold record_logs. cbn. by rewrite app_nil_r. }
  destruct (setupDatabase_spec E op ctx w measure Hmeasure)
    as (a1 & ctx1 & w1 & Hsetup & _ & Hconfig & _ & _ & Hsame & _).
  destruct (setupDatabase_trace E op ctx ctx1 w w1 a1 Hsetup) as (q & Hq & Hqueries).
  destruct (setupDatabase_frame E op ctx ctx1 w w1 a1 measure Hmeasure Hsetup)
    as [Hpoints Hothers].
  destruct (addPoint_cases E op ctx w measure Hmeasure)
    as (a1' & ctx1' & w1' & Hsetup' & Hcases).
  rewrite Hsetup in Hsetup'. injection Hsetup' as <- <- <-.
  destruct a1 as [e|].
  { rewrite Hcases in Hadd. injection Hadd as <- <- <-.
    destruct (Hnowrite w1 q [] Hq Hqueries).
    destruct w1. unfold record_logs. cbn. by rewrite app_nil_r. }
  cbv zeta in Hcases. destruct (addPoint_project E measure op).2 as [e|].
  { rewrite Hcases in Hadd. injection Hadd as <- <- <-.
    by destruct (Hnowrite w1 q _ Hq Hqueries eq_refl). }
  destruct (client_NewPoint E _ _ _ _) as [e|pt].
  { rewrite Hcases in Hadd. injection Hadd as <- <- <-.
    by destruct (Hnowrite w1 q _ Hq Hqueries eq_refl). }
  destruct Hcases as (bp0 & Hbp & Hcases). rewrite Hcases in Hadd.
  destruct (bool_decide _) eqn:Hfull.
  2:{ injection Hadd as <- <- <-. by destruct (Hnowrite w1 q _ Hq Hqueries eq_refl). }
  apply bool_decide_eq_true in Hfull.
  assert (client.Points bp0 = open_batch_points ctx (gtm.Namespace op)) as Hold.
  { rewrite <- Hpoints. unfold open_batch_points. by rewrite Hbp. }
  split.
  { rewrite <- Hconfig, <- Hsame. unfold open_points. rewrite Hbp.
    cbn [client.AddPoint client.Points] in Hfull. rewrite length_app in Hfull.
    cbn [length] in Hfull. lia. }
  split; [by apply writeBatch_empties in Hadd|].
  destruct (writeBatch_writes E _ _ _ _ _ Hrange Hadd) as (fcalls & Hftrace & Hopen & Hall').
  assert (∀ k bp', (a = None ∨ ∀ c, c ∈ fcalls → is_failed_write c = false) →
            InfluxCtx.m (with_point op pt bp0 ctx1) !! k = Some bp' →
            CallWrite bp' None ∈ fcalls) as Hall.
  { intros k bp' Hok Hk. by apply (Hall' Hok k bp'). }
  clear Hall'.
  cbn [record_logs trace] in Hftrace.
  rewrite Hq, Htrace, <- !app_assoc in Hftrace. apply app_inv_head in Hftrace.
  subst calls.
  assert (∀ k bp', InfluxCtx.m (with_point op pt bp0 ctx1) !! k = Some bp' →
            (k = gtm.Namespace op ∧ bp' = client.AddPoint pt bp0) ∨
            (k ≠ gtm.Namespace op ∧ InfluxCtx.m ctx !! k = Some bp')) as Hwhich.
  { intros k bp'. unfold with_point.
    cbn [InfluxCtx.m InfluxCtx.set_m InfluxCtx.set_lastTs].
    destruct (decide (gtm.Namespace op = k)) as [<-|Hk].
    - rewrite lookup_insert_eq. intros [= <-]. by left.
    - rewrite lookup_insert_ne by done. rewrite (Hothers k) by done. by right. }
  split.
  - rewrite !elem_of_app in Hin. destruct Hin as [Hin|[Hin|Hin]].
    + by destruct (Hqueries _ Hin) as (? & ? & ? & ?).
    + by apply list_elem_of_fmap in Hin as (? & ? & _).
    + destruct (Hopen bp r Hin) as [k Hk].
      destruct (Hwhich k bp Hk) as [[_ ->]|[Hne Hk']].
      * left. exists pt. cbn [client.AddPoint client.Points]. by rewrite Hold.
      * right. by exists k.
  - intros Hnone.
    assert (∀ k bp', InfluxCtx.m (with_point op pt bp0 ctx1) !! k = Some bp' →
              CallWrite bp' None
              ∈ q ++ (CallLog <$> p_log (addPoint_project E measure op).1.2) ++ fcalls)
      as Hwritten.
    { intros k bp' Hk. rewrite !elem_of_app. right. right. apply (Hall k bp'); [|done].
      right. intros c Hc. apply Hnone. rewrite !elem_of_app. by right; right. }
    split.
    + exists (client.AddPoint pt bp0), pt. split.
      * apply (Hwritten (gtm.Namespace op)). unfold with_point.
        cbn [InfluxCtx.m InfluxCtx.set_m InfluxCtx.set_lastTs]. apply lookup_insert_eq.
      * cbn [client.AddPoint client.Points]. by rewrite Hold.
    + intros k bp' Hne Hk. apply (Hwritten k). unfold with_point.
      cbn [InfluxCtx.m InfluxCtx.set_m InfluxCtx.set_lastTs].
      rewrite lookup_insert_ne by done. by rewrite (Hothers k).
Qed.

Lemma addPoint_writes_only_full_batch_witness :
  let op := city_event 22 city_data in
  let ctx := worker_of unbuffered 0 in
  let ctx' := InfluxCtx.set_lastTs 22 (InfluxCtx.set_dbs {["weather" := true]} ctx) in
  let calls := [CallQuery ("CREATE DATABASE " +:+ dquote +:+ "weather" +:+ dquote)
                  None None;
                CallWrite (city_batch 22) None; CallLog (PointsFlushed 1)] in
  addPoint accepting op ctx empty_world = Done None ctx' (mkWorld ∅ calls) ∧
  (InfluxBufferSize (InfluxCtx.config ctx)
   ≤ Z.of_nat (S (open_points ctx (gtm.Namespace op))))%Z ∧
  InfluxCtx.m ctx' = ∅ ∧
  ∃ bp0 pt, CallWrite bp0 None ∈ calls ∧
            client.Points bp0 = open_batch_points ctx (gtm.Namespace op) ++ [pt].
Proof.
  intros op ctx ctx' calls.
  assert (addPoint accepting op ctx empty_world = Done None ctx' (mkWorld ∅ calls))
    as Hadd by (vm_compute; reflexivity).
  assert (CallWrite (city_batch 22) None ∈ calls) as Hin by (right; left).
  assert (∀ c, c ∈ calls → is_failed_write c = false) as Hnone.
  { apply Forall_forall. repeat constructor. }
  split; [exact Hadd|].
  pose proof (addPoint_writes_only_full_batch accepting op ctx ctx' empty_world
                (mkWorld ∅ calls) None calls (city_batch 22) None range_ok_accepting
                Hadd eq_refl Hin) as Hfull.
  split; [exact (proj1 Hfull)|]. split; [exact (proj1 (proj2 Hfull))|].
  exact (proj1 (proj2 (proj2 (proj2 Hfull)) Hnone)).
Defined.

(** *** The writers *)

Lemma writeBatch_below_buffer (E : Collaborators) (ctx ctx' : InfluxCtx.t)
    (w w' : World) (a : option error) :
  writeBatch E ctx w = Done a ctx' w' →
  InfluxCtx.config ctx' = InfluxCtx.config ctx ∧ below_buffer ctx'.
Proof.
  intros Hflush. destruct (writeBatch_frame E _ _ _ _ _ Hflush) as (_ & _ & Hconfig).
  split; [done|]. intros ns. unfold open_points.
  rewrite (writeBatch_empties E _ _ _ _ _ Hflush), lookup_empty. lia.
Qed.

Lemma addPoint_below_buffer (E : Collaborators) (op : gtm.Op) (ctx ctx' : InfluxCtx.t)
    (w w' : World) (a : option error) :
  below_buffer ctx →
  addPoint E op ctx w = Done a ctx' w' →
  InfluxCtx.config ctx' = InfluxCtx.config ctx ∧ below_buffer ctx'.
Proof.
  intros Hsmall Hadd.
  destruct (InfluxCtx.measures ctx !! gtm.Namespace op) as [measure|] eqn:Hmeasure.
  2:{ unfold addPoint in Hadd. rewrite Hmeasure in Hadd. by injection Hadd as <- <- <-. }
  destruct (setupDatabase_spec E op ctx w measure Hmeasure)
    as (a1 & ctx1 & w1 & Hsetup & _ & Hconfig & _ & _ & Hsame & _).
  assert (below_buffer ctx1) as Hsmall1.
  { intros ns. rewrite Hsame, Hconfig. apply Hsmall. }
  destruct (addPoint_cases E op ctx w measure Hmeasure)
    as (a1' & ctx1' & w1' & Hsetup' & Hcases).
  rewrite Hsetup in Hsetup'. injection Hsetup' as <- <- <-.
  assert (∀ w2 e, addPoint E op ctx w = Done e ctx1 w2 →
            InfluxCtx.config ctx' = InfluxCtx.config ctx ∧ below_buffer ctx') as Hearly.
  { intros w2 e Heq. rewrite Heq in Hadd. by injection Hadd as <- <- <-. }
  destruct a1 as [e|]; [by apply (Hearly w1 (Some e))|].
  cbv zeta in Hcases.
  destruct (addPoint_project E measure op).2 as [e|]; [by eapply Hearly|].
  destruct (client_NewPoint E _ _ _ _) as [e|pt]; [by eapply Hearly|].
  destruct Hcases as (bp & Hbp & Hcases). rewrite Hcases in Hadd.
  destruct (bool_decide _) eqn:Hfull.
  - apply writeBatch_below_buffer in Hadd as [Hconfig' Hbelow]. split; [|done].
    by rewrite Hconfig'.
  - apply bool_decide_eq_false in Hfull. injection Hadd as <- <- <-. split; [done|].
    intros ns. unfold open_points, with_point.
    cbn [InfluxCtx.m InfluxCtx.set_m InfluxCtx.set_lastTs InfluxCtx.config].
    destruct (decide (gtm.Namespace op = ns)) as [<-|Hns].
    + rewrite lookup_insert_eq. lia.
    + rewrite lookup_insert_ne by done. apply (Hsmall1 ns).
Qed.

(** One pass of the loop of a writer does not panic. *)
Lemma writer_select_returns (E : Collaborators) (r : Received) (st : Writer) (w : World) :
  ∃ returned st' w', writer_select E r st w = Some (returned, st', w').
Proof.
  destruct r as [| |err|op]; cbn [writer_select].
  - destruct (writeBatch_done E (influx st) w) as ([e|] & ctx' & w' & ->);
      by eexists _, _, _.
  - destruct (writeBatch_done E (influx st) w) as ([e|] & ctx' & w' & ->);
      by eexists _, _, _.
  - by eexists _, _, _.
  - destruct (InfluxCtx.measures (influx st) !! gtm.Namespace op) as [measure|]
      eqn:Hmeasure.
    2:{ unfold addPoint. rewrite Hmeasure. by eexists _, _, _. }
    destruct (addPoint_cases E op (influx st) w measure Hmeasure)
      as (a1 & ctx1 & w1 & _ & Hcases).
    destruct a1 as [e|]; [rewrite Hcases; by eexists _, _, _|]. cbv zeta in Hcases.
    destruct (addPoint_project E measure op).2 as [e|];
      [rewrite Hcases; by eexists _, _, _|].
    destruct (client_NewPoint E _ _ _ _) as [e|pt];
      [rewrite Hcases; by eexists _, _, _|].
    destruct Hcases as (bp & _ & ->). destruct (bool_decide _); [|by eexists _, _, _].
    match goal with |- context [writeBatch E ?c ?w0] =>
      destruct (writeBatch_done E c w0) as ([e|] & ctx' & w' & ->)
    end; by eexists _, _, _.
Qed.

Lemma writer_select_below_buffer (E : Collaborators) (r : Received) (st st' : Writer)
    (w w' : World) (returned : bool) :
  below_buffer (influx st) →
  writer_select E r st w = Some (returned, st', w') →
  InfluxCtx.config (influx st') = InfluxCtx.config (influx st) ∧
  below_buffer (influx st').
Proof.
  intros Hsmall. destruct r as [| |err|op]; cbn [writer_select].
  - destruct (writeBatch E (influx st) w) as [[e|] ctx1 w1|] eqn:Hflush; [| |done];
      intros [= _ <- _]; by apply writeBatch_below_buffer in Hflush.
  - destruct (writeBatch E (influx st) w) as [[e|] ctx1 w1|] eqn:Hflush; [| |done];
      intros [= _ <- _]; by apply writeBatch_below_buffer in Hflush.
  - by intros [= _ <- _].
  - destruct (addPoint E op (influx st) w) as [[e|] ctx1 w1|] eqn:Hadd; [| |done];
      intros [= _ <- _]; by apply (addPoint_below_buffer E op _ _ w w1 _ Hsmall) in Hadd.
Qed.

Lemma writer_loop_returns (E : Collaborators) (rs : list Received) (st : Writer)
    (w : World) :
  ∃ returned st' w', writer_loop E rs st w = Some (returned, st', w').
Proof.
  revert st w. induction rs as [|r rs IH]; intros st w; [by eexists _, _, _|].
  cbn [writer_loop].
  destruct (writer_select_returns E r st w) as ([|] & st1 & w1 & ->).
  - by eexists _, _, _.
  - apply IH.
Qed.

Lemma writer_loop_below_buffer (E : Collaborators) (rs : list Received) (st st' : Writer)
    (w w' : World) (returned : bool) :
  below_buffer (influx st) →
  writer_loop E rs st w = Some (returned, st', w') →
  InfluxCtx.config (influx st') = InfluxCtx.config (influx st) ∧
  below_buffer (influx st').
Proof.
  revert st w. induction rs as [|r rs IH]; intros st w Hsmall; cbn [writer_loop].
  { by intros [= _ <- _]. }
  destruct (writer_select E r st w) as [[[[|] st1] w1]|] eqn:Hselect; [| |done].
  - intros [= _ <- _]. by apply (writer_select_below_buffer E r st st1 w w1 true).
  - destruct (writer_select_below_buffer E r st st1 w w1 false Hsmall Hselect)
      as [Hconfig Hsmall1].
    intros Hloop. destruct (IH st1 w1 Hsmall1 Hloop) as [Hconfig' Hsmall'].
    split; [by rewrite Hconfig'|done].
Qed.

(** X23: the goroutine of a writer panics exactly when the configuration
    has no measurement, or has a measurement without fields; once the
    measurements are set up, nothing that the writer receives makes it
    panic. *)
Theorem main_writer_panics (E : Collaborators) (config : configOptions) (status : Z)
    (rs : list Received) (w : World) :
  main_writer E config status rs w = None ↔
  Measurement config = [] ∨ ∃ ms, ms ∈ Measurement config ∧ Fields ms = [].
Proof.
  unfold main_writer, setupMeasurements. cbn [InfluxCtx.config InfluxCtx.measures].
  destruct (decide (0 < length (Measurement config))%nat) as [Hsome|Hnone].
  - pose proof (setupMeasurements_loop_spec (Measurement config) ∅) as Hloop.
    destruct (setupMeasurements_loop (Measurement config) ∅) as [[e|] measures].
    + destruct Hloop as [Hfails _]. split; [|done]. intros _. right. by apply Hfails.
    + destruct Hloop as [Hfails _].
      match goal with |- context [writer_loop E rs ?st0 w] =>
        destruct (writer_loop_returns E rs st0 w) as (returned & st' & w' & ->)
      end.
      split; [done|]. intros [Hempty|Hfield].
      * rewrite Hempty in Hsome. cbn in Hsome. lia.
      * by apply Hfails in Hfield.
  - split; [|done]. intros _. left. destruct (Measurement config); [done|].
    cbn [length] in Hnone. lia.
Qed.

(** X24: a writer keeps every open batch below the buffer size, whatever
    it receives and whatever fails: when its goroutine waits or has returned,
    every open batch holds fewer points than [InfluxBufferSize] (fewer than
    one when that size is zero or negative), and the writer still has the
    configuration it started with. *)
Theorem main_writer_keeps_batches_below_buffer (E : Collaborators)
    (config : configOptions) (status : Z) (rs : list Received) (w w' : World)
    (returned : bool) (st : Writer) :
  main_writer E config status rs w = Some (returned, st, w') →
  InfluxCtx.config (influx st) = config ∧
  ∀ ns, (Z.of_nat (open_points (influx st) ns) < Z.max 1 (InfluxBufferSize config))%Z.
Proof.
  unfold main_writer. intros Hwriter.
  destruct (setupMeasurements (InfluxCtx.mk ∅ ∅ ∅ config 0) w)
    as [[e|] ctx0 w0|] eqn:Hsetup; [done| |done].
  assert (InfluxCtx.config ctx0 = config ∧ InfluxCtx.m ctx0 = ∅) as [Hconfig Hm].
  { unfold setupMeasurements in Hsetup. destruct (decide _); [|done].
    destruct (setupMeasurements_loop _ _) as [err measures].
    by injection Hsetup as _ <- _. }
  assert (below_buffer ctx0) as Hsmall.
  { intros ns. unfold open_points. rewrite Hm, lookup_empty. lia. }
  destruct (writer_loop_below_buffer E rs (mkWriter ctx0 status []) st w0 w' returned
              Hsmall Hwriter) as [Hconfig' Hsmall'].
  cbn [influx] in Hconfig'. rewrite Hconfig in Hconfig'. split; [done|].
  intros ns. rewrite <- Hconfig'. apply Hsmall'.
Qed.

(** X25: a writer does not return before it receives a shutdown signal.
    On the signal it flushes what it holds: it runs [writeBatch], which hands
    every open batch to the sink when it returns no error, and it returns
    with the state that the flush leaves, without open batches; when the
    flush fails it sets the exit status to 1 and logs the error.  What its
    channels hold after the signal is not received by it. *)
Theorem writer_loop_shutdown (E : Collaborators) (pre : list Received) (st : Writer)
    (w : World) :
  from_shutdownC ∉ pre →
  ∃ st1 w1 a ctx2 w2 calls,
    writer_loop E pre st w = Some (false, st1, w1) ∧
    writeBatch E (influx st1) w1 = Done a ctx2 w2 ∧
    trace w2 = trace w1 ++ calls ∧
    (range_ok E → a = None →
     ∀ k bp, InfluxCtx.m (influx st1) !! k = Some bp → CallWrite bp None ∈ calls) ∧
    InfluxCtx.m ctx2 = ∅ ∧
    ∀ post,
      writer_loop E (pre ++ from_shutdownC :: post) st w
      = Some (true,
              mkWriter ctx2 (match a with Some _ => 1 | None => exitStatus st1 end)
                (ErrC_sent st1),
              match a with
              | Some err => record (CallLog (LogError err)) w2
              | None => w2
              end).
Proof.
  revert st w. induction pre as [|r pre IH]; intros st w Hpre.
  - destruct (writeBatch_done E (influx st) w) as (a & ctx2 & w2 & Hflush).
    assert (∃ calls, trace w2 = trace w ++ calls ∧
              (range_ok E → a = None →
               ∀ k bp, InfluxCtx.m (influx st) !! k = Some bp → CallWrite bp None ∈ calls))
      as (calls & Htrace & Hall).
    { destruct (writeBatch_cases E (influx st) w)
        as (logs & _ & [(pre & k & bp & post & e & _ & Hfail)|Hsave]).
      - rewrite Hfail in Hflush. injection Hflush as <- <- <-. eexists.
        split; [reflexivity|]. by intros _ ?.
      - destruct (saveTs_spec E (InfluxCtx.set_m ∅ (influx st))
                    (mkWorld (store w)
                       (trace w ++ writes_of (range E _ (InfluxCtx.m (influx st))) ++ logs)))
          as (a' & ctx'' & w'' & saves & Heq & Htrace & _).
        rewrite Hsave, Heq in Hflush. injection Hflush as <- <- <-.
        exists (writes_of (range E _ (InfluxCtx.m (influx st))) ++ logs ++ saves).
        split; [by rewrite Htrace; cbn [trace]; rewrite <- !app_assoc|].
        intros Hrange _ k bp Hbp. apply elem_of_app. left. unfold writes_of.
        apply list_elem_of_fmap. exists (k, bp). split; [done|].
        by apply (range_lookup E _ _ _ Hrange). }
    exists st, w, a, ctx2, w2, calls. split; [done|]. split; [done|].
    split; [done|]. split; [done|]. split; [by apply writeBatch_empties in Hflush|].
    intros post. cbn [app writer_loop writer_select]. rewrite Hflush. by destruct a.
  - apply not_elem_of_cons in Hpre as [Hr Hpre]. cbn [app writer_loop].
    destruct (writer_select_returns E r st w) as (returned & st0 & w0 & Hselect).
    rewrite Hselect. destruct returned.
    + destruct r as [| |err|op]; [done|..]; cbn [writer_select] in Hselect.
      * by destruct (writeBatch E (influx st) w) as [[e|] ? ?|].
      * done.
      * by destruct (addPoint E op (influx st) w) as [[e|] ? ?|].
    + apply (IH st0 w0 Hpre).
Qed.

Lemma writer_loop_shutdown_witness :
  ∃ st1 w1 a ctx2 w2 calls,
    writer_loop accepting [from_flusher] (mkWriter (city_worker true 22) 0 []) empty_world
    = Some (false, st1, w1) ∧
    writeBatch accepting (influx st1) w1 = Done a ctx2 w2 ∧
    trace w2 = trace w1 ++ calls ∧
    (range_ok accepting → a = None →
     ∀ k bp, InfluxCtx.m (influx st1) !! k = Some bp → CallWrite bp None ∈ calls) ∧
    InfluxCtx.m ctx2 = ∅ ∧
    ∀ post,
      writer_loop accepting ([from_flusher] ++ from_shutdownC :: post)
        (mkWriter (city_worker true 22) 0 []) empty_world
      = Some (true,
              mkWriter ctx2 (match a with Some _ => 1 | None => exitStatus st1 end)
                (ErrC_sent st1),
              match a with
              | Some err => record (CallLog (LogError err)) w2
              | None => w2
              end).
Proof.
  apply (writer_loop_shutdown accepting [from_flusher]
           (mkWriter (city_worker true 22) 0 []) empty_world).
  intros Hin%list_elem_of_singleton. discriminate Hin.
Defined.

Lemma main_writer_keeps_batches_below_buffer_witness :
  let st := mkWriter (InfluxCtx.set_lastTs 22
                        (InfluxCtx.set_dbs {["weather" := true]} (worker_of unbuffered 0)))
              0 [] in
  let calls := [CallQuery ("CREATE DATABASE " +:+ dquote +:+ "weather" +:+ dquote)
                  None None;
                CallWrite (city_batch 22) None; CallLog (PointsFlushed 1)] in
  main_writer accepting unbuffered 0 [from_OpC (city_event 22 city_data); from_flusher]
    empty_world = Some (false, st, mkWorld ∅ calls) ∧
  InfluxCtx.config (influx st) = unbuffered ∧
  ∀ ns, (Z.of_nat (open_points (influx st) ns) < Z.max 1 (InfluxBufferSize unbuffered))%Z.
Proof.
  intros st calls.
  assert (main_writer accepting unbuffered 0
            [from_OpC (city_event 22 city_data); from_flusher] empty_world
          = Some (false, st, mkWorld ∅ calls)) as Hwriter by (vm_compute; reflexivity).
  split; [exact Hwriter|].
  exact (main_writer_keeps_batches_below_buffer accepting unbuffered 0 _ empty_world _
           false st Hwriter).
Defined.






Lemma writer_select_status (E : Collaborators) (r : Received) (st st' : Writer)
    (w w' : World) (returned : bool) :
  writer_select E r st w = Some (returned, st', w') →
  exitStatus st = 1 → exitStatus st' = 1.
Proof.
  destruct r as [| |err|op]; cbn [writer_select].
  - by destruct (writeBatch E (influx st) w) as [[e|] ? ?|]; intros [= _ <- _].
  - by destruct (writeBatch E (influx st) w) as [[e|] ? ?|]; intros [= _ <- _].
  - by intros [= _ <- _].
  - by destruct (addPoint E op (influx st) w) as [[e|] ? ?|]; intros [= _ <- _].
Qed.

Lemma writer_loop_status (E : Collaborators) (rs : list Received) (st st' : Writer)
    (w w' : World) (returned : bool) :
  writer_loop E rs st w = Some (returned, st', w') →
  exitStatus st = 1 → exitStatus st' = 1.
Proof.
  revert st w. induction rs as [|r rs IH]; intros st w; cbn [writer_loop].
  { by intros [= _ <- _]. }
  destruct (writer_select E r st w) as [[[[|] st1] w1]|] eqn:Hselect; [| |done].
  - intros [= _ <- _]. by apply (writer_select_status E r st st1 w w1 true).
  - intros Hloop Hstatus. apply (IH st1 w1 Hloop).
    by apply (writer_select_status E r st st1 w w1 false).
Qed.

(** X27: an error that a writer receives from the error channel before
    any shutdown signal sets the exit status to 1, and nothing that the
    writer receives afterwards sets it back. *)
Theorem writer_loop_error_received (E : Collaborators) (pre post : list Received)
    (err : error) (st st' : Writer) (w w' : World) (returned : bool) :
  from_shutdownC ∉ pre →
  writer_loop E (pre ++ from_ErrC err :: post) st w = Some (returned, st', w') →
  exitStatus st' = 1.
Proof.
  revert st w. induction pre as [|r pre IH]; intros st w Hpre.
  - cbn [app writer_loop writer_select]. intros Hloop.
    by apply (writer_loop_status E post _ st' _ w' returned Hloop).
  - apply not_elem_of_cons in Hpre as [Hr Hpre]. cbn [app writer_loop].
    destruct (writer_select E r st w) as [[[[|] st1] w1]|] eqn:Hselect; [| |done].
    + destruct r as [| |err'|op]; [done|..]; cbn [writer_select] in Hselect.
      * by destruct (writeBatch E (influx st) w) as [[e|] ? ?|].
      * done.
      * by destruct (addPoint E op (influx st) w) as [[e|] ? ?|].
    + apply (IH st1 w1 Hpre).
Qed.

Lemma writer_loop_error_received_witness :
  let st' := mkWriter (InfluxCtx.set_lastTs 0 (InfluxCtx.set_m ∅ (city_worker true 22)))
               1 [] in
  let w' := mkWorld
              {[(Name, "resume", "default")
                := {["ts" := VMongoTimestamp 22; "_id" := VString "default"]}]}
              [CallLog (LogError "lost connection");
               CallWrite (city_batch 22) None;
               CallUpsertId Name "resume" "default" 22 None] in
  writer_loop accepting ([] ++ from_ErrC "lost connection" :: [from_shutdownC])
    (mkWriter (city_worker true 22) 0 []) empty_world = Some (true, st', w') ∧
  exitStatus st' = 1.
Proof.
  intros st' w'.
  assert (writer_loop accepting ([] ++ from_ErrC "lost connection" :: [from_shutdownC])
            (mkWriter (city_worker true 22) 0 []) empty_world = Some (true, st', w'))
    as Hloop by (vm_compute; reflexivity).
  split; [exact Hloop|].
  refine (writer_loop_error_received accepting [] [from_shutdownC] "lost connection"
            _ st' empty_world w' true _ Hloop).
  intros Hin. by apply elem_of_nil in Hin.
Defined.
